(** * Rossmann store-sales preprocessing: a shallow embedding

    The notebook [rossmann-store-sales-preproc.ipynb] is a sequence of
    dataframe transformations.  Tables are modelled as a header plus a list of
    rows, the pandas primitives the notebook calls ([merge], [filter],
    [drop], [ffill], [bfill], [diff], [rolling], [sort_values], slicing) are
    modelled by their documented behaviour, and each notebook cell becomes a
    function built from them. *)

From Stdlib Require Import String Ascii List ZArith Lia Bool Permutation Sorted.
Import ListNotations.

Local Open Scope string_scope.
Local Open Scope list_scope.
Local Open Scope Z_scope.

(* ================================================================== *)
(** ** Part I.  Generic tables and the [left.merge] accessor (cell 8)  *)
(* ================================================================== *)

(** A cell of a table.  [NaN] is the missing value. *)
Inductive value : Type :=
| VInt (z : Z)
| VStr (s : string)
| NaN.

Definition value_eqb (a b : value) : bool :=
  match a, b with
  | VInt x, VInt y => Z.eqb x y
  | VStr x, VStr y => String.eqb x y
  | NaN, NaN => true
  | _, _ => false
  end.

(** Merge keys are compared tuple-wise; pandas matches a missing key with a
    missing key. *)
Fixpoint key_eqb (a b : list value) : bool :=
  match a, b with
  | [], [] => true
  | x :: a', y :: b' => value_eqb x y && key_eqb a' b'
  | _, _ => false
  end.

Record DataFrame : Type := mkDF {
  columns : list string;
  rows : list (list value)
}.

(** Every row has one cell per column. *)
Definition wf_frame (df : DataFrame) : Prop :=
  Forall (fun r => length r = length (columns df)) (rows df).

Definition mem (c : string) (cs : list string) : bool :=
  existsb (String.eqb c) cs.

(** Position of the first column called [c]. *)
Fixpoint col_index (c : string) (cs : list string) : option nat :=
  match cs with
  | [] => None
  | c' :: cs' =>
      if String.eqb c c' then Some O
      else option_map S (col_index c cs')
  end.

(** Positions of a list of key columns; [None] is pandas' [KeyError]. *)
Fixpoint col_indices (ks cs : list string) : option (list nat) :=
  match ks with
  | [] => Some []
  | k :: ks' =>
      match col_index k cs, col_indices ks' cs with
      | Some i, Some js => Some (i :: js)
      | _, _ => None
      end
  end.

Definition key_at (idx : list nat) (r : list value) : list value :=
  map (fun i => nth i r NaN) idx.

(** Keep the entries of [xs] whose mask bit is set. *)
Fixpoint select {A : Type} (mask : list bool) (xs : list A) : list A :=
  match mask, xs with
  | b :: mask', x :: xs' => if b then x :: select mask' xs' else select mask' xs'
  | _, _ => []
  end.

(** [right_drop] of [DataFrame.merge]: a key that carries the same name on
    both sides is taken from the left table only. *)
Definition shared_keys (left_on right_on : list string) : list string :=
  map fst (filter (fun p => String.eqb (fst p) (snd p)) (combine left_on right_on)).

(** The columns the right table contributes: all but the shared keys. *)
Definition right_keep (left_on right_on : list string) (right : DataFrame) : list bool :=
  map (fun c => negb (mem c (shared_keys left_on right_on))) (columns right).

(** [suffixes=('', rsuffix)]: a contributed column whose name is also a left
    column gets [rsuffix]; the left column keeps its name. *)
Definition add_rsuffix (lcols rcols : list string) (rsuffix : string) (c : string)
    : string :=
  if (mem c lcols && mem c rcols)%bool then String.append c rsuffix else c.

Definition merge_columns (left right : DataFrame) (left_on right_on : list string)
    (rsuffix : string) : list string :=
  let rcols := select (right_keep left_on right_on right) (columns right) in
  columns left ++ map (add_rsuffix (columns left) rcols rsuffix) rcols.

(** [left_drop] of [DataFrame.merge]: on a left table without rows pandas
    drops the left copy of a key shared by name instead of the right one (it
    spares the key column of the right table a cast). *)
Definition left_keep (left_on right_on : list string) (left : DataFrame) : list bool :=
  map (fun c => negb (mem c (shared_keys left_on right_on))) (columns left).

(** The header of the merge of a left table without rows: the left columns
    less the shared keys, then every right column, the shared keys among
    them. *)
Definition merge_columns_empty (left right : DataFrame) (left_on right_on : list string)
    (rsuffix : string) : list string :=
  let lcols := select (left_keep left_on right_on left) (columns left) in
  lcols ++ map (add_rsuffix lcols (columns right) rsuffix) (columns right).

(** The output rows of one left row: one per right row with the same key, in
    the right table's order, or the row padded with missing values. *)
Definition join_row (li ri : list nat) (keep : list bool) (right : DataFrame)
    (l : list value) : list (list value) :=
  match filter (fun r => key_eqb (key_at li l) (key_at ri r)) (rows right) with
  | [] => [l ++ repeat NaN (length (select keep (columns right)))]
  | ms => map (fun r => l ++ select keep r) ms
  end.

(** [self._obj.merge(right, how='left', left_on=.., right_on=..,
    suffixes=('', rsuffix))].  [None] stands for an exception (no key, key
    lists of different lengths, unknown key column).  A key shared by name
    is dropped from the right table when the left table has rows and from
    the left table when it has none; in the second case the result has no
    row, and the key stands among the right columns. *)
Definition pd_merge_left (left right : DataFrame) (left_on right_on : list string)
    (rsuffix : string) : option DataFrame :=
  if (Nat.eqb (length left_on) 0 || negb (Nat.eqb (length left_on) (length right_on)))%bool
  then None
  else
    match col_indices left_on (columns left), col_indices right_on (columns right) with
    | Some li, Some ri =>
        match rows left with
        | [] => Some (mkDF (merge_columns_empty left right left_on right_on rsuffix) [])
        | _ :: _ =>
            Some (mkDF (merge_columns left right left_on right_on rsuffix)
                       (flat_map (join_row li ri (right_keep left_on right_on right) right)
                                 (rows left)))
        end
    | _, _ => None
    end.

(** The shape of the rows a left row gives rise to. *)
Definition right_part (li ri : list nat) (keep : list bool) (R : DataFrame)
    (l rp : list value) : Prop :=
  rp = repeat NaN (length (select keep (columns R))) \/
  exists r, In r (rows R) /\ key_at li l = key_at ri r /\ rp = select keep r.

(** [re.search('_y$', name)]: without the MULTILINE flag [$] matches at the
    end of the string and also just before a final newline. *)
Fixpoint ends_with (suf s : string) : bool :=
  (String.eqb s suf ||
   match s with
   | EmptyString => false
   | String _ s' => ends_with suf s'
   end)%bool.

Definition newline : string := String (ascii_of_nat 10) EmptyString.

Definition regex_y (name : string) : bool :=
  (ends_with "_y" name || ends_with (String.append "_y" newline) name)%bool.

(** [df.filter(regex='_y$').columns.tolist()] *)
Definition filter_regex_y (df : DataFrame) : list string :=
  filter regex_y (columns df).

(** [df.drop(columns=names)]: every column carrying one of the labels goes. *)
Definition drop_columns (df : DataFrame) (names : list string) : DataFrame :=
  let mask := map (fun c => negb (mem c names)) (columns df) in
  mkDF (select mask (columns df)) (map (select mask) (rows df)).

(** The [left_on] / [right_on] argument is a label or a list of labels. *)
Inductive on_arg : Type :=
| OnStr (s : string)
| OnList (l : list string).

Definition on_keys (a : on_arg) : list string :=
  match a with
  | OnStr s => [s]
  | OnList l => l
  end.

(** Python truthiness, as used by [right_on or left_on] and
    [suffix or '_y']. *)
Definition truthy_on (a : option on_arg) : bool :=
  match a with
  | None => false
  | Some (OnStr s) => negb (String.eqb s EmptyString)
  | Some (OnList l) => negb (Nat.eqb (length l) 0)
  end.

Definition or_on (right_on : option on_arg) (left_on : on_arg) : on_arg :=
  match right_on with
  | Some a => if truthy_on right_on then a else left_on
  | None => left_on
  end.

Definition or_suffix (suffix : option string) : string :=
  match suffix with
  | Some s => if String.eqb s EmptyString then "_y" else s
  | None => "_y"
  end.

(** [LeftMerger.merge(self, right, left_on, right_on=None, suffix=None)] *)
Definition LeftMerger_merge (self right : DataFrame) (left_on : on_arg)
    (right_on : option on_arg) (suffix : option string) : option DataFrame :=
  match pd_merge_left self right (on_keys left_on)
          (on_keys (or_on right_on left_on)) (or_suffix suffix) with
  | None => None
  | Some df =>
      match suffix with
      | None => Some (drop_columns df (filter_regex_y df))
      | Some _ => Some df
      end
  end.

(** What is left of a left-table row (or header) once [merge] returns: with
    no suffix the cells under a name matching [_y$] are gone. *)
Definition surviving {A : Type} (suffix : option string) (cols : list string)
    (xs : list A) : list A :=
  match suffix with
  | None => select (map (fun c => negb (regex_y c)) cols) xs
  | Some _ => xs
  end.

(* ================================================================== *)
(** ** Part II.  Date-derived features (cells 14 to 19)                *)
(* ================================================================== *)

(** *** Fixed-width integers and timestamps *)

(** Two's-complement wrap-around of a [bits]-wide signed integer. *)
Definition wrap (bits : Z) (z : Z) : Z :=
  (z + 2 ^ (bits - 1)) mod 2 ^ bits - 2 ^ (bits - 1).

Definition int32 : Z -> Z := wrap 32.
Definition int64 : Z -> Z := wrap 64.

(** [astype(np.int32)] of a float column: the cast of a float outside the
    int32 range yields the least int32. *)
Definition astype_int32 (v : Z) : Z :=
  if (- 2 ^ 31 <=? v) && (v <? 2 ^ 31) then v else - 2 ^ 31.

(** A [datetime64[ns]] is a count of nanoseconds since 1970-01-01 held in
    an int64; the least int64 is the missing timestamp [NaT]. *)
Definition day_ns : Z := 86400 * 10 ^ 9.
Definition iNaT : Z := - 2 ^ 63.

Definition in_int64 (z : Z) : bool := (- 2 ^ 63 <=? z) && (z <? 2 ^ 63).

(** Calendar dates (the [Date] column, [CompetitionOpenSince]) are kept
    as day numbers since 1970-01-01; a day number is a valid timestamp when
    its midnight fits the int64 nanosecond range. *)
Definition valid_day (d : Z) : bool :=
  (iNaT <? d * day_ns) && (d * day_ns <? 2 ^ 63).

(** *** Proleptic Gregorian calendar *)

Definition is_leap (y : Z) : bool :=
  (y mod 4 =? 0) && (negb (y mod 100 =? 0) || (y mod 400 =? 0)).

(** Days from 0001-01-01 to the first of January of year [y]. *)
Definition days_before_year (y : Z) : Z :=
  let p := y - 1 in
  p * 365 + p / 4 - p / 100 + p / 400.

Definition days_in_month (y m : Z) : Z :=
  if m =? 2 then (if is_leap y then 29 else 28)
  else if (m =? 4) || (m =? 6) || (m =? 9) || (m =? 11) then 30
  else 31.

(** Days of year [y] that precede the first of month [m]. *)
Definition days_before_month (y m : Z) : Z :=
  fold_right Z.add 0
    (map (days_in_month y) (map Z.of_nat (seq 1 (Z.to_nat (m - 1))))).

(** Day number of the civil date [y]-[m]-[d], counted from 1970-01-01. *)
Definition days_from_civil (y m d : Z) : Z :=
  days_before_year y + days_before_month y m + (d - 1)
  - days_before_year 1970.

(** *** Parsing dates *)

(** The decimal digits of [n >= 0], the least significant first; [fuel]
    bounds their number. *)
Fixpoint digits_rev (fuel : nat) (n : Z) : list Z :=
  match fuel with
  | O => []
  | S fuel' => if n <? 10 then [n] else n mod 10 :: digits_rev fuel' (n / 10)
  end.

(** [str(n)] for an int64 [n >= 0], which has at most 19 digits. *)
Definition digits (n : Z) : list Z := rev (digits_rev 20 n).

(** The directive [%m] is the regular expression [1[0-2]|0[1-9]|[1-9]]:
    the ways it matches at the head of [s], in the order the alternatives
    are tried, each with the month read and the text left. *)
Definition re_m (s : list Z) : list (Z * list Z) :=
  match s with
  | a :: b :: t =>
      (if (a =? 1) && (b <=? 2) then [(10 + b, t)] else [])
      ++ (if (a =? 0) && (1 <=? b) then [(b, t)] else [])
      ++ (if 1 <=? a then [(a, b :: t)] else [])
  | [a] => if 1 <=? a then [(a, [])] else []
  | [] => []
  end.

(** The directive [%d] is [3[01]|[12]\d|0[1-9]|[1-9]| [1-9]]; the last
    alternative asks for a space, which the text of a number does not
    have. *)
Definition re_d (s : list Z) : list (Z * list Z) :=
  match s with
  | a :: b :: t =>
      (if (a =? 3) && (b <=? 1) then [(30 + b, t)] else [])
      ++ (if (1 <=? a) && (a <=? 2) then [(10 * a + b, t)] else [])
      ++ (if (a =? 0) && (1 <=? b) then [(b, t)] else [])
      ++ (if 1 <=? a then [(a, b :: t)] else [])
  | [a] => if 1 <=? a then [(a, [])] else []
  | [] => []
  end.

(** The match of [%m%d] that a backtracking matcher finds first: month,
    day and the text left over. *)
Definition re_md (s : list Z) : option (Z * Z * list Z) :=
  hd_error
    (flat_map (fun mt => map (fun dr => (fst mt, fst dr, snd dr)) (re_d (snd mt)))
              (re_m s)).

(** [pd.to_datetime(v, format='%Y%m%d')] on an integer: the text of [v] is
    matched against [\d\d\d\d] followed by [%m%d], text left over is an
    error, and so are a day the month does not have and a date outside the
    range of timestamps.  (pandas first tries to read year, month and day
    off [v] as [v // 10000], [v // 100 % 100] and [v % 100]; where that
    succeeds, on eight digits that spell a date in range, the match gives
    the same date, and where it fails for one row the whole column is
    matched.) *)
Definition strptime_Ymd (v : Z) : option Z :=
  if v <? 0 then None
  else
    match digits v with
    | y1 :: y2 :: y3 :: y4 :: s =>
        match re_md s with
        | Some (m, d, []) =>
            let y := 1000 * y1 + 100 * y2 + 10 * y3 + y4 in
            if (d <=? days_in_month y m) && valid_day (days_from_civil y m d)
            then Some (days_from_civil y m d)
            else None
        | _ => None
        end
    | _ => None
    end.

(** [pd.to_datetime(dict(year=.., month=.., day=..))]: the three columns
    are cast to int64 and assembled into [year * 10000 + month * 100 + day],
    which is then parsed with the format [%Y%m%d]; [None] is the exception
    raised when that fails. *)
Definition to_datetime_ymd (y m d : Z) : option Z :=
  strptime_Ymd (int64 (y * 10000 + m * 100 + d)).

(** [pd.to_datetime(years, format='%Y')]: the text of the year has to be
    the four digits [%Y] asks for, which it is from 1000 to 9999; the date
    is the first of January. *)
Definition to_datetime_year (y : Z) : option Z :=
  if (1000 <=? y) && (y <=? 9999) && valid_day (days_from_civil y 1 1)
  then Some (days_from_civil y 1 1)
  else None.

(** [pd.to_datetime(int64 nanoseconds)] *)
Definition to_datetime_ns (ns : Z) : option Z :=
  if ns =? iNaT then None else Some ns.

(** [a.subtract(b).dt.days] on timestamps in nanoseconds: the subtraction
    raises on int64 overflow (outer [None]); a missing operand or a
    difference that is the [NaT] pattern gives a missing day count (inner
    [None]); otherwise the day count is the floor of the difference. *)
Definition subtract_days (a b : option Z) : option (option Z) :=
  match a, b with
  | Some x, Some y =>
      if in_int64 (x - y)
      then Some (if x - y =? iNaT then None else Some ((x - y) / day_ns))
      else None
  | _, _ => Some None
  end.

(** *** Column helpers *)

Definition fillna (d : Z) (x : option Z) : Z :=
  match x with
  | Some v => v
  | None => d
  end.

(** Comparisons with a missing value are false. *)
Definition lt_const (x : option Z) (c : Z) : bool :=
  match x with
  | Some v => v <? c
  | None => false
  end.

Definition gt_const (x : option Z) (c : Z) : bool :=
  match x with
  | Some v => c <? v
  | None => false
  end.

(** [df.loc[mask, col] = v], one row at a time. *)
Definition loc_set (mask : bool) (v : Z) (old : option Z) : option Z :=
  if mask then Some v else old.

(** [col // c] *)
Definition floordiv (x : option Z) (c : Z) : option Z :=
  option_map (fun v => v / c) x.

(** *** Rows *)

(** A row of [train_df] / [test_df] after the joins of cells 9 to 13,
    restricted to the columns the later cells read.  The four "since"
    columns come from the store table as floats and may be missing; test
    rows have no sales amount. *)
Record Joined : Type := mkJoined {
  j_Store : Z;
  j_Date : Z;
  j_Sales : option Z;
  j_SchoolHoliday : Z;
  j_StateHoliday : bool;
  j_Promo : Z;
  raw_CompetitionOpenSinceYear : option Z;
  raw_CompetitionOpenSinceMonth : option Z;
  raw_Promo2SinceYear : option Z;
  raw_Promo2SinceWeek : option Z
}.

(** The same row after cell 19. *)
Record Row : Type := mkRow {
  Store : Z;
  Date : Z;
  Sales : option Z;
  SchoolHoliday : Z;
  StateHoliday : bool;
  Promo : Z;
  CompetitionOpenSinceYear : Z;
  CompetitionOpenSinceMonth : Z;
  Promo2SinceYear : Z;
  Promo2SinceWeek : Z;
  CompetitionOpenSince : Z;
  CompetitionDaysOpen : option Z;
  CompetitionMonthsOpen : option Z;
  Promo2Since : option Z;
  Promo2Days : option Z;
  Promo2Weeks : option Z
}.

(** Cells 14 to 19 on one row.  Each cell is vectorised over the table and
    rows do not interact, so the cells are composed row by row; [None] is an
    exception raised by one of the cells.  Every row is taken to have a
    date: the [Date] column was parsed by [pd.to_datetime] in cell 7, which
    only yields timestamps in range.  In
    cell 14 the columns are floats cast to int32, while the product of cell
    18 is taken in int32 and wraps around. *)
Definition date_features (r : Joined) : option Row :=
  (* cell 7 *)
  if negb (valid_day (j_Date r)) then None else
  (* cell 14 *)
  let cosy := astype_int32 (fillna 1900 (raw_CompetitionOpenSinceYear r)) in
  let cosm := astype_int32 (fillna 1 (raw_CompetitionOpenSinceMonth r)) in
  let p2sy := astype_int32 (fillna 1900 (raw_Promo2SinceYear r)) in
  let p2sw := astype_int32 (fillna 1 (raw_Promo2SinceWeek r)) in
  (* cell 15 *)
  match to_datetime_ymd cosy cosm 15 with
  | None => None
  | Some cos =>
  match subtract_days (Some (j_Date r * day_ns)) (Some (cos * day_ns)) with
  | None => None
  | Some cdo0 =>
  (* cell 16 *)
  let cdo1 := loc_set (lt_const cdo0 0) 0 cdo0 in
  let cdo := loc_set (cosy <? 1990) 0 cdo1 in
  (* cell 17 *)
  let cmo0 := floordiv cdo 30 in
  let cmo := loc_set (gt_const cmo0 24) 24 cmo0 in
  (* cell 18 *)
  match to_datetime_year p2sy with
  | None => None
  | Some jan1 =>
  let dt0 := (jan1 * day_ns) / 10 ^ 9 in
  let dt := int64 (dt0 + int32 (7 * 24 * 3600 * p2sw)) in
  let p2s := to_datetime_ns (int64 (dt * 10 ^ 9)) in
  match subtract_days (Some (j_Date r * day_ns)) p2s with
  | None => None
  | Some p2d0 =>
  (* cell 19 *)
  let p2d1 := loc_set (lt_const p2d0 0) 0 p2d0 in
  let p2d := loc_set (p2sy <? 1990) 0 p2d1 in
  let p2w0 := floordiv p2d 7 in
  let p2w1 := loc_set (lt_const p2w0 0) 0 p2w0 in
  let p2w := loc_set (gt_const p2w1 25) 25 p2w1 in
  Some (mkRow (j_Store r) (j_Date r) (j_Sales r) (j_SchoolHoliday r)
              (j_StateHoliday r) (j_Promo r)
              cosy cosm p2sy p2sw cos cdo cmo p2s p2d p2w)
  end end end end.

(** The cells run over a whole table and stop at the first exception. *)
Fixpoint date_feature_stage (df : list Joined) : option (list Row) :=
  match df with
  | [] => Some []
  | r :: df' =>
      match date_features r, date_feature_stage df' with
      | Some r', Some out => Some (r' :: out)
      | _, _ => None
      end
  end.

(* ================================================================== *)
(** ** Part III.  Event proximity and rolling sums (cells 20 to 22)    *)
(* ================================================================== *)

(** *** Sorting *)

(** [sort_values] / [sort_index] as a stable insertion sort: rows that
    compare equal keep their relative order.  On several keys pandas sorts
    stably.  On one key it sorts with quicksort, which returns the rows in
    the order of the key without promising an order among rows with the same
    key; the stable order then stands for the one pandas picks, and what is
    stated of a table sorted on one key is stated relative to the sorted
    table or holds of every sorted rearrangement. *)
Section Sorting.
Context {A : Type} (leb : A -> A -> bool).

Fixpoint insert_by (x : A) (l : list A) : list A :=
  match l with
  | [] => [x]
  | y :: l' => if leb x y then x :: l else y :: insert_by x l'
  end.

Definition sort_by (l : list A) : list A := fold_right insert_by [] l.

(** The order a boolean comparison stands for. *)
Definition le_of (a b : A) : Prop := leb a b = true.
End Sorting.

Definition store_date_leb (a b : Row) : bool :=
  (Store a <? Store b) || ((Store a =? Store b) && (Date a <=? Date b)).

Definition date_leb (a b : Row) : bool := Date a <=? Date b.
Definition date_geb (a b : Row) : bool := Date b <=? Date a.

(** *** The three event columns *)

Inductive event_field : Type :=
| SchoolHoliday_f
| StateHoliday_f
| Promo_f.

Definition event_fields : list event_field :=
  [SchoolHoliday_f; StateHoliday_f; Promo_f].

(** The numeric value of an event column; a boolean counts as 0 or 1. *)
Definition field_value (f : event_field) (r : Row) : Z :=
  match f with
  | SchoolHoliday_f => SchoolHoliday r
  | StateHoliday_f => Z.b2z (StateHoliday r)
  | Promo_f => Promo r
  end.

(** *** Series primitives *)

(** [s.diff()] *)
Definition diff (xs : list Z) : list (option Z) :=
  match xs with
  | [] => []
  | _ :: t => None :: map (fun p => Some (snd p - fst p)) (combine xs t)
  end.

(** [s != 0]: a missing value differs from 0. *)
Definition ne0 (d : option Z) : bool :=
  match d with
  | Some v => negb (v =? 0)
  | None => true
  end.

(** The float operand of [bool_series | float_series] is read as a boolean:
    non-zero is true, missing is false. *)
Definition float_as_bool (d : option Z) : bool :=
  match d with
  | Some v => negb (v =? 0)
  | None => false
  end.

(** [s.index = other.index] needs as many labels as [s] has entries. *)
Definition set_index_of {A B : Type} (s : list A) (other : list B) : option (list A) :=
  if Nat.eqb (length s) (length other) then Some s else None.

Fixpoint ffill_from (last : option Z) (xs : list (option Z)) : list (option Z) :=
  match xs with
  | [] => []
  | x :: xs' =>
      let cur := match x with Some _ => x | None => last end in
      cur :: ffill_from cur xs'
  end.

(** [s.ffill()] *)
Definition ffill (xs : list (option Z)) : list (option Z) := ffill_from None xs.

(** [s.bfill()] *)
Fixpoint bfill (xs : list (option Z)) : list (option Z) :=
  match xs with
  | [] => []
  | x :: xs' =>
      let rest := bfill xs' in
      match x with
      | Some _ => x :: rest
      | None => hd None rest :: rest
      end
  end.

(** *** Cells 20 and 21 *)

(** [train_df.append(test_df, ignore_index=True)] *)
Definition append_frames (train_df test_df : list Row) : list Row :=
  train_df ++ test_df.

(** [df.sort_values(by=['Store', 'Date'])] *)
Definition sort_values_Store_Date (df : list Row) : list Row :=
  sort_by store_date_leb df.

(** [df.Store.diff() != 0] *)
Definition first_indices (df : list Row) : list bool :=
  map ne0 (diff (map Store df)).

(** [df.Store.diff().iloc[1:].append(pd.Series([1]))] *)
Definition last_indices (df : list Row) : list (option Z) :=
  tl (diff (map Store df)) ++ [Some 1].

(** [~(first_indices | last_indices)], after [last_indices] took over the
    index of [first_indices]. *)
Definition idx_mask (df : list Row) : option (list bool) :=
  match set_index_of (last_indices df) (first_indices df) with
  | None => None
  | Some last =>
      Some (map (fun p => negb (fst p || float_as_bool (snd p)))
                (combine (first_indices df) last))
  end.

(** [df['tmp'] = df.Date; df.loc[(df[field] == 0) & idx_mask, 'tmp'] = np.nan] *)
Definition tmp_col (f : event_field) (df : list Row) (mask : list bool)
    : list (option Z) :=
  map (fun p => if (field_value f (fst p) =? 0) && snd p
                then None else Some (Date (fst p)))
      (combine df mask).

(** [(df['Date'] - df.tmp.ffill()).astype('timedelta64[D]')] *)
Definition After_of (f : event_field) (df : list Row) (mask : list bool)
    : list (option Z) :=
  map (fun p => option_map (fun t => Date (fst p) - t) (snd p))
      (combine df (ffill (tmp_col f df mask))).

(** [(df.tmp.bfill() - df['Date']).astype('timedelta64[D]')] *)
Definition Before_of (f : event_field) (df : list Row) (mask : list bool)
    : list (option Z) :=
  map (fun p => option_map (fun t => t - Date (fst p)) (snd p))
      (combine df (bfill (tmp_col f df mask))).

(** Cell 21 on the union table [df]: the sorted table, and for an event
    field its ['After'+field] and ['Before'+field] columns, aligned with the
    sorted table. *)
Definition After (f : event_field) (df : list Row) : option (list (option Z)) :=
  let df := sort_values_Store_Date df in
  option_map (After_of f df) (idx_mask df).

Definition Before (f : event_field) (df : list Row) : option (list (option Z)) :=
  let df := sort_values_Store_Date df in
  option_map (Before_of f df) (idx_mask df).

(** *** Cell 22 *)

Definition sumZ (xs : list Z) : Z := fold_right Z.add 0 xs.

(** The observations of a window that are not missing. *)
Fixpoint valid_obs (xs : list (option Z)) : list Z :=
  match xs with
  | [] => []
  | Some v :: xs' => v :: valid_obs xs'
  | None :: xs' => valid_obs xs'
  end.

(** [s.rolling(window, min_periods=min_periods).sum()]: entry [i] looks at
    entries [i-window+1 .. i] (fewer at the start), and is missing when the
    window holds fewer than [min_periods] observations. *)
Definition rolling_sum (window min_periods : nat) (xs : list (option Z))
    : list (option Z) :=
  map (fun i =>
         let obs := valid_obs (skipn (i + 1 - window) (firstn (i + 1) xs)) in
         if Nat.leb min_periods (length obs) then Some (sumZ obs) else None)
      (seq 0 (length xs)).

Fixpoint insert_key (x : Z) (l : list Z) : list Z :=
  match l with
  | [] => [x]
  | y :: l' =>
      if x <? y then x :: l
      else if x =? y then l
      else y :: insert_key x l'
  end.

(** The group keys of [groupby("Store")]: the distinct stores, ascending. *)
Definition group_keys (df : list Row) : list Z :=
  fold_right insert_key [] (map Store df).

(** A row of [bwd] / [fwd]: the (Store, Date) index and one rolling sum per
    event column. *)
Record RollRow : Type := mkRoll {
  r_Store : Z;
  r_Date : Z;
  r_SchoolHoliday : option Z;
  r_StateHoliday : option Z;
  r_Promo : option Z
}.

Definition rolled (f : event_field) (r : RollRow) : option Z :=
  match f with
  | SchoolHoliday_f => r_SchoolHoliday r
  | StateHoliday_f => r_StateHoliday r
  | Promo_f => r_Promo r
  end.

Fixpoint zip_roll (g : list Row) (a b c : list (option Z)) : list RollRow :=
  match g, a, b, c with
  | r :: g', x :: a', y :: b', z :: c' =>
      mkRoll (Store r) (Date r) x y z :: zip_roll g' a' b' c'
  | _, _, _, _ => []
  end.

Definition rolling_col (f : event_field) (g : list Row) : list (option Z) :=
  rolling_sum 7 1 (map (fun r => Some (field_value f r)) g).

(** [.groupby("Store").rolling(7, min_periods=1).sum()] over a table already
    ordered by its Date index: the groups come in key order and each keeps
    the order of the table. *)
Definition groupby_Store_rolling (df : list Row) : list RollRow :=
  flat_map (fun s =>
              let g := filter (fun r => Store r =? s) df in
              zip_roll g (rolling_col SchoolHoliday_f g)
                         (rolling_col StateHoliday_f g)
                         (rolling_col Promo_f g))
           (group_keys df).

(** [df.sort_index()] and [df.sort_index(ascending=False)] on the Date index *)
Definition sort_index (ascending : bool) (df : list Row) : list Row :=
  if ascending then sort_by date_leb df else sort_by date_geb df.

Definition bwd (df : list Row) : list RollRow :=
  groupby_Store_rolling (sort_index true df).

Definition fwd (df : list Row) : list RollRow :=
  groupby_Store_rolling (sort_index false df).

(** *** Auxiliary view of cell 21, used in the proofs *)

(** [idx_mask] computed in one pass: a row is masked unless it is the first
    of the table, the last of the table, or next to a row of another
    store.  [isfirst] tells whether the head row starts a store. *)
Fixpoint mask_rec (isfirst : bool) (l : list Row) : list bool :=
  match l with
  | [] => []
  | r :: l' =>
      let islast := match l' with
                    | [] => true
                    | r' :: _ => negb (Store r' - Store r =? 0)
                    end in
      negb (isfirst || islast) :: mask_rec islast l'
  end.

(** The claim's carry points of one store's rows [g] (sorted by date): the
    event flag is set, or the row is the store's first or last. *)
Definition carry_point (f : event_field) (g : list Row) (i : nat) : bool :=
  negb (nth i (map (field_value f) g) 0 =? 0)
  || Nat.eqb i 0 || Nat.eqb (S i) (length g).

(* ================================================================== *)
(** ** Part IV.  Zero-sales filter and split (cells 27 to 29)          *)
(* ================================================================== *)

(** [VALID_FRAC = 0.25], a dyadic fraction, as numerator and denominator. *)
Definition VALID_FRAC : Z * Z := (1, 4).

(** [int(frac * n)]: the product is truncated towards zero.  The fraction
    is held as a ratio, which is exact for the notebook's 0.25, a binary
    fraction: the float product [0.25 * n] is [n / 4] without rounding. *)
Definition int_frac_mul (frac : Z * Z) (n : Z) : Z :=
  Z.quot (fst frac * n) (snd frac).

(** Python's handling of a slice bound [i] on a sequence of length [n]. *)
Definition slice_bound (n : nat) (i : Z) : nat :=
  if i <? 0 then Z.to_nat (Z.max 0 (Z.of_nat n + i))
  else Z.to_nat (Z.min i (Z.of_nat n)).

(** [df[i:]] and [df[:i]] *)
Definition slice_from {A : Type} (i : Z) (df : list A) : list A :=
  skipn (slice_bound (length df) i) df.

Definition slice_to {A : Type} (i : Z) (df : list A) : list A :=
  firstn (slice_bound (length df) i) df.

(** Cell 27: [train_df[train_df.Sales != 0]]; a missing amount differs
    from 0. *)
Definition drop_zero_sales (train_df : list Row) : list Row :=
  filter (fun r => ne0 (Sales r)) train_df.

(** [train_df.sort_values(by='Date')] *)
Definition sort_values_Date (df : list Row) : list Row := sort_by date_leb df.

(** Cell 28, with the fraction as a parameter: the pair
    (training rows, validation rows). *)
Definition split_with (frac : Z * Z) (train_df : list Row) : list Row * list Row :=
  let train_df := sort_values_Date train_df in
  let num_valid := int_frac_mul frac (Z.of_nat (length train_df)) in
  let valid_df := slice_from (- num_valid) train_df in
  let train_df := slice_to (- num_valid) train_df in
  (train_df, valid_df).

Definition split : list Row -> list Row * list Row := split_with VALID_FRAC.

(** The three tables written by cell 29. *)
Record Outputs : Type := mkOutputs {
  out_train : list Row;
  out_valid : list Row;
  out_test : list Row
}.

(** Cells 27 to 29 on the assembled train and test tables. *)
Definition split_and_write (train_df test_df : list Row) : Outputs :=
  let train_df := drop_zero_sales train_df in
  let tv := split train_df in
  mkOutputs (fst tv) (snd tv) test_df.


(* ================================================================== *)
(** ** Part V.  Parsing the search-trend table (cell 6)                *)
(* ================================================================== *)

(** [s.split(sep)] for a non-empty separator: the pieces between the
    occurrences of [sep], found from left to right without overlap.
    [skip] counts the characters of a separator still to be passed over and
    [cur] is the piece read so far. *)
Fixpoint split_go (sep : string) (skip : nat) (cur : string) (s : string)
    : list string :=
  match s with
  | EmptyString => [cur]
  | String c s' =>
      match skip with
      | S k => split_go sep k cur s'
      | O =>
          if String.prefix sep s
          then cur :: split_go sep (String.length sep - 1) EmptyString s'
          else split_go sep 0 (String.append cur (String c EmptyString)) s'
      end
  end.

Definition str_split (sep s : string) : list string :=
  split_go sep 0 EmptyString s.

(** [series.str.split(sep, expand=True)[k]]: the pieces are laid out in as
    many columns as the longest row has pieces, shorter rows are padded with
    missing values, and taking a column that does not exist is a [KeyError]
    ([None]). *)
Definition expand_column (k : nat) (pieces : list (list string))
    : option (list (option string)) :=
  if Nat.ltb k (fold_right Nat.max 0%nat (map (@length string) pieces))
  then Some (map (fun p => nth_error p k) pieces)
  else None.

(** A row of [googletrend] as read, and after cell 6. *)
Record Trend : Type := mkTrend {
  file : string;
  week : string;
  trend : Z
}.

Record TrendRow : Type := mkTrendRow {
  t_file : string;
  t_week : string;
  t_trend : Z;
  t_Date : option string;
  t_State : option string
}.

(** [googletrend.loc[googletrend.State=='NI', "State"] = 'HB,NI'] *)
Definition remap_NI (st : option string) : option string :=
  match st with
  | Some s => if String.eqb s "NI" then Some "HB,NI" else Some s
  | None => None
  end.

Fixpoint zip_trend (g : list Trend) (dates states : list (option string))
    : list TrendRow :=
  match g, dates, states with
  | r :: g', d :: dates', st :: states' =>
      mkTrendRow (file r) (week r) (trend r) d (remap_NI st)
        :: zip_trend g' dates' states'
  | _, _, _ => []
  end.

(** Cell 6: the pair ([googletrend], [trend_de]). *)
Definition parse_googletrend (googletrend : list Trend)
    : option (list TrendRow * list TrendRow) :=
  match expand_column 0 (map (fun r => str_split " - " (week r)) googletrend) with
  | None => None
  | Some dates =>
      match expand_column 2 (map (fun r => str_split "_" (file r)) googletrend) with
      | None => None
      | Some states =>
          let googletrend := zip_trend googletrend dates states in
          let trend_de :=
            filter (fun r => String.eqb (t_file r) "Rossmann_DE") googletrend in
          Some (googletrend, trend_de)
      end
  end.

(** Whether the character [c] occurs in [s]. *)
Fixpoint has_char (c : ascii) (s : string) : bool :=
  match s with
  | EmptyString => false
  | String c' s' => Ascii.eqb c c' || has_char c s'
  end.

(* ================================================================== *)
(** ** Part VI.  Calendar fields of a date (cell 7)                    *)
(* ================================================================== *)

(** [Date.dt.year] of the day number [n]: an estimate from the mean length
    of a year, corrected by at most one year to the year that has the day. *)
Definition dt_year (n : Z) : Z :=
  let a := n + days_before_year 1970 in
  let c := 400 * a / 146097 + 1 in
  if a <? days_before_year c then c - 1
  else if days_before_year (c + 1) <=? a then c + 1
  else c.

(** The month that has the [k]-th day (from 0) of a year. *)
Definition month_of_year_day (leap : bool) (k : Z) : Z :=
  let l := if leap then 1 else 0 in
  if k <? 31 then 1
  else if k <? 59 + l then 2
  else if k <? 90 + l then 3
  else if k <? 120 + l then 4
  else if k <? 151 + l then 5
  else if k <? 181 + l then 6
  else if k <? 212 + l then 7
  else if k <? 243 + l then 8
  else if k <? 273 + l then 9
  else if k <? 304 + l then 10
  else if k <? 334 + l then 11
  else 12.

(** [Date.dt.month] *)
Definition dt_month (n : Z) : Z :=
  let y := dt_year n in
  month_of_year_day (is_leap y) (n - days_from_civil y 1 1).

(** [Date.dt.day] *)
Definition dt_day (n : Z) : Z :=
  n - days_from_civil (dt_year n) (dt_month n) 1 + 1.

(** [Date.dt.dayofweek], Monday being 0; 1970-01-01 was a Thursday. *)
Definition dt_dayofweek (n : Z) : Z := (n + 3) mod 7.

(** [Date.dt.week]: the ISO 8601 week number, which is the number of the
    week, within its own year, of the Thursday of the date's week. *)
Definition dt_week (n : Z) : Z :=
  let th := n - dt_dayofweek n + 3 in
  (th - days_from_civil (dt_year th) 1 1) / 7 + 1.

(** The four columns that cell 7 adds for a date. *)
Record DateParts : Type := mkDateParts {
  Year : Z;
  Month : Z;
  Week : Z;
  Day : Z
}.

Definition add_date_parts (n : Z) : DateParts :=
  mkDateParts (dt_year n) (dt_month n) (dt_week n) (dt_day n).

(* ================================================================== *)
(** ** Part VII.  The final-columns loop of the training notebook      *)
(* ================================================================== *)

(** [l.remove(x)]: the list without the first occurrence of [x]; [None] is
    the [ValueError] raised when there is none. *)
Fixpoint list_remove (x : string) (l : list string) : option (list string) :=
  match l with
  | [] => None
  | y :: l' =>
      if String.eqb x y then Some l'
      else option_map (cons y) (list_remove x l')
  end.

(** [while True: try: l.remove(x) except ValueError: break], with a bound on
    the number of passes; [None] means the bound was reached. *)
Fixpoint remove_all_loop (fuel : nat) (x : string) (l : list string)
    : option (list string) :=
  match fuel with
  | O => None
  | S fuel' =>
      match list_remove x l with
      | Some l' => remove_all_loop fuel' x l'
      | None => Some l
      end
  end.


(* ================================================================== *)
(** ** Example tables                                                  *)
(* ================================================================== *)

(** A left table with a column whose own name ends in [_y], and right
    tables with unique and with repeated keys. *)
Definition ex_left : DataFrame :=
  mkDF ["k"; "a_y"; "x"]
       [[VInt 1; VInt 5; VInt 7]; [VInt 2; VInt 6; VInt 8]].

Definition ex_right : DataFrame :=
  mkDF ["k"; "x"; "b"] [[VInt 1; VInt 10; VStr "u"]].

Definition ex_right_dup : DataFrame :=
  mkDF ["k"; "x"; "b"]
       [[VInt 1; VInt 10; VStr "u"]; [VInt 1; VInt 20; VStr "v"]].

Definition ex_plain_left : DataFrame :=
  mkDF ["k"; "x"] [[VInt 1; VInt 7]; [VInt 2; VInt 8]].

(** Joined rows for store 1 on 2015-07-31: competitor known since September
    2008; without, and with, a second promotion since week 13 of 2010. *)
Definition ex_joined_1 : Joined :=
  mkJoined 1 (days_from_civil 2015 7 31) (Some 5263) 1 false 1
           (Some 2008) (Some 9) None None.

Definition ex_joined_2 : Joined :=
  mkJoined 1 (days_from_civil 2015 7 31) (Some 5263) 1 false 1
           (Some 2008) (Some 9) (Some 2010) (Some 13).

(** The same store with 112 on record as the month of the competitor. *)
Definition ex_joined_month_112 : Joined :=
  mkJoined 1 (days_from_civil 2015 7 31) (Some 5263) 1 false 1
           (Some 2008) (Some 112) None None.

(** One hundred rows: the third row carries the latest date. *)
Definition ex_hundred : list Row :=
  map (fun i => mkRow 1 (if Nat.eqb i 2 then 500 else Z.of_nat i) (Some 1) 0 false 0
                      1900 1 1900 1 0 (Some 0) (Some 0) None (Some 0) (Some 0))
      (seq 0 100).

(** One hundred rows already in date order. *)
Definition ex_hundred_sorted : list Row :=
  map (fun i => mkRow 1 (Z.of_nat i) (Some 1) 0 false 0
                      1900 1 1900 1 0 (Some 0) (Some 0) None (Some 0) (Some 0))
      (seq 0 100).

(** Three rows, out of date order. *)
Definition ex_three : list Row :=
  map (fun d => mkRow 1 d (Some 1) 0 false 0
                      1900 1 1900 1 0 (Some 0) (Some 0) None (Some 0) (Some 0))
      [3; 1; 2].

(** A row that only matters for its store, date, flags and sales. *)
Definition ex_row (store date school : Z) (state : bool) (promo : Z)
    (sales : option Z) : Row :=
  mkRow store date sales school state promo
        1900 1 1900 1 0 (Some 0) (Some 0) None (Some 0) (Some 0).

(** A union table of two stores, not in order: store 1 is present on days
    1, 2, 3, 4 and 7 with a school holiday on day 2; store 2 on days 10 to
    12. *)
Definition ex_union : list Row :=
  [ ex_row 2 10 0 false 0 None;
    ex_row 1 3 0 false 1 (Some 0);
    ex_row 1 1 0 false 0 (Some 1);
    ex_row 1 2 1 false 0 (Some 4);
    ex_row 2 12 0 true 1 (Some 5);
    ex_row 2 11 0 false 1 None;
    ex_row 1 4 0 false 0 (Some 3);
    ex_row 1 7 0 false 0 (Some 3) ].

(** A store present on nine consecutive days, with a promotion on each. *)
Definition ex_nine_days : list Row :=
  map (fun d => ex_row 5 d 0 false 1 (Some 1)) [1; 2; 3; 4; 5; 6; 7; 8; 9].

(** A right table with two distinct keys. *)
Definition ex_right_two_keys : DataFrame :=
  mkDF ["k"; "x"; "b"]
       [[VInt 2; VInt 20; VStr "v"]; [VInt 1; VInt 10; VStr "u"]].

(** A joined row of a store with no competitor and no second promotion on
    record. *)
Definition ex_joined_missing : Joined :=
  mkJoined 7 (days_from_civil 2014 3 9) None 0 false 0 None None None None.

(** Three rows of the search-trend table. *)
Definition ex_trend : list Trend :=
  [ mkTrend "Rossmann_DE_SN" "2012-12-02 - 2012-12-08" 96;
    mkTrend "Rossmann_DE" "2012-12-02 - 2012-12-08" 77;
    mkTrend "Rossmann_DE_NI" "2012-12-09 - 2012-12-15" 76 ].

(* ================================================================== *)
(** ** Auxiliary definitions of the statements                         *)
(* ================================================================== *)

(** The number of right rows that carry the key of the left row [l]. *)
Definition match_count (li ri : list nat) (right : DataFrame) (l : list value) : nat :=
  length (filter (fun r => key_eqb (key_at li l) (key_at ri r)) (rows right)).

(* ================================================================== *)
(** ** Proofs, part I: the left-join utility                           *)
(* ================================================================== *)

Lemma value_eqb_eq (a b : value) : value_eqb a b = true <-> a = b.
Proof.
  destruct a, b; simpl; split; intros H; try discriminate; try reflexivity.
  - apply Z.eqb_eq in H. now subst.
  - inversion H. apply Z.eqb_refl.
  - apply String.eqb_eq in H. now subst.
  - inversion H. apply String.eqb_refl.
Qed.

Lemma key_eqb_eq (a b : list value) : key_eqb a b = true <-> a = b.
Proof.
  revert b. induction a as [|x a IH]; intros [|y b]; simpl; split; intros H;
    try discriminate; try reflexivity.
  - apply andb_true_iff in H. destruct H as [H1 H2].
    apply value_eqb_eq in H1. apply IH in H2. now subst.
  - inversion H; subst. apply andb_true_iff. split.
    + now apply value_eqb_eq.
    + now apply IH.
Qed.

Lemma mem_In (c : string) (cs : list string) : mem c cs = true <-> In c cs.
Proof.
  unfold mem. rewrite existsb_exists. split.
  - intros [x [Hx He]]. apply String.eqb_eq in He. now subst.
  - intros H. exists c. split; [assumption | apply String.eqb_refl].
Qed.

Lemma mem_false (c : string) (cs : list string) : mem c cs = false <-> ~ In c cs.
Proof.
  rewrite <- mem_In. destruct (mem c cs); split; intros H; congruence.
Qed.

Lemma select_map_filter {A : Type} (f : A -> bool) (xs : list A) :
  select (map f xs) xs = filter f xs.
Proof.
  induction xs as [|x xs IH]; simpl; [reflexivity|].
  destruct (f x); now rewrite IH.
Qed.

Lemma select_app {A : Type} (m1 m2 : list bool) (x1 x2 : list A) :
  length m1 = length x1 ->
  select (m1 ++ m2) (x1 ++ x2) = select m1 x1 ++ select m2 x2.
Proof.
  revert x1. induction m1 as [|b m1 IH]; intros [|x x1] H; simpl in *;
    try discriminate; [reflexivity|].
  injection H as H. rewrite (IH _ H). now destruct b.
Qed.

Lemma select_repeat {A : Type} (m : list bool) (a : A) :
  select m (repeat a (length m)) = repeat a (length (filter (fun b => b) m)).
Proof.
  induction m as [|b m IH]; simpl; [reflexivity|].
  destruct b; simpl; now rewrite IH.
Qed.

Lemma select_length {A B : Type} (m : list bool) (xs : list A) (ys : list B) :
  length xs = length ys -> length (select m xs) = length (select m ys).
Proof.
  revert xs ys. induction m as [|b m IH]; intros [|x xs] [|y ys] H; simpl in *;
    try discriminate; try reflexivity.
  injection H as H. destruct b; simpl; now rewrite (IH _ _ H).
Qed.

Lemma select_all {A : Type} (m : list bool) (xs : list A) :
  Forall (fun b => b = true) m -> length m = length xs -> select m xs = xs.
Proof.
  intros Hm. revert xs. induction Hm as [|b m Hb Hm IH]; intros [|x xs] H;
    simpl in *; try discriminate; [reflexivity|].
  subst b. injection H as H. now rewrite (IH _ H).
Qed.

(** Selecting twice is selecting with the conjunction of the two tests. *)
Lemma select_select {A : Type} (f g : string -> bool) (cs : list string) (xs : list A) :
  length xs = length cs ->
  select (map g (select (map f cs) cs)) (select (map f cs) xs)
  = select (map (fun c => f c && g c)%bool cs) xs.
Proof.
  revert xs. induction cs as [|c cs IH]; intros [|x xs] H; simpl in *;
    try discriminate; [reflexivity|].
  injection H as H. destruct (f c); simpl.
  - destruct (g c); now rewrite (IH _ H).
  - now apply IH.
Qed.

Lemma ends_with_refl (s : string) : ends_with s s = true.
Proof.
  destruct s as [|a s]; [reflexivity|].
  cbn [ends_with]. now rewrite String.eqb_refl.
Qed.

Lemma ends_with_append (s suf : string) : ends_with suf (String.append s suf) = true.
Proof.
  induction s as [|c s IH]; simpl.
  - apply ends_with_refl.
  - rewrite IH. apply orb_true_r.
Qed.

Lemma regex_y_append (c : string) : regex_y (String.append c "_y") = true.
Proof. unfold regex_y. now rewrite ends_with_append. Qed.

Lemma regex_y_false (c : string) : regex_y c = false -> ends_with "_y" c = false.
Proof. unfold regex_y. intros H. now apply orb_false_iff in H. Qed.

Lemma col_index_In (c : string) (cs : list string) (i : nat) :
  col_index c cs = Some i -> In c cs.
Proof.
  revert i. induction cs as [|c' cs IH]; simpl; intros i H; [discriminate|].
  destruct (String.eqb c c') eqn:E.
  - apply String.eqb_eq in E. now left.
  - destruct (col_index c cs); [|discriminate]. right. eapply IH. reflexivity.
Qed.

Lemma col_indices_In (ks cs : list string) (idx : list nat) :
  col_indices ks cs = Some idx -> forall k, In k ks -> In k cs.
Proof.
  revert idx. induction ks as [|k ks IH]; simpl; intros idx H k0 Hk; [contradiction|].
  destruct (col_index k cs) eqn:E1; [|discriminate].
  destruct (col_indices ks cs) eqn:E2; [|discriminate].
  destruct Hk as [<-|Hk].
  - eapply col_index_In; eassumption.
  - eapply IH; [reflexivity | assumption].
Qed.

Lemma shared_keys_incl (lo ro : list string) : incl (shared_keys lo ro) lo.
Proof.
  unfold shared_keys. intros c Hc. apply in_map_iff in Hc.
  destruct Hc as [[a b] [<- Hp]]. apply filter_In in Hp. destruct Hp as [Hp _].
  eapply in_combine_l; eassumption.
Qed.

(** A successful merge of a left table with rows exposes its key positions
    and its result. *)
Lemma pd_merge_left_inv (L R : DataFrame) (lo ro : list string) (sfx : string)
    (df : DataFrame) :
  rows L <> [] ->
  pd_merge_left L R lo ro sfx = Some df ->
  exists li ri,
    col_indices lo (columns L) = Some li /\
    col_indices ro (columns R) = Some ri /\
    df = mkDF (merge_columns L R lo ro sfx)
              (flat_map (join_row li ri (right_keep lo ro R) R) (rows L)).
Proof.
  unfold pd_merge_left. intros Hne H.
  destruct (_ || _)%bool; [discriminate|].
  destruct (col_indices lo (columns L)) as [li|]; [|discriminate].
  destruct (col_indices ro (columns R)) as [ri|]; [|discriminate].
  destruct (rows L) as [|l ls] eqn:E; [contradiction|].
  injection H as <-. now exists li, ri.
Qed.

(** The merge of a left table without rows has no row. *)
Lemma pd_merge_left_empty (L R : DataFrame) (lo ro : list string) (sfx : string)
    (df : DataFrame) :
  rows L = [] ->
  pd_merge_left L R lo ro sfx = Some df ->
  df = mkDF (merge_columns_empty L R lo ro sfx) [].
Proof.
  unfold pd_merge_left. intros He H.
  destruct (_ || _)%bool; [discriminate|].
  destruct (col_indices lo (columns L)) as [li|]; [|discriminate].
  destruct (col_indices ro (columns R)) as [ri|]; [|discriminate].
  rewrite He in H. now injection H as <-.
Qed.

Lemma merge_empty_rows (L R : DataFrame) (lo : on_arg) (ro : option on_arg)
    (suffix : option string) (out : DataFrame) :
  rows L = [] ->
  LeftMerger_merge L R lo ro suffix = Some out ->
  rows out = [].
Proof.
  intros He Hm. unfold LeftMerger_merge in Hm.
  destruct (pd_merge_left _ _ _ _ _) as [df|] eqn:E; [|discriminate].
  apply (pd_merge_left_empty _ _ _ _ _ _ He) in E. subst df.
  destruct suffix; injection Hm as <-; reflexivity.
Qed.

(** The labels picked by [filter(regex='_y$')] are exactly the matching ones,
    so [drop] removes a column iff its name matches. *)
Lemma drop_mask_regex (cs : list string) :
  map (fun c => negb (mem c (filter regex_y cs))) cs
  = map (fun c => negb (regex_y c)) cs.
Proof.
  apply map_ext_in. intros c Hc. f_equal.
  destruct (regex_y c) eqn:E.
  - apply mem_In, filter_In. now split.
  - apply mem_false. intros Hin. apply filter_In in Hin. destruct Hin. congruence.
Qed.

Lemma drop_columns_regex (df : DataFrame) :
  drop_columns df (filter_regex_y df)
  = mkDF (filter (fun c => negb (regex_y c)) (columns df))
         (map (select (map (fun c => negb (regex_y c)) (columns df))) (rows df)).
Proof.
  unfold drop_columns, filter_regex_y. rewrite drop_mask_regex.
  now rewrite select_map_filter.
Qed.

Lemma select_repeat_len {A B : Type} (m : list bool) (a : A) (xs : list B) :
  select m (repeat a (length xs)) = repeat a (length (select m xs)).
Proof.
  revert xs. induction m as [|b m IH]; intros [|x xs]; simpl; try reflexivity.
  destruct b; simpl; now rewrite IH.
Qed.

(** With unique right keys at most one right row matches a given key. *)
Lemma filter_unique_key {A : Type} (f : A -> list value) (k : list value) (rs : list A) :
  NoDup (map f rs) ->
  filter (fun r => key_eqb k (f r)) rs = [] \/
  exists r, filter (fun r => key_eqb k (f r)) rs = [r].
Proof.
  induction rs as [|r rs IH]; simpl; intros Hnd; [now left|].
  inversion Hnd as [|? ? Hnotin Hnd']; subst.
  destruct (key_eqb k (f r)) eqn:E.
  - right. exists r. f_equal.
    apply key_eqb_eq in E. subst k.
    destruct (filter (fun r0 => key_eqb (f r) (f r0)) rs) as [|r' ms] eqn:F;
      [reflexivity|].
    exfalso. apply Hnotin.
    assert (Hin : In r' (filter (fun r0 => key_eqb (f r) (f r0)) rs))
      by (rewrite F; now left).
    apply filter_In in Hin. destruct Hin as [Hin Hk].
    apply key_eqb_eq in Hk. rewrite Hk. now apply in_map.
  - now apply IH.
Qed.

Lemma filter_nil_iff {A : Type} (p : A -> bool) (xs : list A) :
  filter p xs = [] <-> forall x, In x xs -> p x = false.
Proof.
  induction xs as [|x xs IH]; simpl.
  - split; [intros _ ? [] | reflexivity].
  - destruct (p x) eqn:E.
    + split; [discriminate|]. intros H. specialize (H x (or_introl eq_refl)). congruence.
    + rewrite IH. split.
      * intros H y [<-|Hy]; auto.
      * intros H y Hy. apply H. now right.
Qed.

Lemma join_row_shape (li ri : list nat) (keep : list bool) (R : DataFrame)
    (l : list value) :
  Forall (fun o => exists rp, o = l ++ rp /\ right_part li ri keep R l rp)
         (join_row li ri keep R l).
Proof.
  unfold join_row.
  destruct (filter _ (rows R)) as [|m ms] eqn:F.
  - constructor; [|constructor]. eexists. split; [reflexivity|]. now left.
  - apply Forall_forall. intros o Ho. apply in_map_iff in Ho.
    destruct Ho as [r [<- Hr]]. rewrite <- F in Hr. apply filter_In in Hr.
    destruct Hr as [Hr Hk]. apply key_eqb_eq in Hk.
    exists (select keep r). split; [reflexivity|]. right. now exists r.
Qed.

Lemma join_row_unique (li ri : list nat) (keep : list bool) (R : DataFrame)
    (l : list value) :
  NoDup (map (key_at ri) (rows R)) ->
  exists rp,
    join_row li ri keep R l = [l ++ rp] /\
    right_part li ri keep R l rp /\
    ((forall r, In r (rows R) -> key_at li l <> key_at ri r) ->
     rp = repeat NaN (length (select keep (columns R)))).
Proof.
  intros Hnd. unfold join_row.
  destruct (filter_unique_key (key_at ri) (key_at li l) (rows R) Hnd) as [F|[r F]];
    rewrite F.
  - eexists. split; [reflexivity|]. split; [now left | reflexivity].
  - assert (Hin : In r (filter (fun r0 => key_eqb (key_at li l) (key_at ri r0)) (rows R)))
      by (rewrite F; now left).
    apply filter_In in Hin. destruct Hin as [Hin Hk]. apply key_eqb_eq in Hk.
    exists (select keep r). split; [reflexivity|]. split.
    + right. now exists r.
    + intros Hno. exfalso. exact (Hno r Hin Hk).
Qed.

Lemma right_part_length (li ri : list nat) (lo ro : list string) (R : DataFrame)
    (l rp : list value) :
  wf_frame R ->
  right_part li ri (right_keep lo ro R) R l rp ->
  length rp = length (select (right_keep lo ro R) (columns R)).
Proof.
  intros Hwf [->|[r [Hr [_ ->]]]].
  - apply repeat_length.
  - apply select_length. unfold wf_frame in Hwf. rewrite Forall_forall in Hwf.
    now apply Hwf.
Qed.

(** One output row per left row, in order, when right keys are unique. *)
Lemma flat_map_join_unique (li ri : list nat) (keep : list bool) (R : DataFrame)
    (ls : list (list value)) :
  NoDup (map (key_at ri) (rows R)) ->
  Forall2 (fun l o => exists rp,
             o = l ++ rp /\ right_part li ri keep R l rp /\
             ((forall r, In r (rows R) -> key_at li l <> key_at ri r) ->
              rp = repeat NaN (length (select keep (columns R)))))
          ls (flat_map (join_row li ri keep R) ls).
Proof.
  intros Hnd. induction ls as [|l ls IH]; simpl; [constructor|].
  destruct (join_row_unique li ri keep R l Hnd) as [rp [E [Hs Hn]]].
  rewrite E. simpl. constructor; [|exact IH].
  exists rp. auto.
Qed.

Lemma Forall2_map_r {A B C : Type} (P : A -> C -> Prop) (f : B -> C)
    (xs : list A) (ys : list B) :
  Forall2 (fun x y => P x (f y)) xs ys -> Forall2 P xs (map f ys).
Proof. induction 1; simpl; constructor; auto. Qed.

Lemma Forall2_impl {A B : Type} (P Q : A -> B -> Prop) (xs : list A) (ys : list B) :
  (forall x y, In x xs -> P x y -> Q x y) -> Forall2 P xs ys -> Forall2 Q xs ys.
Proof.
  intros H F. induction F; constructor.
  - apply H; [now left | assumption].
  - apply IHF. intros ? ? ? ?. apply H; [now right | assumption].
Qed.

(** C1 (as amended).  When no two rows of the right table carry the same
    join key, [left.merge] returns one row per left row, in the left
    table's order: output row [i] is left row [i] (less, without a suffix,
    its cells under names matching [_y$]) followed by one cell per appended
    column, and these cells are all missing when no right row has the key
    of the left row.  When the left table has rows, the header is laid out
    in the same way: the left header, then the appended columns. *)
Theorem left_merge_preserves_rows :
  forall (left right : DataFrame) (left_on : on_arg) (right_on : option on_arg)
         (suffix : option string) (out : DataFrame) (li ri : list nat),
    wf_frame left -> wf_frame right ->
    col_indices (on_keys left_on) (columns left) = Some li ->
    col_indices (on_keys (or_on right_on left_on)) (columns right) = Some ri ->
    NoDup (map (key_at ri) (rows right)) ->
    LeftMerger_merge left right left_on right_on suffix = Some out ->
    length (rows out) = length (rows left) /\
    exists appended : list string,
      (rows left <> [] ->
       columns out = surviving suffix (columns left) (columns left) ++ appended) /\
      Forall2 (fun l o =>
                 exists rpart,
                   o = surviving suffix (columns left) l ++ rpart /\
                   length rpart = length appended /\
                   ((forall r, In r (rows right) -> key_at li l <> key_at ri r) ->
                    rpart = repeat NaN (length appended)))
              (rows left) (rows out).
Proof.
  intros L R lo ro suffix out li ri HwfL HwfR Hli Hri Hnd Hm.
  destruct (rows L) as [|l0 ls0] eqn:Hrows.
  { rewrite (merge_empty_rows L R lo ro suffix out Hrows Hm).
    split; [reflexivity|]. exists []. split; [intros H; now contradiction H|].
    constructor. }
  assert (Hne : rows L <> []) by (rewrite Hrows; discriminate).
  rewrite <- Hrows. clear l0 ls0 Hrows.
  unfold LeftMerger_merge in Hm.
  destruct (pd_merge_left _ _ _ _ _) as [df|] eqn:E; [|discriminate].
  apply (pd_merge_left_inv _ _ _ _ _ _ Hne) in E.
  destruct E as [li' [ri' [Hli' [Hri' ->]]]].
  rewrite Hli in Hli'. rewrite Hri in Hri'.
  injection Hli' as <-. injection Hri' as <-.
  set (keys_l := on_keys lo) in *. set (keys_r := on_keys (or_on ro lo)) in *.
  set (keep := right_keep keys_l keys_r R) in *.
  pose proof (flat_map_join_unique li ri keep R (rows L) Hnd) as HF.
  assert (Hgoal :
    exists appended : list string,
      (rows L <> [] ->
       columns out = surviving suffix (columns L) (columns L) ++ appended) /\
      Forall2 (fun l o =>
                 exists rpart,
                   o = surviving suffix (columns L) l ++ rpart /\
                   length rpart = length appended /\
                   ((forall r, In r (rows R) -> key_at li l <> key_at ri r) ->
                    rpart = repeat NaN (length appended)))
              (rows L) (rows out)).
  { destruct suffix as [s|].
    - injection Hm as <-. simpl. unfold merge_columns. fold keys_l keys_r keep.
      eexists. split; [intros _; reflexivity|].
      eapply Forall2_impl; [|exact HF].
      intros l o Hl [rp [-> [Hs Hn]]].
      exists rp. split; [reflexivity|].
      rewrite length_map.
      pose proof (right_part_length li ri keys_l keys_r R l rp HwfR Hs) as Hlen.
      fold keep in Hlen. split; [exact Hlen|].
      intros Hno. now apply Hn.
    - injection Hm as <-. rewrite drop_columns_regex. simpl.
      unfold merge_columns. fold keys_l keys_r keep.
      set (rcols := select keep (columns R)) in *.
      set (renamed := map _ rcols).
      rewrite filter_app. rewrite <- (select_map_filter _ (columns L)).
      exists (filter (fun c => negb (regex_y c)) renamed).
      split; [intros _; reflexivity|].
      apply Forall2_map_r.
      eapply Forall2_impl; [|exact HF].
      intros l o Hl [rp [-> [Hs Hn]]].
      pose proof (right_part_length li ri keys_l keys_r R l rp HwfR Hs) as Hlen.
      fold keep rcols in Hlen.
      assert (Hll : length l = length (columns L)).
      { unfold wf_frame in HwfL. rewrite Forall_forall in HwfL. now apply HwfL. }
      rewrite map_app, select_app by (now rewrite length_map).
      exists (select (map (fun c => negb (regex_y c)) renamed) rp).
      split; [reflexivity|].
      rewrite <- (select_map_filter _ renamed).
      split.
      + apply select_length. unfold renamed. now rewrite length_map.
      + intros Hno. rewrite (Hn Hno). fold rcols.
        replace (length rcols) with (length renamed)
          by (unfold renamed; now rewrite length_map).
        apply select_repeat_len. }
  split; [|exact Hgoal].
  destruct Hgoal as [appended [_ HF2]]. symmetry. eapply Forall2_length. exact HF2.
Qed.

Lemma left_merge_preserves_rows_witness :
  exists out,
    LeftMerger_merge ex_left ex_right (OnStr "k") None None = Some out /\
    length (rows out) = length (rows ex_left).
Proof.
  eexists. split; [reflexivity|].
  refine (proj1 (left_merge_preserves_rows ex_left ex_right (OnStr "k") None None
                   _ [0%nat] [0%nat] _ _ eq_refl eq_refl _ eq_refl)).
  - repeat constructor.
  - repeat constructor.
  - simpl. constructor; [intros []|constructor].
Defined.

(** C1 as stated fails: a right table with two rows for one key makes the
    left row appear twice. *)
Lemma left_merge_duplicates_rows :
  length (rows ex_plain_left) = 2%nat /\
  option_map (fun out => length (rows out))
    (LeftMerger_merge ex_plain_left ex_right_dup (OnStr "k") None None) = Some 3%nat.
Proof. split; reflexivity. Qed.

(** C10.  Without a suffix the result is the merged table (right-hand
    collisions renamed with [_y]) minus every column whose name matches
    [_y$]; so no result column ends in [_y], and a column of either input
    whose own name ends in [_y] is not in the result. *)
Theorem left_merge_drops_every_y_column :
  forall (left right : DataFrame) (left_on : on_arg) (right_on : option on_arg)
         (out : DataFrame),
    LeftMerger_merge left right left_on right_on None = Some out ->
    (exists merged,
        pd_merge_left left right (on_keys left_on)
          (on_keys (or_on right_on left_on)) "_y" = Some merged /\
        columns out = filter (fun c => negb (regex_y c)) (columns merged)) /\
    (forall c, In c (columns out) -> ends_with "_y" c = false) /\
    (forall c, In c (columns left) \/ In c (columns right) ->
               ends_with "_y" c = true -> ~ In c (columns out)).
Proof.
  intros L R lo ro out Hm. unfold LeftMerger_merge in Hm. simpl or_suffix in Hm.
  destruct (pd_merge_left _ _ _ _ _) as [df|] eqn:E; [|discriminate].
  injection Hm as <-. rewrite drop_columns_regex. simpl.
  assert (Hno : forall c, In c (filter (fun c => negb (regex_y c)) (columns df)) ->
                          ends_with "_y" c = false).
  { intros c Hc. apply filter_In in Hc. destruct Hc as [_ Hc].
    apply regex_y_false. now destruct (regex_y c). }
  split; [|split].
  - now exists df.
  - exact Hno.
  - intros c _ Hy Hin. apply Hno in Hin. congruence.
Qed.

Lemma left_merge_drops_every_y_column_witness :
  option_map columns (LeftMerger_merge ex_left ex_right (OnStr "k") None None)
    = Some ["k"; "x"; "b"] /\
  ~ In "a_y" ["k"; "x"; "b"].
Proof.
  split; [reflexivity|].
  destruct (left_merge_drops_every_y_column ex_left ex_right (OnStr "k") None
              (mkDF ["k"; "x"; "b"] [[VInt 1; VInt 7; VStr "u"]; [VInt 2; VInt 8; NaN]])
              eq_refl) as [_ [_ H]].
  apply H; [left; simpl; tauto | reflexivity].
Defined.

(** C2 as stated fails: a left column that collides with nothing but is
    called [a_y] does not survive a suffix-less merge. *)
Lemma left_merge_drops_noncolliding_column :
  In "a_y" (columns ex_left) /\ ~ In "a_y" (columns ex_right) /\
  exists out,
    LeftMerger_merge ex_left ex_right (OnStr "k") None None = Some out /\
    ~ In "a_y" (columns out).
Proof.
  split; [simpl; tauto|]. split.
  - simpl. intros [H|[H|[H|[]]]]; discriminate.
  - eexists. split; [reflexivity|]. simpl.
    intros [H|[H|[H|[]]]]; discriminate.
Qed.

Lemma merged_rows_shape (li ri : list nat) (keep : list bool) (R : DataFrame)
    (ls : list (list value)) :
  Forall (fun o => exists l rp, In l ls /\ o = l ++ rp /\ right_part li ri keep R l rp)
         (flat_map (join_row li ri keep R) ls).
Proof.
  apply Forall_forall. intros o Ho. apply in_flat_map in Ho.
  destruct Ho as [l [Hl Ho]].
  pose proof (join_row_shape li ri keep R l) as HF.
  rewrite Forall_forall in HF. destruct (HF o Ho) as [rp [-> Hs]].
  now exists l, rp.
Qed.

Lemma filter_all {A : Type} (p : A -> bool) (xs : list A) :
  (forall x, In x xs -> p x = true) -> filter p xs = xs.
Proof.
  induction xs as [|x xs IH]; simpl; intros H; [reflexivity|].
  rewrite (H x (or_introl eq_refl)). f_equal. apply IH. intros y Hy. apply H. now right.
Qed.

Lemma filter_filter {A : Type} (p q : A -> bool) (xs : list A) :
  filter q (filter p xs) = filter (fun x => p x && q x)%bool xs.
Proof.
  induction xs as [|x xs IH]; simpl; [reflexivity|].
  destruct (p x); simpl; [destruct (q x)|]; now rewrite IH.
Qed.

Lemma filter_map_comm {A B : Type} (f : A -> B) (p : B -> bool) (xs : list A) :
  filter p (map f xs) = map f (filter (fun x => p (f x)) xs).
Proof.
  induction xs as [|x xs IH]; simpl; [reflexivity|].
  destruct (p (f x)); simpl; now rewrite IH.
Qed.

(** The policy of the suffix-less merge on the contributed right columns:
    when no input name matches [_y$], the renamed columns are exactly the
    ones that are dropped, and the others keep their name. *)
Section DropOnCollision.
Variables (lcols rcols : list string).
Hypothesis rcols_plain : forall c, In c rcols -> regex_y c = false.

Lemma renamed_matches (c : string) :
  In c rcols -> negb (regex_y (add_rsuffix lcols rcols "_y" c)) = negb (mem c lcols).
Proof.
  intros Hc. unfold add_rsuffix.
  assert (Hmem : mem c rcols = true) by now apply mem_In.
  rewrite Hmem, andb_true_r.
  destruct (mem c lcols) eqn:EL.
  - now rewrite regex_y_append.
  - now rewrite (rcols_plain c Hc).
Qed.

Lemma drop_renamed_mask :
  map (fun c => negb (regex_y c)) (map (add_rsuffix lcols rcols "_y") rcols)
  = map (fun c => negb (mem c lcols)) rcols.
Proof.
  rewrite map_map. apply map_ext_in. intros c Hc. now apply renamed_matches.
Qed.

Lemma drop_renamed :
  filter (fun c => negb (regex_y c)) (map (add_rsuffix lcols rcols "_y") rcols)
  = filter (fun c => negb (mem c lcols)) rcols.
Proof.
  rewrite filter_map_comm.
  rewrite (filter_ext_in _ (fun c => negb (mem c lcols)))
    by (intros c Hc; now apply renamed_matches).
  rewrite <- (map_id (filter _ rcols)) at 2.
  apply map_ext_in. intros c Hc. apply filter_In in Hc. destruct Hc as [Hc Hn].
  unfold add_rsuffix. apply negb_true_iff in Hn. now rewrite Hn.
Qed.
End DropOnCollision.

(** C2 (as amended).  On a left table that has rows, and provided no column
    name of either table matches [_y$], a suffix-less [left.merge] returns
    the left columns followed by exactly the right columns whose name is not
    a left column name, all under their own names.  With a non-empty suffix
    it returns the left columns followed by every right column other than a
    join key shared by name, a colliding one renamed with the suffix.
    Either way each output row starts with an unchanged left row, followed
    by missing values or by the cells a right row has in the appended
    columns.  (On a left table without rows a key shared by name is taken
    from the right table instead, and stands among the right columns.) *)
Theorem left_merge_collision_policy :
  forall (left right : DataFrame) (left_on : on_arg) (right_on : option on_arg)
         (suffix : option string) (out : DataFrame),
    wf_frame left -> wf_frame right ->
    rows left <> [] ->
    suffix <> Some EmptyString ->
    (suffix = None ->
     forall c, In c (columns left) \/ In c (columns right) -> regex_y c = false) ->
    LeftMerger_merge left right left_on right_on suffix = Some out ->
    let shared := shared_keys (on_keys left_on) (on_keys (or_on right_on left_on)) in
    let appended := fun c =>
      match suffix with
      | None => negb (mem c (columns left))
      | Some _ => negb (mem c shared)
      end in
    columns out =
      columns left ++
      map (fun c => match suffix with
                    | Some s => if mem c (columns left) then String.append c s else c
                    | None => c
                    end)
          (filter appended (columns right)) /\
    Forall (fun o =>
              exists l rp,
                In l (rows left) /\ o = l ++ rp /\
                (rp = repeat NaN (length (filter appended (columns right))) \/
                 exists r, In r (rows right) /\
                           rp = select (map appended (columns right)) r))
           (rows out).
Proof.
  intros L R lo ro suffix out HwfL HwfR Hrows Hne Hnoy Hm shared appended.
  unfold LeftMerger_merge in Hm.
  destruct (pd_merge_left _ _ _ _ _) as [df|] eqn:E; [|discriminate].
  apply (pd_merge_left_inv _ _ _ _ _ _ Hrows) in E.
  destruct E as [li [ri [Hli [Hri ->]]]].
  set (keys_l := on_keys lo) in *. set (keys_r := on_keys (or_on ro lo)) in *.
  fold shared in appended.
  set (keep := right_keep keys_l keys_r R) in *.
  pose proof (merged_rows_shape li ri keep R (rows L)) as HS.
  assert (Hrcols : select keep (columns R)
                   = filter (fun c => negb (mem c shared)) (columns R)).
  { unfold keep, right_keep. fold shared. apply select_map_filter. }
  destruct suffix as [s|].
  - (* a suffix is given *)
    assert (Hs : or_suffix (Some s) = s).
    { simpl. destruct (String.eqb s EmptyString) eqn:Es; [|reflexivity].
      apply String.eqb_eq in Es. subst s. now contradiction Hne. }
    rewrite Hs in Hm. injection Hm as <-. cbn [columns rows].
    unfold merge_columns. fold keys_l keys_r keep.
    rewrite Hrcols. split.
    + f_equal. apply map_ext_in. intros c Hc. unfold add_rsuffix.
      assert (Hmem : mem c (filter (fun c0 => negb (mem c0 shared)) (columns R)) = true)
        by now apply mem_In.
      rewrite Hmem. now rewrite andb_true_r.
    + eapply Forall_impl; [|exact HS].
      intros o [l [rp [Hl [-> Hp]]]]. exists l, rp. split; [exact Hl|].
      split; [reflexivity|].
      destruct Hp as [->|[r [Hr [_ ->]]]].
      * left. now rewrite Hrcols.
      * right. exists r. split; [exact Hr|]. reflexivity.
  - (* no suffix: collisions are renamed with _y, then dropped *)
    injection Hm as <-. rewrite drop_columns_regex. cbn [columns rows or_suffix].
    unfold merge_columns. fold keys_l keys_r keep.
    specialize (Hnoy eq_refl).
    set (rcols := select keep (columns R)) in *.
    assert (Hplain : forall c, In c rcols -> regex_y c = false).
    { intros c Hc. apply Hnoy. right. rewrite Hrcols in Hc.
      apply filter_In in Hc. tauto. }
    assert (Hsub : forall c, In c shared -> In c (columns L)).
    { intros c Hc. apply (col_indices_In _ _ _ Hli).
      now apply (shared_keys_incl keys_l keys_r). }
    assert (Hboth : forall c, (negb (mem c shared) && negb (mem c (columns L)))%bool
                              = negb (mem c (columns L))).
    { intros c. destruct (mem c (columns L)) eqn:EL; [apply andb_false_r|].
      rewrite andb_true_r. apply mem_false in EL.
      destruct (mem c shared) eqn:ES; [|reflexivity].
      apply mem_In in ES. exfalso. auto. }
    assert (Happ : filter (fun c => negb (mem c (columns L))) rcols
                   = filter appended (columns R)).
    { rewrite Hrcols, filter_filter. apply filter_ext. exact Hboth. }
    assert (HmaskL : Forall (fun b => b = true)
                            (map (fun c => negb (regex_y c)) (columns L))).
    { apply Forall_forall. intros b Hb. apply in_map_iff in Hb.
      destruct Hb as [c [<- Hc]]. rewrite (Hnoy c); auto. }
    split.
    + rewrite filter_app, map_id. f_equal.
      * apply filter_all. intros c Hc. rewrite (Hnoy c); auto.
      * rewrite (drop_renamed (columns L) rcols Hplain). exact Happ.
    + apply Forall_forall. intros o Ho. apply in_map_iff in Ho.
      destruct Ho as [o' [<- Ho']].
      rewrite Forall_forall in HS. destruct (HS o' Ho') as [l [rp [Hl [-> Hp]]]].
      assert (Hll : length l = length (columns L)).
      { unfold wf_frame in HwfL. rewrite Forall_forall in HwfL. now apply HwfL. }
      rewrite map_app, select_app by (now rewrite length_map).
      rewrite (select_all _ l HmaskL) by (now rewrite length_map).
      rewrite (drop_renamed_mask (columns L) rcols Hplain).
      exists l. eexists. split; [exact Hl|]. split; [reflexivity|].
      destruct Hp as [->|[r [Hr [_ ->]]]].
      * left. fold rcols. rewrite select_repeat_len.
        now rewrite select_map_filter, Happ.
      * right. exists r. split; [exact Hr|].
        unfold rcols, keep, right_keep. fold shared.
        rewrite select_select.
        -- f_equal. apply map_ext. exact Hboth.
        -- unfold wf_frame in HwfR. rewrite Forall_forall in HwfR. now apply HwfR.
Qed.

Lemma left_merge_collision_policy_witness :
  (exists out,
      LeftMerger_merge ex_plain_left ex_right (OnStr "k") None None = Some out /\
      columns out = ["k"; "x"; "b"]) /\
  (exists out,
      LeftMerger_merge ex_plain_left ex_right (OnStr "k") None (Some "_DE") = Some out /\
      columns out = ["k"; "x"; "x_DE"; "b"]).
Proof.
  split.
  - eexists. split; [reflexivity|].
    refine (proj1 (left_merge_collision_policy ex_plain_left ex_right (OnStr "k") None
                     None _ _ _ _ _ _ eq_refl)).
    + repeat constructor.
    + repeat constructor.
    + discriminate.
    + discriminate.
    + intros _ c Hc. simpl in Hc.
      destruct Hc as [[<-|[<-|[]]]|[<-|[<-|[<-|[]]]]]; reflexivity.
  - eexists. split; [reflexivity|].
    refine (proj1 (left_merge_collision_policy ex_plain_left ex_right (OnStr "k") None
                     (Some "_DE") _ _ _ _ _ _ eq_refl)).
    + repeat constructor.
    + repeat constructor.
    + discriminate.
    + discriminate.
    + discriminate.
Defined.

(* ================================================================== *)
(** ** Proofs, part II: date-derived features                          *)
(* ================================================================== *)

Lemma int32_range (z : Z) : - 2 ^ 31 <= int32 z < 2 ^ 31.
Proof.
  unfold int32, wrap. change (32 - 1) with 31.
  Z.div_mod_to_equations. lia.
Qed.

Lemma int64_id (z : Z) : - 2 ^ 63 <= z < 2 ^ 63 -> int64 z = z.
Proof.
  unfold int64, wrap. change (64 - 1) with 63. intros H.
  Z.div_mod_to_equations. lia.
Qed.

Lemma valid_day_bound (d : Z) :
  valid_day d = true -> - 2 ^ 63 < d * day_ns < 2 ^ 63.
Proof.
  unfold valid_day, iNaT. intros H. apply andb_true_iff in H.
  destruct H as [H1 H2]. apply Z.ltb_lt in H1, H2. lia.
Qed.

Lemma int32_id (z : Z) : - 2 ^ 31 <= z < 2 ^ 31 -> int32 z = z.
Proof.
  unfold int32, wrap. change (32 - 1) with 31. intros H.
  Z.div_mod_to_equations. lia.
Qed.

Lemma astype_int32_range (z : Z) : - 2 ^ 31 <= astype_int32 z < 2 ^ 31.
Proof.
  unfold astype_int32.
  destruct (Z.leb_spec (- 2 ^ 31) z), (Z.ltb_spec z (2 ^ 31)); cbn [andb]; lia.
Qed.

Lemma astype_int32_id (z : Z) : - 2 ^ 31 <= z < 2 ^ 31 -> astype_int32 z = z.
Proof.
  intros H. unfold astype_int32.
  destruct (Z.leb_spec (- 2 ^ 31) z), (Z.ltb_spec z (2 ^ 31)); cbn [andb]; lia.
Qed.

(** Whatever [to_datetime] returns is a timestamp in range. *)
Lemma to_datetime_ymd_valid (y m d t : Z) :
  to_datetime_ymd y m d = Some t -> valid_day t = true.
Proof.
  unfold to_datetime_ymd, strptime_Ymd. intros H.
  destruct (_ <? 0); [discriminate|].
  destruct (digits _) as [|y1 [|y2 [|y3 [|y4 s]]]]; try discriminate.
  destruct (re_md s) as [[[m' d'] [|? ?]]|]; try discriminate.
  cbv zeta in H. destruct (d' <=? _); cbn [andb] in H; [|discriminate].
  destruct (valid_day _) eqn:E; [|discriminate]. now injection H as <-.
Qed.

Lemma to_datetime_year_valid (y t : Z) :
  to_datetime_year y = Some t ->
  t = days_from_civil y 1 1 /\ valid_day t = true /\ 1000 <= y <= 9999.
Proof.
  unfold to_datetime_year. intros H.
  destruct (Z.leb_spec 1000 y); cbn [andb] in H; [|discriminate].
  destruct (Z.leb_spec y 9999); cbn [andb] in H; [|discriminate].
  destruct (valid_day _) eqn:E; [|discriminate]. injection H as <-.
  repeat split; try assumption; lia.
Qed.

(** The digits of a number, one decimal place at a time. *)
Lemma digits_rev_cons (f : nat) (n r : Z) :
  0 <= r < 10 -> 1 <= n -> digits_rev (S f) (10 * n + r) = r :: digits_rev f n.
Proof.
  intros Hr Hn. cbn [digits_rev].
  destruct (Z.ltb_spec (10 * n + r) 10); [lia|].
  f_equal.
  - Z.div_mod_to_equations. lia.
  - f_equal. Z.div_mod_to_equations. lia.
Qed.

Lemma digits_rev_one (f : nat) (n : Z) :
  0 <= n < 10 -> digits_rev (S f) n = [n].
Proof.
  intros Hn. cbn [digits_rev]. destruct (Z.ltb_spec n 10); [reflexivity|lia].
Qed.

(** The text of [year * 10000 + month * 100 + day] for a year of four
    digits and a month and a day of at most two: the digits of the year,
    then two for the month and two for the day. *)
Lemma digits_ymd (y m d : Z) :
  1000 <= y <= 9999 -> 0 <= m <= 99 -> 0 <= d <= 99 ->
  digits (y * 10000 + m * 100 + d)
  = [y / 1000; y / 100 mod 10; y / 10 mod 10; y mod 10;
     m / 10; m mod 10; d / 10; d mod 10].
Proof.
  intros Hy Hm Hd.
  set (a := y / 1000). set (b := y / 100 mod 10). set (c := y / 10 mod 10).
  set (e := y mod 10). set (p := m / 10). set (q := m mod 10).
  set (d1 := d / 10). set (d2 := d mod 10).
  assert (Ha : 1 <= a <= 9) by (unfold a; Z.div_mod_to_equations; lia).
  assert (Hb : 0 <= b < 10) by (unfold b; Z.div_mod_to_equations; lia).
  assert (Hc : 0 <= c < 10) by (unfold c; Z.div_mod_to_equations; lia).
  assert (He : 0 <= e < 10) by (unfold e; Z.div_mod_to_equations; lia).
  assert (Hp : 0 <= p < 10) by (unfold p; Z.div_mod_to_equations; lia).
  assert (Hq : 0 <= q < 10) by (unfold q; Z.div_mod_to_equations; lia).
  assert (Hd1 : 0 <= d1 < 10) by (unfold d1; Z.div_mod_to_equations; lia).
  assert (Hd2 : 0 <= d2 < 10) by (unfold d2; Z.div_mod_to_equations; lia).
  assert (E : y * 10000 + m * 100 + d
              = 10 * (10 * (10 * (10 * (10 * (10 * (10 * a + b) + c) + e) + p) + q) + d1)
                + d2).
  { unfold a, b, c, e, p, q, d1, d2. Z.div_mod_to_equations. lia. }
  rewrite E. unfold digits.
  do 7 (rewrite digits_rev_cons by lia).
  rewrite digits_rev_one by lia. reflexivity.
Qed.

(** On a year of four digits and a month from 1 to 12 the assembled number
    spells the date, and [to_datetime] returns day 15 of that month when it
    is in the range of timestamps. *)
Lemma to_datetime_ymd_civil (y m : Z) :
  1000 <= y <= 9999 -> 1 <= m <= 12 ->
  to_datetime_ymd y m 15
  = if valid_day (days_from_civil y m 15) then Some (days_from_civil y m 15)
    else None.
Proof.
  intros Hy Hm. unfold to_datetime_ymd.
  rewrite int64_id by lia. unfold strptime_Ymd.
  destruct (Z.ltb_spec (y * 10000 + m * 100 + 15) 0); [lia|].
  rewrite digits_ymd by lia.
  assert (Ey : 1000 * (y / 1000) + 100 * (y / 100 mod 10) + 10 * (y / 10 mod 10)
               + y mod 10 = y) by (Z.div_mod_to_equations; lia).
  assert (Hc : m = 1 \/ m = 2 \/ m = 3 \/ m = 4 \/ m = 5 \/ m = 6 \/ m = 7 \/
               m = 8 \/ m = 9 \/ m = 10 \/ m = 11 \/ m = 12) by lia.
  repeat (destruct Hc as [->|Hc]); try subst m;
    cbn [re_md re_m re_d Z.div Z.modulo Z.eqb Z.leb andb app flat_map map fst snd
         hd_error]; cbv zeta; rewrite Ey;
    unfold days_in_month; cbn [Z.eqb orb];
    try (destruct (is_leap y)); reflexivity.
Qed.

(** The difference of two midnights is a whole number of days and is never
    the [NaT] pattern. *)
Lemma subtract_days_midnights (a b : Z) (o : option Z) :
  subtract_days (Some (a * day_ns)) (Some (b * day_ns)) = Some o ->
  o = Some (a - b).
Proof.
  unfold subtract_days. intros H.
  destruct (in_int64 _); [|discriminate]. injection H as <-.
  replace (a * day_ns - b * day_ns) with ((a - b) * day_ns) by ring.
  destruct (_ =? iNaT) eqn:E.
  - apply Z.eqb_eq in E. unfold iNaT, day_ns in E. exfalso. lia.
  - rewrite Z.div_mul; [reflexivity|]. unfold day_ns. lia.
Qed.

(** A count of seconds that stays within a century or so of the epoch never
    becomes [NaT] when scaled to int64 nanoseconds, and a midnight minus such
    a timestamp is never the [NaT] pattern either. *)
Lemma scaled_seconds_not_NaT (dt : Z) :
  - 2 ^ 54 < dt < 2 ^ 54 -> int64 (dt * 10 ^ 9) <> iNaT.
Proof.
  unfold int64, wrap, iNaT. change (64 - 1) with 63. intros H E.
  Z.div_mod_to_equations. lia.
Qed.

Lemma midnight_minus_scaled_not_NaT (d dt : Z) :
  - 2 ^ 63 < d * day_ns < 2 ^ 63 -> - 2 ^ 40 < dt < 2 ^ 40 ->
  d * day_ns - int64 (dt * 10 ^ 9) <> iNaT.
Proof.
  unfold int64, wrap, iNaT, day_ns. change (64 - 1) with 63. intros Hd H E.
  Z.div_mod_to_equations. lia.
Qed.

(** The seconds count [dt] of cell 18. *)
Lemma promo2_seconds_bound (jan1 w : Z) :
  valid_day jan1 = true ->
  let dt := int64 (jan1 * day_ns / 10 ^ 9 + int32 (7 * 24 * 3600 * w)) in
  - 2 ^ 40 < dt < 2 ^ 40.
Proof.
  intros Hv. apply valid_day_bound in Hv.
  pose proof (int32_range (7 * 24 * 3600 * w)) as H32.
  set (x := int32 _) in *. cbv zeta.
  assert (Hb : - 2 ^ 39 < jan1 * day_ns / 10 ^ 9 + x < 2 ^ 39).
  { unfold day_ns in *. Z.div_mod_to_equations. lia. }
  rewrite int64_id; lia.
Qed.

(** What cells 14 to 19 leave in a row, column by column. *)
Lemma date_features_spec (r : Joined) (out : Row) :
  date_features r = Some out ->
  let cosy := astype_int32 (fillna 1900 (raw_CompetitionOpenSinceYear r)) in
  let cosm := astype_int32 (fillna 1 (raw_CompetitionOpenSinceMonth r)) in
  let p2sy := astype_int32 (fillna 1900 (raw_Promo2SinceYear r)) in
  let p2sw := astype_int32 (fillna 1 (raw_Promo2SinceWeek r)) in
  exists cos p2s,
    to_datetime_ymd cosy cosm 15 = Some cos /\
    Date out = j_Date r /\
    CompetitionOpenSinceYear out = cosy /\
    CompetitionOpenSinceMonth out = cosm /\
    Promo2SinceYear out = p2sy /\
    Promo2SinceWeek out = p2sw /\
    CompetitionOpenSince out = cos /\
    CompetitionDaysOpen out =
      Some (if cosy <? 1990 then 0
            else if j_Date r - cos <? 0 then 0 else j_Date r - cos) /\
    CompetitionMonthsOpen out =
      option_map (fun d => if 24 <? d / 30 then 24 else d / 30)
                 (CompetitionDaysOpen out) /\
    Promo2Since out = Some p2s /\
    Promo2Days out =
      Some (let d := (j_Date r * day_ns - p2s) / day_ns in
            if p2sy <? 1990 then 0 else if d <? 0 then 0 else d) /\
    Promo2Weeks out =
      option_map (fun d => let w := d / 7 in
                           let w := if w <? 0 then 0 else w in
                           if 25 <? w then 25 else w)
                 (Promo2Days out).
Proof.
  unfold date_features. intros H.
  destruct (valid_day (j_Date r)) eqn:Hd; simpl negb in H; cbv iota in H; [|discriminate].
  set (cosy := astype_int32 (fillna 1900 (raw_CompetitionOpenSinceYear r))) in *.
  set (cosm := astype_int32 (fillna 1 (raw_CompetitionOpenSinceMonth r))) in *.
  set (p2sy := astype_int32 (fillna 1900 (raw_Promo2SinceYear r))) in *.
  set (p2sw := astype_int32 (fillna 1 (raw_Promo2SinceWeek r))) in *.
  cbv zeta in H.
  destruct (to_datetime_ymd cosy cosm 15) as [cos|] eqn:Hcos; [|discriminate].
  destruct (subtract_days (Some (j_Date r * day_ns)) (Some (cos * day_ns)))
    as [cdo0|] eqn:Hcdo; [|discriminate].
  apply subtract_days_midnights in Hcdo. subst cdo0.
  destruct (to_datetime_year p2sy) as [jan1|] eqn:Hjan; [|discriminate].
  apply to_datetime_year_valid in Hjan. destruct Hjan as [_ [Hjv _]].
  pose proof (promo2_seconds_bound jan1 p2sw Hjv) as Hdt. cbv zeta in Hdt.
  set (dt := int64 (jan1 * day_ns / 10 ^ 9 + int32 (7 * 24 * 3600 * p2sw))) in *.
  assert (Hns : to_datetime_ns (int64 (dt * 10 ^ 9)) = Some (int64 (dt * 10 ^ 9))).
  { unfold to_datetime_ns. destruct (_ =? iNaT) eqn:E; [|reflexivity].
    apply Z.eqb_eq in E. apply scaled_seconds_not_NaT in E; [contradiction|lia]. }
  rewrite Hns in H.
  set (p2s := int64 (dt * 10 ^ 9)) in *.
  unfold subtract_days in H.
  destruct (in_int64 (j_Date r * day_ns - p2s)); [|discriminate].
  assert (Hnat : (j_Date r * day_ns - p2s =? iNaT) = false).
  { apply Z.eqb_neq. apply midnight_minus_scaled_not_NaT; [|exact Hdt].
    now apply valid_day_bound. }
  rewrite Hnat in H. injection H as <-. cbn [Date CompetitionOpenSinceYear
    CompetitionOpenSinceMonth Promo2SinceYear Promo2SinceWeek CompetitionOpenSince
    CompetitionDaysOpen CompetitionMonthsOpen Promo2Since Promo2Days Promo2Weeks].
  exists cos, p2s. cbv zeta.
  repeat (split; [reflexivity|]).
  unfold loc_set, lt_const, gt_const, floordiv.
  split; [|split; [|split; [reflexivity|split]]]; cbv zeta;
    repeat match goal with
           | |- context [?a <? ?b] => destruct (a <? b); cbn [option_map]
           end; reflexivity.
Qed.

Lemma date_feature_stage_In (df : list Joined) (out : list Row) (r : Row) :
  date_feature_stage df = Some out -> In r out ->
  exists j, In j df /\ date_features j = Some r.
Proof.
  revert out. induction df as [|j df IH]; simpl; intros out H Hin.
  - injection H as <-. contradiction.
  - destruct (date_features j) as [r'|] eqn:Ej; [|discriminate].
    destruct (date_feature_stage df) as [out'|]; [|discriminate].
    injection H as <-. destruct Hin as [<-|Hin].
    + exists j. auto.
    + destruct (IH out' eq_refl Hin) as [j' [Hj' Hr]]. exists j'. auto.
Qed.

(** The stage keeps one output row per input row, in order. *)
Lemma date_feature_stage_rows (df : list Joined) (out : list Row) :
  date_feature_stage df = Some out ->
  Forall2 (fun j r => date_features j = Some r) df out.
Proof.
  revert out. induction df as [|j df IH]; simpl; intros out H.
  - injection H as <-. constructor.
  - destruct (date_features j) as [r'|] eqn:Ej; [|discriminate].
    destruct (date_feature_stage df) as [out'|]; [|discriminate].
    injection H as <-. constructor; auto.
Qed.

(** Example rows: a store with a known competitor and no second promotion,
    and a store with both. *)
Lemma example_rows_pass :
  date_feature_stage [ex_joined_1] <> None /\ date_feature_stage [ex_joined_2] <> None.
Proof. split; vm_compute; discriminate. Qed.

(** Bounds that keep every date of the years 1900 to 2100 within range. *)
Lemma days_before_month_bound (y m : Z) :
  1 <= m <= 12 -> 0 <= days_before_month y m <= 335.
Proof.
  intros H.
  assert (Hm : m = 1 \/ m = 2 \/ m = 3 \/ m = 4 \/ m = 5 \/ m = 6 \/ m = 7 \/
               m = 8 \/ m = 9 \/ m = 10 \/ m = 11 \/ m = 12) by lia.
  repeat (destruct Hm as [->|Hm]); try subst m;
    unfold days_before_month, days_in_month;
    generalize (is_leap y); intros [|]; vm_compute; split; discriminate.
Qed.

Lemma days_from_civil_bound (y m d : Z) :
  1900 <= y <= 2100 -> 1 <= m <= 12 -> 1 <= d <= 31 ->
  -25567 <= days_from_civil y m d <= 47847.
Proof.
  intros Hy Hm Hd. pose proof (days_before_month_bound y m Hm) as Hb.
  unfold days_from_civil.
  change (days_before_year 1970) with 719162.
  unfold days_before_year. Z.div_mod_to_equations. lia.
Qed.

(** On data of the years 1900 to 2100 with months 1 to 12 and weeks 0 to 53
    (missing values included) cells 14 to 19 raise no exception. *)
Lemma date_features_defined (r : Joined) :
  days_from_civil 1900 1 1 <= j_Date r <= days_from_civil 2100 12 31 ->
  1900 <= fillna 1900 (raw_CompetitionOpenSinceYear r) <= 2100 ->
  1 <= fillna 1 (raw_CompetitionOpenSinceMonth r) <= 12 ->
  1900 <= fillna 1900 (raw_Promo2SinceYear r) <= 2100 ->
  0 <= fillna 1 (raw_Promo2SinceWeek r) <= 53 ->
  exists out, date_features r = Some out.
Proof.
  intros Hd Hy Hm Hpy Hpw.
  change (days_from_civil 1900 1 1) with (-25567) in Hd.
  change (days_from_civil 2100 12 31) with 47846 in Hd.
  unfold date_features.
  set (y := fillna 1900 (raw_CompetitionOpenSinceYear r)) in *.
  set (m := fillna 1 (raw_CompetitionOpenSinceMonth r)) in *.
  set (py := fillna 1900 (raw_Promo2SinceYear r)) in *.
  set (pw := fillna 1 (raw_Promo2SinceWeek r)) in *.
  rewrite (astype_int32_id y), (astype_int32_id m), (astype_int32_id py),
    (astype_int32_id pw) by lia.
  rewrite (int32_id (7 * 24 * 3600 * pw)) by lia.
  assert (Hvd : valid_day (j_Date r) = true).
  { unfold valid_day, iNaT, day_ns. apply andb_true_iff. split; apply Z.ltb_lt; lia. }
  rewrite Hvd. cbn [negb].
  pose proof (days_from_civil_bound y m 15 Hy Hm ltac:(lia)) as Hc.
  assert (Hcos : to_datetime_ymd y m 15 = Some (days_from_civil y m 15)).
  { rewrite to_datetime_ymd_civil by lia.
    replace (valid_day (days_from_civil y m 15)) with true; [reflexivity|].
    symmetry. unfold valid_day, iNaT, day_ns. apply andb_true_iff.
    split; apply Z.ltb_lt; lia. }
  rewrite Hcos.
  set (cos := days_from_civil y m 15) in *.
  assert (Hsub : subtract_days (Some (j_Date r * day_ns)) (Some (cos * day_ns))
                 = Some (Some (j_Date r - cos))).
  { destruct (subtract_days _ _) as [o|] eqn:E.
    - apply subtract_days_midnights in E. now subst.
    - exfalso. unfold subtract_days in E.
      replace (in_int64 _) with true in E; [discriminate|].
      symmetry. unfold in_int64, day_ns. apply andb_true_iff.
      split; [apply Z.leb_le | apply Z.ltb_lt]; lia. }
  rewrite Hsub.
  pose proof (days_from_civil_bound py 1 1 Hpy ltac:(lia) ltac:(lia)) as Hj.
  assert (Hjan : to_datetime_year py = Some (days_from_civil py 1 1)).
  { unfold to_datetime_year.
    destruct (Z.leb_spec 1000 py); [|lia]. destruct (Z.leb_spec py 9999); [|lia].
    replace (valid_day (days_from_civil py 1 1)) with true; [reflexivity|].
    symmetry. unfold valid_day, iNaT, day_ns. apply andb_true_iff.
    split; apply Z.ltb_lt; lia. }
  rewrite Hjan.
  set (jan1 := days_from_civil py 1 1) in *.
  assert (Hdt0 : jan1 * day_ns / 10 ^ 9 = jan1 * 86400).
  { unfold day_ns. replace (jan1 * (86400 * 10 ^ 9)) with (jan1 * 86400 * 10 ^ 9) by ring.
    apply Z.div_mul. lia. }
  rewrite Hdt0.
  rewrite (int64_id (jan1 * 86400 + 7 * 24 * 3600 * pw)) by lia.
  rewrite (int64_id ((jan1 * 86400 + 7 * 24 * 3600 * pw) * 10 ^ 9)) by lia.
  unfold to_datetime_ns.
  replace (_ =? iNaT) with false by (symmetry; apply Z.eqb_neq; unfold iNaT; lia).
  unfold subtract_days.
  replace (in_int64 _) with true.
  - eexists. reflexivity.
  - symmetry. unfold in_int64, day_ns. apply andb_true_iff.
    split; [apply Z.leb_le | apply Z.ltb_lt]; lia.
Qed.

Lemma date_feature_stage_defined (df : list Joined) :
  Forall (fun r => exists out, date_features r = Some out) df ->
  exists out, date_feature_stage df = Some out.
Proof.
  induction 1 as [|r df [o Ho] _ [out IH]]; simpl.
  - now exists [].
  - rewrite Ho, IH. now exists (o :: out).
Qed.

(** C3.  After cells 14 to 19 every row of the train and test tables has
    [CompetitionDaysOpen >= 0], [Promo2Days >= 0],
    [0 <= CompetitionMonthsOpen <= 24] and [0 <= Promo2Weeks <= 25] (none of
    them missing), and a row whose [CompetitionOpenSinceYear]
    (resp. [Promo2SinceYear]) is below 1990, the sentinel 1900 included, has
    [CompetitionDaysOpen = 0] (resp. [Promo2Days = 0]). *)
Theorem date_features_clamped :
  forall (train_df test_df : list Joined) (train_out test_out : list Row) (r : Row),
    date_feature_stage train_df = Some train_out ->
    date_feature_stage test_df = Some test_out ->
    In r (train_out ++ test_out) ->
    (exists d, CompetitionDaysOpen r = Some d /\ 0 <= d) /\
    (exists d, Promo2Days r = Some d /\ 0 <= d) /\
    (exists m, CompetitionMonthsOpen r = Some m /\ 0 <= m <= 24) /\
    (exists w, Promo2Weeks r = Some w /\ 0 <= w <= 25) /\
    (CompetitionOpenSinceYear r < 1990 -> CompetitionDaysOpen r = Some 0) /\
    (Promo2SinceYear r < 1990 -> Promo2Days r = Some 0) /\
    (CompetitionOpenSinceYear r = 1900 -> CompetitionDaysOpen r = Some 0) /\
    (Promo2SinceYear r = 1900 -> Promo2Days r = Some 0).
Proof.
  intros train_df test_df train_out test_out r Htr Hte Hin.
  assert (Hj : exists j, date_features j = Some r).
  { apply in_app_or in Hin. destruct Hin as [Hin|Hin].
    - destruct (date_feature_stage_In _ _ _ Htr Hin) as [j [_ Hj]]. now exists j.
    - destruct (date_feature_stage_In _ _ _ Hte Hin) as [j [_ Hj]]. now exists j. }
  destruct Hj as [j Hj]. apply date_features_spec in Hj. cbv zeta in Hj.
  destruct Hj as [cos [p2s [_ [_ [Hy [_ [Hpy [_ [_ [Hcdo [Hcmo [_ [Hp2d Hp2w]]]]]]]]]]]]].
  rewrite Hcdo in Hcmo. rewrite Hp2d in Hp2w. cbn [option_map] in Hcmo, Hp2w.
  rewrite Hy, Hpy, Hcdo, Hcmo, Hp2d, Hp2w.
  set (cosy := astype_int32 _) in *.
  set (p2sy := astype_int32 (fillna 1900 (raw_Promo2SinceYear j))) in *.
  set (dc := j_Date j - cos). set (dp := (j_Date j * day_ns - p2s) / day_ns).
  assert (Hc0 : 0 <= (if cosy <? 1990 then 0 else if dc <? 0 then 0 else dc)).
  { destruct (cosy <? 1990); [lia|]. destruct (dc <? 0) eqn:E; [lia|].
    apply Z.ltb_ge in E. lia. }
  assert (Hp0 : 0 <= (if p2sy <? 1990 then 0 else if dp <? 0 then 0 else dp)).
  { destruct (p2sy <? 1990); [lia|]. destruct (dp <? 0) eqn:E; [lia|].
    apply Z.ltb_ge in E. lia. }
  set (vc := if cosy <? 1990 then 0 else if dc <? 0 then 0 else dc) in *.
  set (vp := if p2sy <? 1990 then 0 else if dp <? 0 then 0 else dp) in *.
  split; [now exists vc|]. split; [now exists vp|].
  split.
  { eexists. split; [reflexivity|].
    destruct (24 <? vc / 30) eqn:E; [lia|]. apply Z.ltb_ge in E.
    split; [|lia]. apply Z.div_pos; lia. }
  split.
  { eexists. split; [reflexivity|]. cbv zeta.
    destruct (vp / 7 <? 0) eqn:E1.
    - simpl. lia.
    - apply Z.ltb_ge in E1. destruct (25 <? vp / 7) eqn:E2; [lia|].
      apply Z.ltb_ge in E2. lia. }
  assert (Hcs : cosy < 1990 -> Some vc = Some 0).
  { intros H. unfold vc. apply Z.ltb_lt in H. now rewrite H. }
  assert (Hps : p2sy < 1990 -> Some vp = Some 0).
  { intros H. unfold vp. apply Z.ltb_lt in H. now rewrite H. }
  repeat split; intros; try apply Hcs; try apply Hps; lia.
Qed.

Lemma date_features_clamped_witness :
  exists r,
    date_feature_stage [ex_joined_1] = Some [r] /\
    (exists d, CompetitionDaysOpen r = Some d /\ 0 <= d) /\
    Promo2SinceYear r = 1900 /\ Promo2Days r = Some 0.
Proof.
  eexists. split; [vm_compute; reflexivity|].
  pose proof (date_features_clamped [ex_joined_1] [ex_joined_2] _ _ _
                eq_refl eq_refl (or_introl eq_refl)) as H.
  split; [exact (proj1 H)|].
  split; [reflexivity|].
  apply H. reflexivity.
Defined.

(** [days_from_civil] numbers the days of the Gregorian calendar
    consecutively, starting from 0 on 1970-01-01. *)
Lemma days_from_civil_epoch : days_from_civil 1970 1 1 = 0.
Proof. reflexivity. Qed.

Lemma days_from_civil_next_day (y m d : Z) :
  days_from_civil y m (d + 1) = days_from_civil y m d + 1.
Proof. unfold days_from_civil. lia. Qed.

Lemma days_from_civil_next_month (y m : Z) :
  1 <= m < 12 ->
  days_from_civil y (m + 1) 1 = days_from_civil y m (days_in_month y m) + 1.
Proof.
  intros H. unfold days_from_civil.
  assert (Hm : m = 1 \/ m = 2 \/ m = 3 \/ m = 4 \/ m = 5 \/ m = 6 \/ m = 7 \/
               m = 8 \/ m = 9 \/ m = 10 \/ m = 11) by lia.
  assert (E : days_before_month y (m + 1) = days_before_month y m + days_in_month y m).
  { repeat (destruct Hm as [->|Hm]); try subst m;
      unfold days_before_month, days_in_month;
      generalize (is_leap y); intros [|]; reflexivity. }
  lia.
Qed.

Lemma days_from_civil_next_year (y : Z) :
  days_from_civil (y + 1) 1 1 = days_from_civil y 12 31 + 1.
Proof.
  unfold days_from_civil.
  assert (E : days_before_month y 12 = if is_leap y then 335 else 334).
  { unfold days_before_month, days_in_month.
    generalize (is_leap y); intros [|]; reflexivity. }
  rewrite E. change (days_before_month (y + 1) 1) with 0.
  unfold days_before_year, is_leap.
  replace (y + 1 - 1) with y by lia.
  destruct (Z.eqb_spec (y mod 4) 0), (Z.eqb_spec (y mod 100) 0),
    (Z.eqb_spec (y mod 400) 0); cbn [negb andb orb];
    Z.div_mod_to_equations; lia.
Qed.

(** C4 as stated fails: the cells do not ask the year and the month to
    name a calendar month.  With the year 2008 and the month 112 the number
    assembled is 20091215, and [CompetitionOpenSince] is 2009-12-15: a day of
    another year and of no month 112, from which [CompetitionDaysOpen] is
    counted. *)
Lemma competition_date_of_month_112 :
  exists r,
    date_feature_stage [ex_joined_month_112] = Some [r] /\
    CompetitionOpenSinceYear r = 2008 /\
    CompetitionOpenSinceMonth r = 112 /\
    CompetitionOpenSince r = days_from_civil 2009 12 15 /\
    CompetitionOpenSince r <> days_from_civil 2008 112 15 /\
    CompetitionDaysOpen r
      = Some (days_from_civil 2015 7 31 - days_from_civil 2009 12 15).
Proof.
  eexists. split; [vm_compute; reflexivity|].
  repeat split; try reflexivity. vm_compute. discriminate.
Qed.

(** C4 (as amended).  Cells 14 to 19 keep the rows of the train and test
    tables in their places, and in each of them: the date is the input's;
    the competition year and month are the input's when these fit an int32,
    with 1900 and 1 for a missing one; when the year has four digits and the
    month is one of 1 to 12, [CompetitionOpenSince] is day 15 of that month
    of that year; [CompetitionDaysOpen] is the day difference
    [Date - CompetitionOpenSince], replaced by 0 when it is negative or when
    the year is below 1990; and [CompetitionMonthsOpen] is
    [CompetitionDaysOpen // 30] with values above 24 replaced by 24. *)
Theorem competition_features :
  forall (train_df test_df : list Joined) (train_out test_out : list Row),
    date_feature_stage train_df = Some train_out ->
    date_feature_stage test_df = Some test_out ->
    Forall2
      (fun (j : Joined) (r : Row) =>
         let y := CompetitionOpenSinceYear r in
         let m := CompetitionOpenSinceMonth r in
         let y0 := fillna 1900 (raw_CompetitionOpenSinceYear j) in
         let m0 := fillna 1 (raw_CompetitionOpenSinceMonth j) in
         Date r = j_Date j /\
         (- 2 ^ 31 <= y0 < 2 ^ 31 -> y = y0) /\
         (- 2 ^ 31 <= m0 < 2 ^ 31 -> m = m0) /\
         (1000 <= y <= 9999 -> 1 <= m <= 12 ->
          CompetitionOpenSince r = days_from_civil y m 15) /\
         CompetitionDaysOpen r
           = Some (let days := Date r - CompetitionOpenSince r in
                   if (days <? 0) || (y <? 1990) then 0 else days) /\
         exists d, CompetitionDaysOpen r = Some d /\
                   CompetitionMonthsOpen r
                   = Some (if 24 <? d / 30 then 24 else d / 30))
      (train_df ++ test_df) (train_out ++ test_out).
Proof.
  intros train_df test_df train_out test_out Htr Hte.
  assert (Hrow : forall j r, date_features j = Some r ->
            let y := CompetitionOpenSinceYear r in
            let m := CompetitionOpenSinceMonth r in
            let y0 := fillna 1900 (raw_CompetitionOpenSinceYear j) in
            let m0 := fillna 1 (raw_CompetitionOpenSinceMonth j) in
            Date r = j_Date j /\
            (- 2 ^ 31 <= y0 < 2 ^ 31 -> y = y0) /\
            (- 2 ^ 31 <= m0 < 2 ^ 31 -> m = m0) /\
            (1000 <= y <= 9999 -> 1 <= m <= 12 ->
             CompetitionOpenSince r = days_from_civil y m 15) /\
            CompetitionDaysOpen r
              = Some (let days := Date r - CompetitionOpenSince r in
                      if (days <? 0) || (y <? 1990) then 0 else days) /\
            exists d, CompetitionDaysOpen r = Some d /\
                      CompetitionMonthsOpen r
                      = Some (if 24 <? d / 30 then 24 else d / 30)).
  { intros j r Hj. apply date_features_spec in Hj. cbv zeta in Hj.
    destruct Hj as [cos [p2s [Hcos [Hd [Hy [Hm [_ [_ [Hs [Hcdo [Hcmo _]]]]]]]]]]].
    cbv zeta. rewrite Hcmo, Hcdo, Hs, Hd, Hy, Hm. cbn [option_map].
    split; [reflexivity|].
    split; [intros H; now apply astype_int32_id|].
    split; [intros H; now apply astype_int32_id|].
    split; [|split].
    - intros Hyr Hmo. rewrite to_datetime_ymd_civil in Hcos by assumption.
      destruct (valid_day _); [now injection Hcos as <- | discriminate].
    - f_equal. destruct (j_Date j - cos <? 0), (_ <? 1990); reflexivity.
    - eexists. split; reflexivity. }
  apply Forall2_app;
    (eapply Forall2_impl; [|apply date_feature_stage_rows; eassumption]);
    intros j r _ Hj; now apply Hrow.
Qed.

Lemma competition_features_witness :
  exists r,
    date_feature_stage [ex_joined_2] = Some [r] /\
    CompetitionOpenSince r = days_from_civil 2008 9 15 /\
    CompetitionDaysOpen r = Some 2510 /\
    CompetitionMonthsOpen r = Some 24.
Proof.
  destruct (date_feature_stage [ex_joined_2]) as [[|r [|r' out]]|] eqn:E;
    try (vm_compute in E; discriminate E).
  exists r. split; [reflexivity|].
  pose proof (competition_features [] [ex_joined_2] [] [r] eq_refl E) as H.
  cbn [app] in H. inversion H as [|j0 r0 js rs Hr _]; subst.
  cbv zeta in Hr. destruct Hr as [_ [_ [_ [Hc _]]]].
  vm_compute in E. injection E as <-.
  split; [apply Hc; vm_compute; split; discriminate|].
  split; reflexivity.
Defined.

(* ================================================================== *)
(** ** Proofs: the stable insertion sort                               *)
(* ================================================================== *)

Section SortFacts.
Context {A : Type} (leb : A -> A -> bool).
Hypothesis leb_total : forall a b, leb a b = true \/ leb b a = true.
Hypothesis leb_trans : forall a b c, leb a b = true -> leb b c = true -> leb a c = true.

Local Abbreviation le := (le_of leb).

Lemma insert_by_perm (x : A) (l : list A) : Permutation (x :: l) (insert_by leb x l).
Proof.
  induction l as [|y l IH]; simpl; [reflexivity|].
  destruct (leb x y); [reflexivity|].
  rewrite perm_swap. now constructor.
Qed.

Lemma sort_by_perm (l : list A) : Permutation l (sort_by leb l).
Proof.
  induction l as [|x l IH]; simpl; [reflexivity|].
  rewrite <- insert_by_perm. now constructor.
Qed.

Lemma sort_by_length (l : list A) : length (sort_by leb l) = length l.
Proof. symmetry. apply Permutation_length, sort_by_perm. Qed.

Lemma insert_by_sorted (x : A) (l : list A) :
  StronglySorted le l -> StronglySorted le (insert_by leb x l).
Proof.
  induction 1 as [|y l Hs IH Hy]; simpl.
  - repeat constructor.
  - destruct (leb x y) eqn:E.
    + constructor; [now constructor|]. constructor; [exact E|].
      eapply Forall_impl; [|exact Hy]. intros z Hz. eapply leb_trans; eassumption.
    + constructor; [exact IH|].
      assert (Hyx : le y x)
        by (unfold le_of; destruct (leb_total x y); [congruence|assumption]).
      eapply Permutation_Forall; [apply insert_by_perm|]. now constructor.
Qed.

Lemma sort_by_sorted (l : list A) : StronglySorted le (sort_by leb l).
Proof.
  induction l as [|x l IH]; simpl; [constructor|]. now apply insert_by_sorted.
Qed.

(** A table that is already in order is left as it is. *)
Lemma sort_by_id (l : list A) : Sorted le l -> sort_by leb l = l.
Proof.
  induction 1 as [|x l Hs IH Hx]; simpl; [reflexivity|].
  rewrite IH. destruct Hx as [|y l' Hxy]; simpl; [reflexivity|].
  unfold le_of in Hxy. now rewrite Hxy.
Qed.

Lemma sorted_app_le (l1 l2 : list A) :
  StronglySorted le (l1 ++ l2) ->
  forall a b, In a l1 -> In b l2 -> le a b.
Proof.
  induction l1 as [|x l1 IH]; simpl; intros Hs a b Ha Hb; [contradiction|].
  inversion Hs as [|? ? Hs' Hx]; subst.
  destruct Ha as [<-|Ha].
  - rewrite Forall_forall in Hx. apply Hx. apply in_or_app. now right.
  - now apply IH.
Qed.
End SortFacts.

Lemma date_leb_total (a b : Row) : date_leb a b = true \/ date_leb b a = true.
Proof. unfold date_leb. rewrite !Z.leb_le. lia. Qed.

Lemma date_leb_trans (a b c : Row) :
  date_leb a b = true -> date_leb b c = true -> date_leb a c = true.
Proof. unfold date_leb. rewrite !Z.leb_le. lia. Qed.

Lemma sorted_by_date_leb (l : list Row) :
  Sorted (fun a b => Date a <= Date b) l -> Sorted (le_of date_leb) l.
Proof.
  induction 1 as [|x l Hs IH Hx]; constructor; [exact IH|].
  destruct Hx; constructor. unfold le_of, date_leb. now apply Z.leb_le.
Qed.

(* ================================================================== *)
(** ** Proofs, part IV: zero-sales filter and split                    *)
(* ================================================================== *)

Lemma split_with_app (frac : Z * Z) (train_df : list Row) :
  fst (split_with frac train_df) ++ snd (split_with frac train_df)
  = sort_values_Date train_df.
Proof. unfold split_with, slice_to, slice_from. simpl. apply firstn_skipn. Qed.

Lemma split_with_perm (frac : Z * Z) (train_df : list Row) :
  Permutation train_df
    (fst (split_with frac train_df) ++ snd (split_with frac train_df)).
Proof. rewrite split_with_app. apply sort_by_perm. Qed.

Lemma split_with_ordered (frac : Z * Z) (train_df : list Row) (a b : Row) :
  In a (fst (split_with frac train_df)) -> In b (snd (split_with frac train_df)) ->
  Date a <= Date b.
Proof.
  intros Ha Hb. apply Z.leb_le.
  apply (sorted_app_le date_leb (fst (split_with frac train_df))
           (snd (split_with frac train_df))); try assumption.
  rewrite split_with_app.
  apply sort_by_sorted; [apply date_leb_total | apply date_leb_trans].
Qed.

(** Two date-sorted rearrangements of one table carry the same dates in
    the same places, and are the same table when no two rows share a date;
    so it does not matter which of them a sort returns. *)
Lemma sorted_perm_eq (l1 l2 : list Z) :
  Permutation l1 l2 -> StronglySorted Z.le l1 -> StronglySorted Z.le l2 -> l1 = l2.
Proof.
  revert l2. induction l1 as [|x l1 IH]; intros l2 Hp H1 H2.
  - apply Permutation_nil in Hp. now subst.
  - destruct l2 as [|y l2]; [symmetry in Hp; now apply Permutation_nil in Hp|].
    inversion H1 as [|? ? H1' Hx]; subst. inversion H2 as [|? ? H2' Hy]; subst.
    rewrite Forall_forall in Hx, Hy.
    assert (Hxy : x <= y).
    { assert (Hin : In y (x :: l1))
        by (eapply Permutation_in; [symmetry; exact Hp | now left]).
      destruct Hin as [->|Hin]; [lia | now apply Hx]. }
    assert (Hyx : y <= x).
    { assert (Hin : In x (y :: l2))
        by (eapply Permutation_in; [exact Hp | now left]).
      destruct Hin as [->|Hin]; [lia | now apply Hy]. }
    assert (E : x = y) by lia. subst y. f_equal.
    apply IH; try assumption. eapply Permutation_cons_inv. exact Hp.
Qed.

Lemma sorted_map_Date (l : list Row) :
  StronglySorted (fun a b => Date a <= Date b) l ->
  StronglySorted Z.le (map Date l).
Proof.
  induction 1 as [|x l Hs IH Hx]; cbn [map]; constructor; [exact IH|].
  rewrite Forall_forall in *. intros d Hd. apply in_map_iff in Hd.
  destruct Hd as [r [<- Hr]]. now apply Hx.
Qed.

Lemma sorted_rearrangement_dates (s df : list Row) :
  Permutation s df ->
  StronglySorted (fun a b => Date a <= Date b) s ->
  StronglySorted (fun a b => Date a <= Date b) df ->
  map Date s = map Date df.
Proof.
  intros Hp Hs Hd. apply sorted_perm_eq.
  - now apply Permutation_map.
  - now apply sorted_map_Date.
  - now apply sorted_map_Date.
Qed.

Lemma sorted_rearrangement_unique (s df : list Row) :
  Permutation s df ->
  StronglySorted (fun a b => Date a <= Date b) s ->
  StronglySorted (fun a b => Date a < Date b) df ->
  s = df.
Proof.
  revert df. induction s as [|x s IH]; intros df Hp Hs Hd.
  - apply Permutation_nil in Hp. now subst.
  - destruct df as [|y df]; [symmetry in Hp; now apply Permutation_nil in Hp|].
    inversion Hs as [|? ? Hs' Hx]; subst. inversion Hd as [|? ? Hd' Hy]; subst.
    rewrite Forall_forall in Hx, Hy.
    assert (E : x = y).
    { assert (Hin : In x (y :: df))
        by (eapply Permutation_in; [exact Hp | now left]).
      destruct Hin as [->|Hin]; [reflexivity|]. exfalso.
      assert (Hin' : In y (x :: s))
        by (eapply Permutation_in; [symmetry; exact Hp | now left]).
      specialize (Hy x Hin).
      destruct Hin' as [->|Hin']; [lia|]. specialize (Hx y Hin'). lia. }
    subst y. f_equal. apply IH; try assumption.
    eapply Permutation_cons_inv. exact Hp.
Qed.

Lemma sort_values_Date_sorted (df : list Row) :
  StronglySorted (fun a b => Date a <= Date b) (sort_values_Date df).
Proof.
  pose proof (sort_by_sorted date_leb date_leb_total date_leb_trans df) as H.
  unfold sort_values_Date. induction H as [|x l Hs IH Hx]; constructor.
  - exact IH.
  - eapply Forall_impl; [|exact Hx]. intros a Ha.
    unfold le_of, date_leb in Ha. now apply Z.leb_le.
Qed.

(** C7.  With [VALID_FRAC = 0.25] a table of 100 rows is split into 75
    training rows and 25 validation rows; together they are the table sorted
    by date (so every row lands in exactly one output) and no training row is
    dated after a validation row.  If the table was already sorted by date,
    the training rows carry the dates of its first 75 rows and the
    validation rows the dates of its last 25; and if moreover no two of its
    rows share a date, the training rows are its first 75 rows and the
    validation rows its last 25. *)
Theorem split_hundred_rows :
  forall train_df : list Row,
    length train_df = 100%nat ->
    let train := fst (split train_df) in
    let valid := snd (split train_df) in
    length valid = 25%nat /\ length train = 75%nat /\
    train ++ valid = sort_values_Date train_df /\
    Permutation train_df (train ++ valid) /\
    (forall a b, In a train -> In b valid -> Date a <= Date b) /\
    (Sorted (fun a b => Date a <= Date b) train_df ->
     map Date train = map Date (firstn 75 train_df) /\
     map Date valid = map Date (skipn 75 train_df)) /\
    (Sorted (fun a b => Date a < Date b) train_df ->
     train = firstn 75 train_df /\ valid = skipn 75 train_df).
Proof.
  intros train_df Hlen train valid.
  assert (Hs : length (sort_values_Date train_df) = 100%nat).
  { unfold sort_values_Date. now rewrite sort_by_length. }
  assert (Ht : train = firstn 75 (sort_values_Date train_df)).
  { unfold train, split, split_with, slice_to. simpl fst. now rewrite Hs. }
  assert (Hv : valid = skipn 75 (sort_values_Date train_df)).
  { unfold valid, split, split_with, slice_from. simpl snd. now rewrite Hs. }
  assert (Hperm : Permutation (sort_values_Date train_df) train_df).
  { symmetry. apply sort_by_perm. }
  pose proof (sort_values_Date_sorted train_df) as Hsorted.
  split; [rewrite Hv, length_skipn; lia|].
  split; [rewrite Ht, length_firstn; lia|].
  split; [apply split_with_app|].
  split; [apply split_with_perm|].
  split; [intros a b; apply split_with_ordered|].
  split.
  - intros Hin.
    assert (Hd : StronglySorted (fun a b => Date a <= Date b) train_df).
    { apply Sorted_StronglySorted; [|exact Hin]. intros a b c Hab Hbc. lia. }
    pose proof (sorted_rearrangement_dates _ _ Hperm Hsorted Hd) as E.
    rewrite Ht, Hv, <- firstn_map, <- skipn_map, E, firstn_map, skipn_map.
    split; reflexivity.
  - intros Hin.
    assert (Hd : StronglySorted (fun a b => Date a < Date b) train_df).
    { apply Sorted_StronglySorted; [|exact Hin]. intros a b c Hab Hbc. lia. }
    rewrite Ht, Hv, (sorted_rearrangement_unique _ _ Hperm Hsorted Hd).
    split; reflexivity.
Qed.

Lemma split_hundred_rows_witness :
  (length (snd (split ex_hundred)) = 25%nat /\
   length (fst (split ex_hundred)) = 75%nat /\
   map Date (skipn 22 (snd (split ex_hundred))) = [98; 99; 500]) /\
  (fst (split ex_hundred_sorted) = firstn 75 ex_hundred_sorted /\
   snd (split ex_hundred_sorted) = skipn 75 ex_hundred_sorted).
Proof.
  split.
  - pose proof (split_hundred_rows ex_hundred eq_refl) as H.
    split; [exact (proj1 H)|]. split; [exact (proj1 (proj2 H))|].
    vm_compute. reflexivity.
  - apply (split_hundred_rows ex_hundred_sorted eq_refl).
    unfold ex_hundred_sorted. simpl.
    repeat first [ apply Sorted_nil | apply HdRel_nil
                 | apply Sorted_cons | apply HdRel_cons; simpl; lia ].
Defined.

Lemma ne0_Some_0 (x : option Z) : ne0 x = true <-> x <> Some 0.
Proof.
  destruct x as [v|]; simpl.
  - rewrite negb_true_iff, Z.eqb_neq. split; congruence.
  - split; [discriminate | reflexivity].
Qed.

(** C8.  A row with sales 0 is in neither the training nor the validation
    output; the two outputs are the split of the table that is left after
    these rows are removed, so the validation count is taken from the
    filtered row count; the test table is written as it is. *)
Theorem zero_sales_filtered_before_split :
  forall train_df test_df : list Row,
    let out := split_and_write train_df test_df in
    let kept := drop_zero_sales train_df in
    let num_valid := int_frac_mul VALID_FRAC (Z.of_nat (length kept)) in
    (forall r, In r kept <-> In r train_df /\ Sales r <> Some 0) /\
    (forall r, In r (out_train out) \/ In r (out_valid out) -> Sales r <> Some 0) /\
    Permutation kept (out_train out ++ out_valid out) /\
    out_valid out = slice_from (- num_valid) (sort_values_Date kept) /\
    out_train out = slice_to (- num_valid) (sort_values_Date kept) /\
    4 * num_valid <= Z.of_nat (length kept) < 4 * num_valid + 4 /\
    (0 < num_valid -> Z.of_nat (length (out_valid out)) = num_valid) /\
    out_test out = test_df.
Proof.
  intros train_df test_df out kept num_valid.
  assert (Hkept : forall r, In r kept <-> In r train_df /\ Sales r <> Some 0).
  { intros r. unfold kept, drop_zero_sales. rewrite filter_In.
    now rewrite ne0_Some_0. }
  assert (Hperm : Permutation kept (out_train out ++ out_valid out)).
  { unfold out, split_and_write. cbn [out_train out_valid]. apply split_with_perm. }
  assert (Hnv : 4 * num_valid <= Z.of_nat (length kept) < 4 * num_valid + 4).
  { unfold num_valid, int_frac_mul, VALID_FRAC. cbn [fst snd].
    rewrite Z.mul_1_l. rewrite Z.quot_div_nonneg by lia.
    Z.div_mod_to_equations. lia. }
  split; [exact Hkept|].
  split.
  { intros r Hr. apply (Hkept r).
    eapply Permutation_in; [symmetry; exact Hperm|]. apply in_or_app. exact Hr. }
  split; [exact Hperm|].
  assert (Hl : length (sort_values_Date kept) = length kept)
    by apply sort_by_length.
  assert (Hv : out_valid out = slice_from (- num_valid) (sort_values_Date kept)).
  { unfold out, split_and_write, split, split_with. cbn [out_valid snd].
    fold kept. now rewrite Hl. }
  assert (Ht : out_train out = slice_to (- num_valid) (sort_values_Date kept)).
  { unfold out, split_and_write, split, split_with. cbn [out_train fst].
    fold kept. now rewrite Hl. }
  split; [exact Hv|]. split; [exact Ht|]. split; [exact Hnv|].
  split; [|reflexivity].
  intros Hpos. rewrite Hv. unfold slice_from, slice_bound. rewrite Hl.
  destruct (- num_valid <? 0) eqn:E; [|apply Z.ltb_ge in E; lia].
  rewrite length_skipn, Hl. lia.
Qed.

Lemma zero_sales_filtered_before_split_witness :
  map Date (out_train (split_and_write ex_union [])) = [1; 2; 4; 7; 10; 11] /\
  map Date (out_valid (split_and_write ex_union [])) = [12] /\
  Z.of_nat (length (out_valid (split_and_write ex_union []))) = 1.
Proof.
  split; [reflexivity|]. split; [reflexivity|].
  destruct (zero_sales_filtered_before_split ex_union [])
    as [_ [_ [_ [_ [_ [_ [H _]]]]]]].
  apply H. reflexivity.
Defined.

(** C9.  When the validation count [int(frac * n)] is 0, as it is with the
    default fraction for a table of fewer than 4 rows, the training output
    is empty and the validation output is the whole table (sorted by date). *)
Theorem split_zero_valid_count :
  forall (frac : Z * Z) (train_df : list Row),
    int_frac_mul frac (Z.of_nat (length train_df)) = 0 \/
    (frac = VALID_FRAC /\ (length train_df < 4)%nat) ->
    split_with frac train_df = ([], sort_values_Date train_df) /\
    length (snd (split_with frac train_df)) = length train_df /\
    Permutation train_df (snd (split_with frac train_df)).
Proof.
  intros frac train_df H.
  assert (Hz : int_frac_mul frac (Z.of_nat (length train_df)) = 0).
  { destruct H as [H|[-> H]]; [exact H|].
    unfold int_frac_mul, VALID_FRAC. cbn [fst snd].
    rewrite Z.mul_1_l. apply Z.quot_small. lia. }
  assert (E : split_with frac train_df = ([], sort_values_Date train_df)).
  { unfold split_with, sort_values_Date. rewrite sort_by_length, Hz.
    unfold slice_from, slice_to, slice_bound. simpl.
    rewrite Z.min_l by lia. reflexivity. }
  rewrite E. cbn [snd].
  split; [reflexivity|]. split; [apply sort_by_length | apply sort_by_perm].
Qed.

Lemma split_zero_valid_count_witness :
  split ex_three = ([], sort_values_Date ex_three) /\
  map Date (snd (split ex_three)) = [1; 2; 3] /\
  split_with (1, 10) ex_three = ([], sort_values_Date ex_three).
Proof.
  split; [|split].
  - apply (split_zero_valid_count VALID_FRAC ex_three). right. split; [reflexivity|].
    simpl. lia.
  - reflexivity.
  - apply (split_zero_valid_count (1, 10) ex_three). left. reflexivity.
Defined.

(* ================================================================== *)
(** ** Proofs, part III: event proximity                               *)
(* ================================================================== *)

Lemma store_date_leb_total (a b : Row) :
  store_date_leb a b = true \/ store_date_leb b a = true.
Proof.
  unfold store_date_leb.
  destruct (Z.ltb_spec (Store a) (Store b)), (Z.ltb_spec (Store b) (Store a)),
    (Z.eqb_spec (Store a) (Store b)), (Z.eqb_spec (Store b) (Store a)),
    (Z.leb_spec (Date a) (Date b)), (Z.leb_spec (Date b) (Date a));
    simpl; auto; lia.
Qed.

Lemma store_date_leb_trans (a b c : Row) :
  store_date_leb a b = true -> store_date_leb b c = true ->
  store_date_leb a c = true.
Proof.
  unfold store_date_leb.
  destruct (Z.ltb_spec (Store a) (Store b)), (Z.ltb_spec (Store b) (Store c)),
    (Z.ltb_spec (Store a) (Store c)),
    (Z.eqb_spec (Store a) (Store b)), (Z.eqb_spec (Store b) (Store c)),
    (Z.eqb_spec (Store a) (Store c)),
    (Z.leb_spec (Date a) (Date b)), (Z.leb_spec (Date b) (Date c)),
    (Z.leb_spec (Date a) (Date c));
    simpl; auto; lia.
Qed.

Lemma store_date_leb_store (a b : Row) :
  store_date_leb a b = true -> Store a <= Store b.
Proof.
  unfold store_date_leb.
  destruct (Z.ltb_spec (Store a) (Store b)), (Z.eqb_spec (Store a) (Store b));
    simpl; intros; try discriminate; lia.
Qed.

(** A table sorted by (Store, Date) is the rows of the stores below [s],
    then the rows of [s], then the rows of the stores above. *)
Lemma sorted_by_store_blocks (s : Z) (l : list Row) :
  StronglySorted (le_of store_date_leb) l ->
  l = filter (fun r => Store r <? s) l
      ++ filter (fun r => Store r =? s) l
      ++ filter (fun r => s <? Store r) l.
Proof.
  induction 1 as [|r l Hs IH Hr]; [reflexivity|]. simpl.
  assert (Hge : forall x, In x l -> Store r <= Store x).
  { rewrite Forall_forall in Hr. intros x Hx.
    now apply store_date_leb_store, Hr. }
  destruct (Z.ltb_spec (Store r) s) as [Hlt|Hge1].
  - replace (Store r =? s) with false by (symmetry; apply Z.eqb_neq; lia).
    replace (s <? Store r) with false by (symmetry; apply Z.ltb_ge; lia).
    simpl. now rewrite <- IH.
  - assert (Hnil : filter (fun x => Store x <? s) l = []).
    { apply filter_nil_iff. intros x Hx. apply Z.ltb_ge. specialize (Hge x Hx). lia. }
    rewrite Hnil in *. simpl in *.
    destruct (Z.eqb_spec (Store r) s) as [He|Hne].
    + replace (s <? Store r) with false by (symmetry; apply Z.ltb_ge; lia).
      simpl. now rewrite <- IH.
    + replace (s <? Store r) with true by (symmetry; apply Z.ltb_lt; lia).
      assert (Hnil2 : filter (fun x => Store x =? s) l = []).
      { apply filter_nil_iff. intros x Hx. apply Z.eqb_neq.
        specialize (Hge x Hx). lia. }
      rewrite Hnil2 in *. simpl in *. now rewrite <- IH.
Qed.

Lemma mask_rec_length (b : bool) (l : list Row) : length (mask_rec b l) = length l.
Proof.
  revert b. induction l as [|r l IH]; intros b; simpl; [reflexivity|].
  now rewrite IH.
Qed.

(** [first_indices | last_indices], negated, is [mask_rec]. *)
Lemma mask_of_diffs (b : bool) (r : Row) (l : list Row) :
  let d := map (fun p => Some (snd p - fst p))
               (combine (Store r :: map Store l) (map Store l)) in
  map (fun p => negb (fst p || float_as_bool (snd p)))
      (combine (b :: map ne0 d) (d ++ [Some 1]))
  = mask_rec b (r :: l).
Proof.
  revert b r. induction l as [|r' l IH]; intros b r; [reflexivity|].
  cbv zeta in *. cbn [map combine fst snd app mask_rec].
  f_equal. exact (IH (ne0 (Some (Store r' - Store r))) r').
Qed.

Lemma idx_mask_nonempty (r : Row) (l : list Row) :
  idx_mask (r :: l) = Some (mask_rec true (r :: l)).
Proof.
  unfold idx_mask, first_indices, last_indices, set_index_of, diff.
  cbn [map tl].
  rewrite length_app, !length_map. cbn [length].
  replace (Nat.eqb _ _) with true
    by (symmetry; apply Nat.eqb_eq; rewrite !length_map; lia).
  f_equal. exact (mask_of_diffs true r l).
Qed.

Lemma idx_mask_Some (l : list Row) (mask : list bool) :
  idx_mask l = Some mask -> mask = mask_rec true l /\ l <> [].
Proof.
  destruct l as [|r l].
  - discriminate.
  - rewrite idx_mask_nonempty. intros H. injection H as <-. split; [reflexivity|discriminate].
Qed.

(** Where the store changes, the mask of a table is the masks of its two
    parts side by side. *)
Lemma mask_rec_app (b : bool) (l1 l2 : list Row) :
  (forall r1 r2, In r1 l1 -> In r2 l2 -> Store r1 <> Store r2) ->
  (l1 = [] -> b = true) ->
  mask_rec b (l1 ++ l2) = mask_rec b l1 ++ mask_rec true l2.
Proof.
  revert b. induction l1 as [|r l1 IH]; intros b Hne Hb.
  - simpl. now rewrite Hb.
  - destruct l1 as [|r' l1'].
    + cbn [app mask_rec]. destruct l2 as [|r2 l2']; [reflexivity|].
      assert (Hd : negb (Store r2 - Store r =? 0) = true).
      { apply negb_true_iff, Z.eqb_neq.
        assert (Store r <> Store r2) by (apply Hne; now left). lia. }
      rewrite Hd. reflexivity.
    + change ((r :: r' :: l1') ++ l2) with (r :: (r' :: l1') ++ l2).
      cbn [mask_rec]. change ((r' :: l1') ++ l2) with (r' :: l1' ++ l2).
      cbv zeta. cbn [app]. f_equal.
      change (r' :: l1' ++ l2) with ((r' :: l1') ++ l2).
      apply IH.
      * intros r1 r2 H1 H2. apply Hne; [now right | assumption].
      * discriminate.
Qed.

Lemma combine_app {A B : Type} (x1 x2 : list A) (y1 y2 : list B) :
  length x1 = length y1 ->
  combine (x1 ++ x2) (y1 ++ y2) = combine x1 y1 ++ combine x2 y2.
Proof.
  revert y1. induction x1 as [|x x1 IH]; intros [|y y1] H; simpl in *;
    try discriminate; [reflexivity|].
  injection H as H. now rewrite IH.
Qed.

Lemma tmp_col_length (f : event_field) (l : list Row) (b : bool) :
  length (tmp_col f l (mask_rec b l)) = length l.
Proof.
  unfold tmp_col. rewrite length_map, length_combine, mask_rec_length. lia.
Qed.

Lemma tmp_col_app (f : event_field) (b : bool) (l1 l2 : list Row) :
  (forall r1 r2, In r1 l1 -> In r2 l2 -> Store r1 <> Store r2) ->
  (l1 = [] -> b = true) ->
  tmp_col f (l1 ++ l2) (mask_rec b (l1 ++ l2))
  = tmp_col f l1 (mask_rec b l1) ++ tmp_col f l2 (mask_rec true l2).
Proof.
  intros Hne Hb. unfold tmp_col. rewrite (mask_rec_app b l1 l2 Hne Hb).
  rewrite combine_app by (now rewrite mask_rec_length). apply map_app.
Qed.

(** The first and the last row of a table always keep their date. *)
Lemma tmp_col_head (f : event_field) (r : Row) (l : list Row) :
  exists t, tmp_col f (r :: l) (mask_rec true (r :: l)) = Some (Date r) :: t.
Proof.
  unfold tmp_col. cbn [mask_rec combine map fst snd orb negb].
  rewrite andb_false_r. eexists. reflexivity.
Qed.

Lemma tmp_col_last (f : event_field) (b : bool) (l : list Row) :
  l <> [] ->
  exists t v, tmp_col f l (mask_rec b l) = t ++ [Some v].
Proof.
  revert b. induction l as [|r l IH]; intros b Hl; [contradiction|].
  destruct l as [|r' l'].
  - exists [], (Date r). unfold tmp_col. cbn [mask_rec combine map fst snd].
    rewrite orb_true_r. cbn [negb]. now rewrite andb_false_r.
  - destruct (IH (negb (Store r' - Store r =? 0)) ltac:(discriminate)) as [t [v Ht]].
    unfold tmp_col in *. cbn [mask_rec combine map fst snd] in *.
    cbv zeta. rewrite Ht. eexists (_ :: t), v. reflexivity.
Qed.

Lemma ffill_from_length (a : option Z) (xs : list (option Z)) :
  length (ffill_from a xs) = length xs.
Proof.
  revert a. induction xs as [|x xs IH]; intros a; simpl; [reflexivity|].
  now rewrite IH.
Qed.

Lemma bfill_length (xs : list (option Z)) : length (bfill xs) = length xs.
Proof.
  induction xs as [|x xs IH]; simpl; [reflexivity|].
  destruct x; simpl; now rewrite IH.
Qed.

(** A forward fill does not look past a value that is present. *)
Lemma ffill_app (xs ys : list (option Z)) :
  (ys = [] \/ exists v t, ys = Some v :: t) ->
  ffill (xs ++ ys) = ffill xs ++ ffill ys.
Proof.
  unfold ffill. generalize (@None Z) at 1 2 as a.
  induction xs as [|x xs IH]; intros a H.
  - simpl. destruct H as [->|[v [t ->]]]; reflexivity.
  - simpl. f_equal. now apply IH.
Qed.

(** Nor does a backward fill. *)
Lemma bfill_app (xs ys : list (option Z)) :
  (xs = [] \/ exists t v, xs = t ++ [Some v]) ->
  bfill (xs ++ ys) = bfill xs ++ bfill ys.
Proof.
  intros [->|[t [v ->]]]; [reflexivity|].
  rewrite <- app_assoc. cbn [app].
  induction t as [|x t IH].
  - reflexivity.
  - cbn [app bfill]. rewrite IH.
    destruct x; [reflexivity|].
    f_equal. destruct t as [|y t]; [reflexivity|].
    cbn [app bfill]. destruct y; reflexivity.
Qed.

Lemma After_of_length (f : event_field) (b : bool) (l : list Row) :
  length (After_of f l (mask_rec b l)) = length l.
Proof.
  unfold After_of. unfold ffill.
  rewrite length_map, length_combine, ffill_from_length, tmp_col_length. lia.
Qed.

Lemma Before_of_length (f : event_field) (b : bool) (l : list Row) :
  length (Before_of f l (mask_rec b l)) = length l.
Proof.
  unfold Before_of.
  rewrite length_map, length_combine, bfill_length, tmp_col_length. lia.
Qed.

(** Cell 21 never carries a date across a change of store: on a table
    made of two parts with different stores, the columns are those of the
    parts. *)
Lemma After_of_app (f : event_field) (l1 l2 : list Row) :
  (forall r1 r2, In r1 l1 -> In r2 l2 -> Store r1 <> Store r2) ->
  After_of f (l1 ++ l2) (mask_rec true (l1 ++ l2))
  = After_of f l1 (mask_rec true l1) ++ After_of f l2 (mask_rec true l2).
Proof.
  intros Hne. unfold After_of.
  rewrite (tmp_col_app f true l1 l2 Hne) by reflexivity.
  rewrite ffill_app.
  - rewrite combine_app; [apply map_app|].
    unfold ffill. now rewrite ffill_from_length, tmp_col_length.
  - destruct l2 as [|r l2]; [now left|]. right.
    destruct (tmp_col_head f r l2) as [t Ht]. rewrite Ht. now exists (Date r), t.
Qed.

Lemma Before_of_app (f : event_field) (l1 l2 : list Row) :
  (forall r1 r2, In r1 l1 -> In r2 l2 -> Store r1 <> Store r2) ->
  Before_of f (l1 ++ l2) (mask_rec true (l1 ++ l2))
  = Before_of f l1 (mask_rec true l1) ++ Before_of f l2 (mask_rec true l2).
Proof.
  intros Hne. unfold Before_of.
  rewrite (tmp_col_app f true l1 l2 Hne) by reflexivity.
  rewrite bfill_app.
  - rewrite combine_app; [apply map_app|].
    now rewrite bfill_length, tmp_col_length.
  - destruct l1 as [|r l1]; [now left|]. right.
    apply tmp_col_last. discriminate.
Qed.

Lemma map_snd_combine {A B : Type} (xs : list A) (ys : list B) :
  length xs = length ys -> map snd (combine xs ys) = ys.
Proof.
  revert ys. induction xs as [|x xs IH]; intros [|y ys] H; simpl in *;
    try discriminate; [reflexivity|].
  injection H as H. now rewrite IH.
Qed.

(** Restricting a column of a blocked table to the middle block. *)
Lemma restrict_to_store {X : Type} (s : Z) (A G B : list Row) (XA XG XB : list X) :
  length XA = length A -> length XG = length G ->
  (forall r, In r A -> Store r <> s) ->
  (forall r, In r G -> Store r = s) ->
  (forall r, In r B -> Store r <> s) ->
  map snd (filter (fun p => Store (fst p) =? s)
                  (combine (A ++ G ++ B) (XA ++ XG ++ XB))) = XG.
Proof.
  intros HA HG HnA HsG HnB.
  rewrite combine_app by (now symmetry).
  rewrite combine_app by (now symmetry).
  rewrite !filter_app.
  assert (E1 : filter (fun p : Row * X => Store (fst p) =? s) (combine A XA) = []).
  { apply filter_nil_iff. intros [r x] Hp. apply in_combine_l in Hp.
    apply Z.eqb_neq. now apply HnA. }
  assert (E3 : filter (fun p : Row * X => Store (fst p) =? s) (combine B XB) = []).
  { apply filter_nil_iff. intros [r x] Hp. apply in_combine_l in Hp.
    apply Z.eqb_neq. now apply HnB. }
  assert (E2 : filter (fun p : Row * X => Store (fst p) =? s) (combine G XG)
               = combine G XG).
  { apply filter_all. intros [r x] Hp. apply in_combine_l in Hp.
    apply Z.eqb_eq. now apply HsG. }
  rewrite E1, E2, E3, app_nil_r. simpl. apply map_snd_combine. now symmetry.
Qed.

Lemma sort_values_Store_Date_sorted (df : list Row) :
  StronglySorted (le_of store_date_leb) (sort_values_Store_Date df).
Proof.
  apply sort_by_sorted; [apply store_date_leb_total | apply store_date_leb_trans].
Qed.

(** The columns of the whole table, restricted to one store, are the
    columns computed from that store's rows alone. *)
Lemma proximity_per_store (f : event_field) (s : Z) (l : list Row) :
  StronglySorted (le_of store_date_leb) l ->
  let g := filter (fun r => Store r =? s) l in
  map snd (filter (fun p => Store (fst p) =? s)
                  (combine l (After_of f l (mask_rec true l))))
    = After_of f g (mask_rec true g) /\
  map snd (filter (fun p => Store (fst p) =? s)
                  (combine l (Before_of f l (mask_rec true l))))
    = Before_of f g (mask_rec true g).
Proof.
  intros Hs g.
  pose proof (sorted_by_store_blocks s l Hs) as Hl. fold g in Hl.
  set (A := filter (fun r => Store r <? s) l) in *.
  set (B := filter (fun r => s <? Store r) l) in *.
  assert (HA : forall r, In r A -> Store r < s).
  { intros r Hr. apply filter_In in Hr. now apply Z.ltb_lt. }
  assert (HG : forall r, In r g -> Store r = s).
  { intros r Hr. apply filter_In in Hr. now apply Z.eqb_eq. }
  assert (HB : forall r, In r B -> s < Store r).
  { intros r Hr. apply filter_In in Hr. now apply Z.ltb_lt. }
  assert (H1 : forall r1 r2, In r1 A -> In r2 (g ++ B) -> Store r1 <> Store r2).
  { intros r1 r2 Hr1 Hr2. apply HA in Hr1. apply in_app_or in Hr2.
    destruct Hr2 as [Hr2|Hr2]; [apply HG in Hr2 | apply HB in Hr2]; lia. }
  assert (H2 : forall r1 r2, In r1 g -> In r2 B -> Store r1 <> Store r2).
  { intros r1 r2 Hr1 Hr2. apply HG in Hr1. apply HB in Hr2. lia. }
  rewrite Hl at 1 2 3 4 5 6.
  rewrite (After_of_app f A (g ++ B) H1), (After_of_app f g B H2).
  rewrite (Before_of_app f A (g ++ B) H1), (Before_of_app f g B H2).
  split; apply restrict_to_store;
    try apply After_of_length; try apply Before_of_length; try assumption;
    intros r Hr; try apply HA in Hr; try apply HB in Hr; lia.
Qed.

(** Entry [i] of a forward fill is the nearest present value at or before
    [i], or the seed when there is none. *)
Lemma ffill_from_nearest (a : option Z) (xs : list (option Z)) (i : nat) :
  (i < length xs)%nat ->
  (exists j v, (j <= i)%nat /\ nth_error xs j = Some (Some v) /\
               (forall k, (j < k <= i)%nat -> nth_error xs k = Some None) /\
               nth_error (ffill_from a xs) i = Some (Some v)) \/
  ((forall k, (k <= i)%nat -> nth_error xs k = Some None) /\
   nth_error (ffill_from a xs) i = Some a).
Proof.
  revert a i. induction xs as [|x xs IH]; intros a i Hi; [simpl in Hi; lia|].
  destruct i as [|i].
  - destruct x as [v|].
    + left. exists 0%nat, v. repeat split; try reflexivity; try lia.
    + right. split; [|reflexivity]. intros k Hk. now replace k with 0%nat by lia.
  - simpl in Hi. cbn [ffill_from nth_error].
    set (cur := match x with Some _ => x | None => a end).
    destruct (IH cur i ltac:(lia)) as [[j [v [Hj [Hv [Hn He]]]]]|[Hn He]].
    + left. exists (S j), v. repeat split; try assumption; try lia.
      intros k Hk. destruct k as [|k]; [lia|]. apply Hn. lia.
    + destruct x as [v|].
      * left. exists 0%nat, v. repeat split; try reflexivity; try lia; try assumption.
        intros k Hk. destruct k as [|k]; [lia|]. apply Hn. lia.
      * right. split; [|exact He].
        intros k Hk. destruct k as [|k]; [reflexivity|]. apply Hn. lia.
Qed.

(** Entry [i] of a backward fill is the nearest present value at or after
    [i], or missing when there is none. *)
Lemma bfill_nearest (xs : list (option Z)) (i : nat) :
  (i < length xs)%nat ->
  (exists j v, (i <= j)%nat /\ nth_error xs j = Some (Some v) /\
               (forall k, (i <= k < j)%nat -> nth_error xs k = Some None) /\
               nth_error (bfill xs) i = Some (Some v)) \/
  ((forall k, (i <= k < length xs)%nat -> nth_error xs k = Some None) /\
   nth_error (bfill xs) i = Some None).
Proof.
  revert i. induction xs as [|x xs IH]; intros i Hi; [simpl in Hi; lia|].
  assert (Hb : forall n, nth_error (bfill (x :: xs)) (S n) = nth_error (bfill xs) n).
  { intros n. cbn [bfill]. now destruct x. }
  destruct i as [|i].
  - destruct x as [v|].
    + left. exists 0%nat, v. repeat split; try reflexivity; try lia.
    + assert (H0 : nth_error (bfill (None :: xs)) 0 = Some (hd None (bfill xs)))
        by reflexivity.
      destruct xs as [|y xs'].
      * right. split; [|reflexivity]. intros k Hk. simpl in Hk.
        now replace k with 0%nat by lia.
      * destruct (IH 0%nat ltac:(simpl; lia)) as [[j [v [Hj [Hv [Hn He]]]]]|[Hn He]].
        -- left. exists (S j), v. repeat split; try assumption; try lia.
           ++ intros k Hk. destruct k as [|k]; [reflexivity|]. apply Hn. lia.
           ++ rewrite H0. f_equal.
              destruct (bfill (y :: xs')) as [|z zs]; [discriminate|].
              simpl in He. now injection He.
        -- right. split.
           ++ intros k Hk. destruct k as [|k]; [reflexivity|].
              apply Hn. simpl in Hk |- *. lia.
           ++ rewrite H0. f_equal.
              destruct (bfill (y :: xs')) as [|z zs]; [discriminate|].
              simpl in He. now injection He.
  - simpl in Hi. rewrite Hb.
    destruct (IH i ltac:(lia)) as [[j [v [Hj [Hv [Hn He]]]]]|[Hn He]].
    + left. exists (S j), v. repeat split; try assumption; try lia.
      intros k Hk. destruct k as [|k]; [lia|]. apply Hn. lia.
    + right. split; [|exact He].
      intros k Hk. destruct k as [|k]; [lia|]. apply Hn. simpl in Hk. lia.
Qed.

(** Within one store only the first and the last row escape the mask. *)
Lemma mask_rec_one_store (s : Z) (b : bool) (g : list Row) (i : nat) :
  (forall r, In r g -> Store r = s) ->
  (i < length g)%nat ->
  nth_error (mask_rec b g) i
  = Some (negb ((Nat.eqb i 0 && b) || Nat.eqb (S i) (length g))).
Proof.
  revert b i. induction g as [|r g IH]; intros b i Hs Hi; [simpl in Hi; lia|].
  assert (Hr : Store r = s) by (apply Hs; now left).
  assert (Hg : forall x, In x g -> Store x = s) by (intros x Hx; apply Hs; now right).
  destruct i as [|i].
  - cbn [mask_rec nth_error Nat.eqb andb length]. do 2 f_equal. f_equal.
    destruct g as [|r' g']; [reflexivity|].
    rewrite (Hg r' (or_introl eq_refl)), Hr, Z.sub_diag. reflexivity.
  - simpl in Hi. cbn [mask_rec nth_error].
    rewrite (IH _ i Hg) by lia. cbn [Nat.eqb andb orb length]. do 2 f_equal.
    destruct i as [|i]; [|reflexivity].
    destruct g as [|r' g']; [simpl in Hi; lia|].
    rewrite (Hg r' (or_introl eq_refl)), Hr, Z.sub_diag. reflexivity.
Qed.

Lemma nth_error_combine {A B : Type} (xs : list A) (ys : list B) (i : nat) (x : A) (y : B) :
  nth_error xs i = Some x -> nth_error ys i = Some y ->
  nth_error (combine xs ys) i = Some (x, y).
Proof.
  revert xs ys. induction i as [|i IH]; intros [|x' xs] [|y' ys] Hx Hy;
    simpl in *; try discriminate.
  - congruence.
  - now apply IH.
Qed.

(** The [tmp] column of one store's rows holds the date exactly at the
    carry points. *)
Lemma tmp_col_one_store (f : event_field) (s : Z) (g : list Row) (i : nat) (r : Row) :
  (forall x, In x g -> Store x = s) ->
  nth_error g i = Some r ->
  nth_error (tmp_col f g (mask_rec true g)) i
  = Some (if carry_point f g i then Some (Date r) else None).
Proof.
  intros Hs Hr.
  assert (Hi : (i < length g)%nat) by (apply nth_error_Some; congruence).
  unfold tmp_col.
  rewrite (nth_error_map _ i (combine g (mask_rec true g))).
  rewrite (nth_error_combine _ _ i r _ Hr (mask_rec_one_store s true g i Hs Hi)).
  cbn [option_map fst snd]. f_equal.
  unfold carry_point.
  assert (Hv : nth i (map (field_value f) g) 0 = field_value f r).
  { apply nth_error_nth. now apply map_nth_error. }
  rewrite Hv, andb_true_r.
  destruct (field_value f r =? 0), (Nat.eqb i 0), (Nat.eqb (S i) (length g));
    reflexivity.
Qed.

Lemma filter_perm {A : Type} (p : A -> bool) (l l' : list A) :
  Permutation l l' -> Permutation (filter p l) (filter p l').
Proof.
  induction 1 as [|x l l' H IH|x y l|l l' l'' H1 IH1 H2 IH2]; simpl.
  - constructor.
  - destruct (p x); [now constructor | assumption].
  - destruct (p x), (p y); try reflexivity. apply perm_swap.
  - etransitivity; eassumption.
Qed.

(** The rows of one store, taken from the sorted table, are in date order. *)
Lemma store_rows_date_sorted (s : Z) (l : list Row) :
  StronglySorted (le_of store_date_leb) l ->
  Sorted (fun a b => Date a <= Date b) (filter (fun r => Store r =? s) l).
Proof.
  intros H. apply StronglySorted_Sorted.
  induction H as [|r l Hs IH Hr]; simpl; [constructor|].
  destruct (Z.eqb_spec (Store r) s) as [He|Hne]; [|exact IH].
  constructor; [exact IH|].
  apply Forall_forall. intros x Hx. apply filter_In in Hx. destruct Hx as [Hx Hxs].
  apply Z.eqb_eq in Hxs. rewrite Forall_forall in Hr. specialize (Hr x Hx).
  unfold le_of, store_date_leb in Hr.
  destruct (Z.ltb_spec (Store r) (Store x)); [lia|].
  destruct (Z.eqb_spec (Store r) (Store x)); [|discriminate].
  simpl in Hr. now apply Z.leb_le.
Qed.

(** On a non-empty union table cell 21 runs through. *)
Lemma proximity_defined (f : event_field) (df : list Row) :
  df <> [] ->
  After f df = Some (After_of f (sort_values_Store_Date df)
                              (mask_rec true (sort_values_Store_Date df))) /\
  Before f df = Some (Before_of f (sort_values_Store_Date df)
                                (mask_rec true (sort_values_Store_Date df))).
Proof.
  intros Hne. unfold After, Before.
  destruct (sort_values_Store_Date df) as [|r l] eqn:E.
  - exfalso. apply Hne. apply length_zero_iff_nil.
    unfold sort_values_Store_Date in E.
    rewrite <- (sort_by_length store_date_leb df), E. reflexivity.
  - rewrite idx_mask_nonempty. split; reflexivity.
Qed.

(** A store open on three consecutive days with the event on the second
    day only: all three days are carry points. *)
Lemma three_day_store (f : event_field) (r1 r2 r3 : Row) :
  Store r2 = Store r1 -> Store r3 = Store r1 ->
  Date r2 = Date r1 + 1 -> Date r3 = Date r1 + 2 ->
  field_value f r1 = 0 -> field_value f r2 <> 0 -> field_value f r3 = 0 ->
  After f [r1; r2; r3] = Some [Some 0; Some 0; Some 0] /\
  Before f [r1; r2; r3] = Some [Some 0; Some 0; Some 0].
Proof.
  intros Hs2 Hs3 Hd2 Hd3 Hf1 Hf2 Hf3.
  assert (Hsort : sort_values_Store_Date [r1; r2; r3] = [r1; r2; r3]).
  { apply sort_by_id.
    repeat first [ apply Sorted_nil | apply HdRel_nil | apply Sorted_cons
                 | apply HdRel_cons ];
      unfold le_of, store_date_leb; rewrite ?Hs2, ?Hs3, Z.eqb_refl;
      apply orb_true_iff; right; apply Z.leb_le; lia. }
  unfold After, Before. rewrite Hsort, idx_mask_nonempty.
  cbn [option_map mask_rec]. rewrite Hs2, Hs3, !Z.sub_diag.
  unfold After_of, Before_of, tmp_col, ffill.
  cbn [combine map fst snd negb orb Z.eqb andb].
  rewrite Hf1, Hf3. apply Z.eqb_neq in Hf2. rewrite Hf2.
  cbn [Z.eqb andb ffill_from bfill combine map fst snd option_map hd].
  rewrite !Z.sub_diag. split; reflexivity.
Qed.

(** C5.  On a non-empty union table cell 21 produces the [After] and
    [Before] columns of every event field, and for every store [s], with
    [g] the store's rows in date order: a row of [g] is a carry point iff
    its event flag is set or it is the first or last row of [g]; the
    [After] value of row [i] is its date minus the date of the nearest carry
    point at or before it, and the [Before] value is the date of the nearest
    carry point at or after it minus its date.  A store present on three
    consecutive days with the event on the second only gets
    [After = Before = [0; 0; 0]]. *)
Theorem event_proximity_per_store :
  forall (f : event_field) (df : list Row),
    df <> [] ->
    exists after before,
      After f df = Some after /\ Before f df = Some before /\
      (forall s : Z,
         let sorted := sort_values_Store_Date df in
         let g := filter (fun r => Store r =? s) sorted in
         let after_s :=
           map snd (filter (fun p => Store (fst p) =? s) (combine sorted after)) in
         let before_s :=
           map snd (filter (fun p => Store (fst p) =? s) (combine sorted before)) in
         let date := fun i => nth i (map Date g) 0 in
         Permutation g (filter (fun r => Store r =? s) df) /\
         Sorted (fun a b => Date a <= Date b) g /\
         (forall i,
            carry_point f g i
            = (negb (nth i (map (field_value f) g) 0 =? 0)
               || Nat.eqb i 0 || Nat.eqb (S i) (length g))%bool) /\
         forall i, (i < length g)%nat ->
           (exists j, (j <= i)%nat /\ carry_point f g j = true /\
                      (forall k, (j < k <= i)%nat -> carry_point f g k = false) /\
                      nth_error after_s i = Some (Some (date i - date j))) /\
           (exists j, (i <= j < length g)%nat /\ carry_point f g j = true /\
                      (forall k, (i <= k < j)%nat -> carry_point f g k = false) /\
                      nth_error before_s i = Some (Some (date j - date i)))) /\
      (forall r1 r2 r3 : Row,
         Store r2 = Store r1 -> Store r3 = Store r1 ->
         Date r2 = Date r1 + 1 -> Date r3 = Date r1 + 2 ->
         field_value f r1 = 0 -> field_value f r2 <> 0 -> field_value f r3 = 0 ->
         After f [r1; r2; r3] = Some [Some 0; Some 0; Some 0] /\
         Before f [r1; r2; r3] = Some [Some 0; Some 0; Some 0]).
Proof.
  intros f df Hne.
  destruct (proximity_defined f df Hne) as [HA HB].
  eexists. eexists. split; [exact HA|]. split; [exact HB|].
  split; [|apply three_day_store].
  intros s sorted g after_s before_s date.
  pose proof (sort_values_Store_Date_sorted df) as Hsorted. fold sorted in Hsorted.
  destruct (proximity_per_store f s sorted Hsorted) as [EA EB].
  fold g in EA, EB. fold sorted in after_s, before_s.
  assert (Hafter : after_s = After_of f g (mask_rec true g)) by exact EA.
  assert (Hbefore : before_s = Before_of f g (mask_rec true g)) by exact EB.
  clear EA EB.
  assert (Hstore : forall x, In x g -> Store x = s).
  { intros x Hx. apply filter_In in Hx. now apply Z.eqb_eq. }
  split.
  { apply filter_perm. symmetry. apply sort_by_perm. }
  split; [now apply store_rows_date_sorted|].
  split; [reflexivity|].
  intros i Hi.
  destruct (nth_error g i) as [r|] eqn:Hr; [|apply nth_error_None in Hr; lia].
  assert (Hdate : forall n x, nth_error g n = Some x -> date n = Date x).
  { intros n x Hx. unfold date. apply nth_error_nth. now apply map_nth_error. }
  set (T := tmp_col f g (mask_rec true g)) in *.
  assert (HT : forall n x, nth_error g n = Some x ->
                 nth_error T n = Some (if carry_point f g n then Some (Date x) else None))
    by (intros n x Hx; now apply (tmp_col_one_store f s)).
  assert (HlenT : length T = length g) by apply tmp_col_length.
  assert (Hget : forall n, (n < length g)%nat -> exists x, nth_error g n = Some x).
  { intros n Hn. destruct (nth_error g n) eqn:E; [eauto|].
    apply nth_error_None in E. lia. }
  split.
  - destruct (ffill_from_nearest None T i ltac:(lia))
      as [[j [v [Hj [Hv [Hnone He]]]]]|[Hnone _]].
    + destruct (Hget j ltac:(lia)) as [rj Hrj].
      pose proof (HT j rj Hrj) as Htj. rewrite Hv in Htj.
      destruct (carry_point f g j) eqn:Hc; [|discriminate].
      injection Htj as ->.
      exists j. split; [exact Hj|]. split; [exact Hc|]. split.
      * intros k Hk. destruct (Hget k ltac:(lia)) as [rk Hrk].
        pose proof (HT k rk Hrk) as Htk. rewrite (Hnone k Hk) in Htk.
        destruct (carry_point f g k); [discriminate|reflexivity].
      * rewrite Hafter. unfold After_of. fold T.
        change (ffill_from None T) with (ffill T) in He.
        rewrite (nth_error_map _ i (combine g (ffill T))).
        rewrite (nth_error_combine _ _ i r (Some (Date rj)) Hr He).
        cbn [option_map fst snd]. now rewrite (Hdate i r Hr), (Hdate j rj Hrj).
    + exfalso. destruct (Hget 0%nat ltac:(lia)) as [r0 Hr0].
      pose proof (HT 0%nat r0 Hr0) as Ht0. rewrite (Hnone 0%nat ltac:(lia)) in Ht0.
      unfold carry_point in Ht0. cbn [Nat.eqb] in Ht0.
      rewrite orb_true_r in Ht0. discriminate.
  - destruct (bfill_nearest T i ltac:(lia))
      as [[j [v [Hj [Hv [Hnone He]]]]]|[Hnone _]].
    + assert (Hjlt : (j < length g)%nat).
      { rewrite <- HlenT. apply nth_error_Some. congruence. }
      destruct (Hget j Hjlt) as [rj Hrj].
      pose proof (HT j rj Hrj) as Htj. rewrite Hv in Htj.
      destruct (carry_point f g j) eqn:Hc; [|discriminate].
      injection Htj as ->.
      exists j. split; [lia|]. split; [exact Hc|]. split.
      * intros k Hk. destruct (Hget k ltac:(lia)) as [rk Hrk].
        pose proof (HT k rk Hrk) as Htk. rewrite (Hnone k Hk) in Htk.
        destruct (carry_point f g k); [discriminate|reflexivity].
      * rewrite Hbefore. unfold Before_of. fold T.
        rewrite (nth_error_map _ i (combine g (bfill T))).
        rewrite (nth_error_combine _ _ i r (Some (Date rj)) Hr He).
        cbn [option_map fst snd]. now rewrite (Hdate i r Hr), (Hdate j rj Hrj).
    + exfalso. set (n := (length g - 1)%nat).
      destruct (Hget n ltac:(lia)) as [rn Hrn].
      pose proof (HT n rn Hrn) as Htn.
      rewrite (Hnone n ltac:(lia)) in Htn.
      unfold carry_point in Htn.
      replace (Nat.eqb (S n) (length g)) with true in Htn
        by (symmetry; apply Nat.eqb_eq; lia).
      rewrite orb_true_r in Htn. discriminate.
Qed.

Lemma event_proximity_per_store_witness :
  After SchoolHoliday_f ex_union
    = Some [Some 0; Some 0; Some 1; Some 2; Some 0; Some 0; Some 1; Some 0] /\
  Before SchoolHoliday_f ex_union
    = Some [Some 0; Some 0; Some 4; Some 3; Some 0; Some 0; Some 1; Some 0] /\
  exists after before,
    After SchoolHoliday_f ex_union = Some after /\
    Before SchoolHoliday_f ex_union = Some before.
Proof.
  split; [reflexivity|]. split; [reflexivity|].
  destruct (event_proximity_per_store SchoolHoliday_f ex_union
              ltac:(discriminate)) as [after [before [Ha [Hb _]]]].
  exists after, before. split; assumption.
Defined.

(* ================================================================== *)
(** ** Proofs, part III: rolling sums                                  *)
(* ================================================================== *)

Lemma insert_key_In (x k : Z) (l : list Z) :
  In x (insert_key k l) <-> x = k \/ In x l.
Proof.
  induction l as [|y l IH]; simpl; [intuition|].
  destruct (Z.ltb_spec k y); [simpl; intuition|].
  destruct (Z.eqb_spec k y) as [->|Hne]; simpl; [intuition|].
  rewrite IH. intuition.
Qed.

Lemma insert_key_sorted (k : Z) (l : list Z) :
  StronglySorted Z.lt l -> StronglySorted Z.lt (insert_key k l).
Proof.
  induction 1 as [|y l Hs IH Hy]; simpl; [repeat constructor|].
  destruct (Z.ltb_spec k y) as [Hlt|Hge].
  - constructor; [now constructor|]. constructor; [exact Hlt|].
    eapply Forall_impl; [|exact Hy]. intros z Hz. lia.
  - destruct (Z.eqb_spec k y) as [->|Hne]; [now constructor|].
    constructor; [exact IH|].
    apply Forall_forall. intros z Hz. apply insert_key_In in Hz.
    destruct Hz as [->|Hz]; [lia|]. rewrite Forall_forall in Hy. now apply Hy.
Qed.

Lemma group_keys_sorted (df : list Row) : StronglySorted Z.lt (group_keys df).
Proof.
  unfold group_keys. induction (map Store df) as [|k ks IH]; simpl; [constructor|].
  now apply insert_key_sorted.
Qed.

Lemma group_keys_In (df : list Row) (s : Z) :
  In s (group_keys df) <-> exists r, In r df /\ Store r = s.
Proof.
  unfold group_keys. induction df as [|r df IH]; simpl.
  - split; [intros [] | intros [r [[] _]]].
  - rewrite insert_key_In, IH. split.
    + intros [->|[x [Hx Hs]]]; [exists r; auto | exists x; auto].
    + intros [x [[<-|Hx] Hs]]; [now left | right; now exists x].
Qed.

(** Of the groups laid side by side, a filter on the key keeps one. *)
Lemma filter_groups {X : Type} (key : X -> Z) (F : Z -> list X) (s : Z) (keys : list Z) :
  StronglySorted Z.lt keys ->
  (forall k x, In x (F k) -> key x = k) ->
  (~ In s keys -> F s = []) ->
  filter (fun x => key x =? s) (flat_map F keys) = F s.
Proof.
  intros Hs Hkey. induction Hs as [|k keys Hs IH Hk]; intros Hnone.
  - simpl. symmetry. apply Hnone. intros [].
  - simpl. rewrite filter_app.
    destruct (Z.eq_dec k s) as [->|Hne].
    + rewrite (filter_all _ (F s))
        by (intros x Hx; apply Z.eqb_eq; now apply Hkey).
      assert (Hrest : filter (fun x => key x =? s) (flat_map F keys) = []).
      { apply filter_nil_iff. intros x Hx. apply in_flat_map in Hx.
        destruct Hx as [k' [Hk' Hx]]. apply Z.eqb_neq.
        rewrite (Hkey k' x Hx). rewrite Forall_forall in Hk.
        specialize (Hk k' Hk'). lia. }
      rewrite Hrest. apply app_nil_r.
    + assert (Hthis : filter (fun x => key x =? s) (F k) = []).
      { apply filter_nil_iff. intros x Hx. apply Z.eqb_neq.
        now rewrite (Hkey k x Hx). }
      rewrite Hthis. simpl. apply IH.
      intros Hn. apply Hnone. intros [H|H]; [congruence|contradiction].
Qed.

Lemma rolling_sum_length (w m : nat) (xs : list (option Z)) :
  length (rolling_sum w m xs) = length xs.
Proof. unfold rolling_sum. now rewrite length_map, length_seq. Qed.

Lemma rolling_col_length (f : event_field) (g : list Row) :
  length (rolling_col f g) = length g.
Proof. unfold rolling_col. now rewrite rolling_sum_length, length_map. Qed.

Lemma zip_roll_spec (g : list Row) (a b c : list (option Z)) :
  length a = length g -> length b = length g -> length c = length g ->
  map r_Store (zip_roll g a b c) = map Store g /\
  map r_Date (zip_roll g a b c) = map Date g /\
  map r_SchoolHoliday (zip_roll g a b c) = a /\
  map r_StateHoliday (zip_roll g a b c) = b /\
  map r_Promo (zip_roll g a b c) = c.
Proof.
  revert a b c. induction g as [|r g IH]; intros [|x a] [|y b] [|z c] Ha Hb Hc;
    simpl in *; try discriminate; [repeat split|].
  injection Ha as Ha. injection Hb as Hb. injection Hc as Hc.
  destruct (IH a b c Ha Hb Hc) as [H1 [H2 [H3 [H4 H5]]]].
  rewrite H1, H2, H3, H4, H5. repeat split.
Qed.

(** The rows of [bwd] / [fwd] that belong to store [s] are the store's rows
    of the date-ordered table, each with its three rolling sums. *)
Lemma groupby_Store_rolling_store (d : list Row) (s : Z) (f : event_field) :
  let g := filter (fun r => Store r =? s) d in
  let out := filter (fun r => r_Store r =? s) (groupby_Store_rolling d) in
  map r_Date out = map Date g /\ map (rolled f) out = rolling_col f g.
Proof.
  intros g out.
  assert (E : out = zip_roll g (rolling_col SchoolHoliday_f g)
                             (rolling_col StateHoliday_f g)
                             (rolling_col Promo_f g)).
  { unfold out, groupby_Store_rolling.
    apply (filter_groups r_Store
             (fun k => let g := filter (fun r => Store r =? k) d in
                       zip_roll g (rolling_col SchoolHoliday_f g)
                                  (rolling_col StateHoliday_f g)
                                  (rolling_col Promo_f g))).
    - apply group_keys_sorted.
    - intros k x Hx. cbv zeta in Hx.
      set (gk := filter (fun r => Store r =? k) d) in *.
      destruct (zip_roll_spec gk _ _ _ (rolling_col_length SchoolHoliday_f gk)
                  (rolling_col_length StateHoliday_f gk)
                  (rolling_col_length Promo_f gk)) as [H1 _].
      assert (Hin : In (r_Store x) (map Store gk))
        by (rewrite <- H1; now apply in_map).
      apply in_map_iff in Hin. destruct Hin as [r [Hr Hrin]].
      apply filter_In in Hrin. destruct Hrin as [_ Hrk]. apply Z.eqb_eq in Hrk.
      congruence.
    - intros Hnot. cbv zeta.
      assert (Hnil : filter (fun r => Store r =? s) d = []).
      { apply filter_nil_iff. intros r Hr. apply Z.eqb_neq. intros Hs.
        apply Hnot. apply group_keys_In. now exists r. }
      now rewrite Hnil. }
  destruct (zip_roll_spec g _ _ _ (rolling_col_length SchoolHoliday_f g)
              (rolling_col_length StateHoliday_f g)
              (rolling_col_length Promo_f g)) as [_ [H2 [H3 [H4 H5]]]].
  rewrite E. split; [exact H2|].
  destruct f; cbn [rolled].
  - rewrite <- H3 at 2. apply map_ext. reflexivity.
  - rewrite <- H4 at 2. apply map_ext. reflexivity.
  - rewrite <- H5 at 2. apply map_ext. reflexivity.
Qed.

Lemma valid_obs_Some (xs : list Z) : valid_obs (map Some xs) = xs.
Proof. induction xs as [|x xs IH]; simpl; [reflexivity|]. now rewrite IH. Qed.

Lemma sumZ_app (xs ys : list Z) : sumZ (xs ++ ys) = sumZ xs + sumZ ys.
Proof. unfold sumZ. induction xs as [|x xs IH]; simpl; [reflexivity|]. lia. Qed.

Lemma sumZ_rev (xs : list Z) : sumZ (rev xs) = sumZ xs.
Proof.
  induction xs as [|x xs IH]; simpl; [reflexivity|].
  rewrite sumZ_app, IH. unfold sumZ. simpl. lia.
Qed.

Lemma list_as_indices (xs : list Z) :
  xs = map (fun j => nth j xs 0) (seq 0 (length xs)).
Proof.
  induction xs as [|x xs IH]; [reflexivity|].
  cbn [length seq map nth]. f_equal.
  rewrite <- seq_shift, map_map. exact IH.
Qed.

Lemma filter_seq_range (a b n : nat) :
  filter (fun j => Nat.leb a j && Nat.ltb j b)%bool (seq 0 n)
  = seq a (Nat.min b n - a).
Proof.
  induction n as [|n IH]; [now rewrite Nat.min_0_r|].
  rewrite seq_S, filter_app, IH. cbn [filter Nat.add].
  destruct (Nat.leb_spec a n) as [Han|Han]; cbn [andb].
  - destruct (Nat.ltb_spec n b) as [Hnb|Hnb].
    + replace (Nat.min b (S n) - a)%nat with (S (Nat.min b n - a)) by lia.
      rewrite seq_S. do 2 f_equal. lia.
    + rewrite app_nil_r. f_equal. lia.
  - rewrite app_nil_r. f_equal. lia.
Qed.

Lemma firstn_of_seq (n start len : nat) :
  firstn n (seq start len) = seq start (Nat.min n len).
Proof.
  revert start len. induction n as [|n IH]; intros start [|len]; simpl;
    try reflexivity.
  now rewrite IH.
Qed.

(** A window cut out with [firstn] / [skipn] is the entries whose index
    lies in the window. *)
Lemma window_as_indices (xs : list Z) (a b : nat) :
  skipn a (firstn b xs)
  = map (fun j => nth j xs 0)
        (filter (fun j => Nat.leb a j && Nat.ltb j b)%bool (seq 0 (length xs))).
Proof.
  rewrite filter_seq_range.
  rewrite (list_as_indices xs) at 1.
  rewrite firstn_map, skipn_map, firstn_of_seq, skipn_seq. reflexivity.
Qed.

(** Entry [i] of a rolling sum over flags that are all present: never
    missing, the sum of the window. *)
Lemma rolling_col_nth (f : event_field) (g : list Row) (i : nat) :
  (i < length g)%nat ->
  nth_error (rolling_col f g) i
  = Some (Some (sumZ (skipn (i + 1 - 7) (firstn (i + 1) (map (field_value f) g))))).
Proof.
  intros Hi. unfold rolling_col, rolling_sum. rewrite length_map.
  rewrite nth_error_map, nth_error_seq.
  destruct (Nat.ltb_spec i (length g)) as [_|Hge]; [|lia].
  cbn [option_map Nat.add]. f_equal.
  rewrite <- (map_map (field_value f) Some).
  rewrite firstn_map, skipn_map, valid_obs_Some.
  set (w := skipn (i + 1 - 7) (firstn (i + 1) (map (field_value f) g))).
  assert (Hw : (1 <= length w)%nat).
  { unfold w. rewrite length_skipn, length_firstn, length_map. lia. }
  destruct (Nat.leb_spec 1 (length w)); [reflexivity | lia].
Qed.

(** The same window, read from the other end of the store's rows: the
    trailing window of a row in descending order is its leading window in
    ascending order. *)
Lemma trailing_of_reversed (xs : list Z) (i : nat) :
  (i < length xs)%nat ->
  let p := (length xs - 1 - i)%nat in
  sumZ (skipn (p + 1 - 7) (firstn (p + 1) (rev xs)))
  = sumZ (skipn i (firstn (i + 7) xs)).
Proof.
  intros Hi p.
  rewrite firstn_rev. replace (length xs - (p + 1))%nat with i by lia.
  rewrite skipn_rev, sumZ_rev, length_skipn.
  rewrite <- firstn_skipn_comm.
  destruct (Nat.le_gt_cases 6 p) as [H6|H6].
  - replace (length xs - i - (p + 1 - 7))%nat with 7%nat by lia. reflexivity.
  - replace (length xs - i - (p + 1 - 7))%nat with (length (skipn i xs))
      by (rewrite length_skipn; lia).
    rewrite firstn_all. f_equal. symmetry. apply firstn_all2.
    rewrite length_skipn. lia.
Qed.

Lemma StronglySorted_filter {A : Type} (R : A -> A -> Prop) (p : A -> bool) (l : list A) :
  StronglySorted R l -> StronglySorted R (filter p l).
Proof.
  induction 1 as [|x l Hs IH Hx]; simpl; [constructor|].
  destruct (p x); [|exact IH]. constructor; [exact IH|].
  apply Forall_forall. intros y Hy. apply filter_In in Hy.
  rewrite Forall_forall in Hx. now apply Hx.
Qed.

Lemma date_geb_total (a b : Row) : date_geb a b = true \/ date_geb b a = true.
Proof. unfold date_geb. rewrite !Z.leb_le. lia. Qed.

Lemma date_geb_trans (a b c : Row) :
  date_geb a b = true -> date_geb b c = true -> date_geb a c = true.
Proof. unfold date_geb. rewrite !Z.leb_le. lia. Qed.

(** C6.  For every store [s] and event field [f]: the rows of [bwd] for
    [s] are the store's rows in ascending date order, and the value of row
    [i] is the sum of the flag over the store's rows [j] with
    [i - 6 <= j <= i]; the rows of [fwd] for [s] are the store's rows in
    descending date order, and read in ascending order the value of row [i]
    is the sum of the flag over the rows [j] with [i <= j <= i + 6].  Only
    rows the store has enter a window, and no value is missing. *)
Theorem rolling_sums_per_store :
  forall (df : list Row) (s : Z) (f : event_field),
    let asc := filter (fun r => Store r =? s) (sort_index true df) in
    let desc := filter (fun r => Store r =? s) (sort_index false df) in
    let bwd_s := filter (fun r => r_Store r =? s) (bwd df) in
    let fwd_s := filter (fun r => r_Store r =? s) (fwd df) in
    let flag := fun (g : list Row) (j : nat) => nth j (map (field_value f) g) 0 in
    (Permutation asc (filter (fun r => Store r =? s) df) /\
     Sorted (fun a b => Date a <= Date b) asc) /\
    (Permutation desc (filter (fun r => Store r =? s) df) /\
     Sorted (fun a b => Date b <= Date a) desc) /\
    map r_Date bwd_s = map Date asc /\
    map r_Date fwd_s = map Date desc /\
    (forall i, (i < length asc)%nat ->
       nth_error (map (rolled f) bwd_s) i
       = Some (Some (sumZ (map (flag asc)
                               (filter (fun j => Nat.leb i (j + 6) && Nat.leb j i)%bool
                                       (seq 0 (length asc))))))) /\
    (forall i, (i < length desc)%nat ->
       nth_error (rev (map (rolled f) fwd_s)) i
       = Some (Some (sumZ (map (flag (rev desc))
                               (filter (fun j => Nat.leb i j && Nat.leb j (i + 6))%bool
                                       (seq 0 (length desc))))))) /\
    (forall r, In r (bwd df) \/ In r (fwd df) -> rolled f r <> None).
Proof.
  intros df s f asc desc bwd_s fwd_s flag.
  destruct (groupby_Store_rolling_store (sort_index true df) s f) as [Hbd Hbv].
  destruct (groupby_Store_rolling_store (sort_index false df) s f) as [Hfd Hfv].
  fold asc in Hbd, Hbv. fold desc in Hfd, Hfv.
  change (filter (fun r => r_Store r =? s) (groupby_Store_rolling (sort_index true df)))
    with bwd_s in Hbd, Hbv.
  change (filter (fun r => r_Store r =? s) (groupby_Store_rolling (sort_index false df)))
    with fwd_s in Hfd, Hfv.
  split.
  { split.
    - apply filter_perm. symmetry. apply sort_by_perm.
    - apply StronglySorted_Sorted.
      assert (H : StronglySorted (le_of date_leb) asc).
      { apply StronglySorted_filter.
        apply sort_by_sorted; [apply date_leb_total | apply date_leb_trans]. }
      clear -H. induction H as [|x l Hs IH Hx]; constructor; [exact IH|].
      eapply Forall_impl; [|exact Hx]. intros y Hy. now apply Z.leb_le. }
  split.
  { split.
    - apply filter_perm. symmetry. apply sort_by_perm.
    - apply StronglySorted_Sorted.
      assert (H : StronglySorted (le_of date_geb) desc).
      { apply StronglySorted_filter.
        apply sort_by_sorted; [apply date_geb_total | apply date_geb_trans]. }
      clear -H. induction H as [|x l Hs IH Hx]; constructor; [exact IH|].
      eapply Forall_impl; [|exact Hx]. intros y Hy. now apply Z.leb_le. }
  split; [exact Hbd|]. split; [exact Hfd|].
  split; [|split].
  - intros i Hi. rewrite Hbv, (rolling_col_nth f asc i Hi). do 2 f_equal.
    rewrite window_as_indices, length_map. unfold flag. do 2 f_equal.
    apply filter_ext. intros j. f_equal.
    + destruct (Nat.leb_spec (i + 1 - 7) j), (Nat.leb_spec i (j + 6)); try reflexivity; lia.
    + destruct (Nat.ltb_spec j (i + 1)), (Nat.leb_spec j i); try reflexivity; lia.
  - intros i Hi. rewrite Hfv.
    rewrite nth_error_rev, rolling_col_length.
    destruct (Nat.ltb_spec i (length desc)) as [_|Hge]; [|lia].
    rewrite (rolling_col_nth f desc) by lia. do 2 f_equal.
    replace (map (field_value f) desc) with (rev (map (field_value f) (rev desc)))
      by (now rewrite <- map_rev, rev_involutive).
    assert (Hlen : length (map (field_value f) (rev desc)) = length desc)
      by (now rewrite length_map, length_rev).
    replace (length desc - S i)%nat
      with (length (map (field_value f) (rev desc)) - 1 - i)%nat by lia.
    rewrite trailing_of_reversed by lia.
    rewrite window_as_indices, Hlen. unfold flag. do 2 f_equal.
    apply filter_ext. intros j. f_equal.
    destruct (Nat.ltb_spec j (i + 7)), (Nat.leb_spec j (i + 6)); try reflexivity; lia.
  - intros r Hr Hnone.
    assert (Hall : forall d, In r (groupby_Store_rolling d) -> False).
    { intros d Hin.
      destruct (groupby_Store_rolling_store d (r_Store r) f) as [_ Hv].
      set (g := filter (fun x => Store x =? r_Store r) d) in *.
      assert (Hmem : In (rolled f r) (rolling_col f g)).
      { rewrite <- Hv. apply in_map. apply filter_In. split; [exact Hin|].
        apply Z.eqb_refl. }
      apply In_nth_error in Hmem. destruct Hmem as [i Hi].
      assert (Hlt : (i < length g)%nat).
      { rewrite <- (rolling_col_length f g). apply nth_error_Some. congruence. }
      rewrite (rolling_col_nth f g i Hlt) in Hi. congruence. }
    destruct Hr as [Hr|Hr]; [apply (Hall (sort_index true df)) | apply (Hall (sort_index false df))];
      exact Hr.
Qed.

Lemma rolling_sums_per_store_witness :
  map r_Promo (bwd ex_nine_days)
    = map Some [1; 2; 3; 4; 5; 6; 7; 7; 7] /\
  map r_Promo (rev (fwd ex_nine_days))
    = map Some [7; 7; 7; 6; 5; 4; 3; 2; 1] /\
  nth_error (map (rolled Promo_f) (filter (fun r => r_Store r =? 5) (bwd ex_nine_days))) 1
    = Some (Some 2).
Proof.
  split; [reflexivity|]. split; [reflexivity|].
  destruct (rolling_sums_per_store ex_nine_days 5 Promo_f)
    as [_ [_ [_ [_ [H _]]]]].
  exact (H 1%nat ltac:(simpl; lia)).
Defined.

(* ================================================================== *)
(** ** Further properties of the left-join utility                     *)
(* ================================================================== *)

Lemma merged_row_width (L R : DataFrame) (lo ro : list string) (sfx : string)
    (li ri : list nat) (o : list value) :
  wf_frame L -> wf_frame R ->
  In o (flat_map (join_row li ri (right_keep lo ro R) R) (rows L)) ->
  length o = length (merge_columns L R lo ro sfx).
Proof.
  intros HL HR Ho.
  pose proof (merged_rows_shape li ri (right_keep lo ro R) R (rows L)) as HS.
  rewrite Forall_forall in HS. destruct (HS o Ho) as [l [rp [Hl [-> Hp]]]].
  unfold merge_columns. rewrite !length_app, length_map.
  rewrite (right_part_length li ri lo ro R l rp HR Hp).
  unfold wf_frame in HL. rewrite Forall_forall in HL. now rewrite (HL l Hl).
Qed.

(** X1.  The result of [left.merge] on two well-formed tables is well formed:
    every output row has exactly one cell per output column, with or
    without a suffix. *)
Theorem left_merge_well_formed :
  forall (left right : DataFrame) (left_on : on_arg) (right_on : option on_arg)
         (suffix : option string) (out : DataFrame),
    wf_frame left -> wf_frame right ->
    LeftMerger_merge left right left_on right_on suffix = Some out ->
    wf_frame out.
Proof.
  intros L R lo ro suffix out HL HR Hm.
  assert (Hcase : rows L = [] \/ rows L <> [])
    by (destruct (rows L); [now left | right; discriminate]).
  destruct Hcase as [Hrows|Hne].
  { unfold wf_frame. rewrite (merge_empty_rows L R lo ro suffix out Hrows Hm).
    constructor. }
  unfold LeftMerger_merge in Hm.
  destruct (pd_merge_left _ _ _ _ _) as [df|] eqn:E; [|discriminate].
  apply (pd_merge_left_inv _ _ _ _ _ _ Hne) in E.
  destruct E as [li [ri [_ [_ ->]]]].
  assert (Hw : forall o,
             In o (flat_map (join_row li ri
                     (right_keep (on_keys lo) (on_keys (or_on ro lo)) R) R) (rows L)) ->
             length o = length (merge_columns L R (on_keys lo)
                                  (on_keys (or_on ro lo)) (or_suffix suffix)))
    by (intros o; now apply merged_row_width).
  destruct suffix as [s|]; injection Hm as <-.
  - unfold wf_frame. cbn [rows columns]. apply Forall_forall. exact Hw.
  - rewrite drop_columns_regex. unfold wf_frame. cbn [rows columns].
    apply Forall_forall. intros o Ho. apply in_map_iff in Ho.
    destruct Ho as [o' [<- Ho']].
    rewrite <- select_map_filter. apply select_length. now apply Hw.
Qed.

Lemma left_merge_well_formed_witness :
  exists out,
    LeftMerger_merge ex_left ex_right_dup (OnStr "k") None None = Some out /\
    wf_frame out.
Proof.
  eexists. split; [reflexivity|].
  refine (left_merge_well_formed ex_left ex_right_dup (OnStr "k") None None _ _ _ eq_refl);
    repeat constructor.
Defined.

Lemma join_row_length (li ri : list nat) (keep : list bool) (R : DataFrame)
    (l : list value) :
  length (join_row li ri keep R l) = Nat.max 1 (match_count li ri R l).
Proof.
  unfold join_row, match_count.
  destruct (filter _ (rows R)) as [|m ms]; [reflexivity|].
  rewrite length_map. simpl. reflexivity.
Qed.

Lemma flat_map_length_sum {A B : Type} (F : A -> list B) (xs : list A) :
  length (flat_map F xs) = list_sum (map (fun x => length (F x)) xs).
Proof.
  induction xs as [|x xs IH]; simpl; [reflexivity|].
  now rewrite length_app, IH.
Qed.

Lemma list_sum_ge_length (f : list value -> nat) (xs : list (list value)) :
  (forall x, 1 <= f x)%nat -> (length xs <= list_sum (map f xs))%nat.
Proof.
  intros H. induction xs as [|x xs IH]; simpl; [lia|].
  specialize (H x). lia.
Qed.

(** X2.  The row count of [left.merge]: every left row contributes as many
    output rows as right rows carry its key, and one row when none does.  So
    the result never has fewer rows than the left table, and a left row
    matched [k] times appears [k] times. *)
Theorem left_merge_row_count :
  forall (left right : DataFrame) (left_on : on_arg) (right_on : option on_arg)
         (suffix : option string) (out : DataFrame) (li ri : list nat),
    col_indices (on_keys left_on) (columns left) = Some li ->
    col_indices (on_keys (or_on right_on left_on)) (columns right) = Some ri ->
    LeftMerger_merge left right left_on right_on suffix = Some out ->
    length (rows out)
      = list_sum (map (fun l => Nat.max 1 (match_count li ri right l)) (rows left)) /\
    (length (rows left) <= length (rows out))%nat.
Proof.
  intros L R lo ro suffix out li ri Hli Hri Hm.
  assert (Hcase : rows L = [] \/ rows L <> [])
    by (destruct (rows L); [now left | right; discriminate]).
  destruct Hcase as [Hrows|Hne].
  { rewrite (merge_empty_rows L R lo ro suffix out Hrows Hm), Hrows.
    split; [reflexivity|]. simpl. lia. }
  unfold LeftMerger_merge in Hm.
  destruct (pd_merge_left _ _ _ _ _) as [df|] eqn:E; [|discriminate].
  apply (pd_merge_left_inv _ _ _ _ _ _ Hne) in E.
  destruct E as [li' [ri' [Hli' [Hri' ->]]]].
  rewrite Hli in Hli'. rewrite Hri in Hri'.
  injection Hli' as <-. injection Hri' as <-.
  assert (Hlen : length (rows out)
                 = list_sum (map (fun l => Nat.max 1 (match_count li ri R l)) (rows L))).
  { destruct suffix as [s|]; injection Hm as <-.
    - cbn [rows]. rewrite flat_map_length_sum. f_equal. apply map_ext.
      intros l. apply join_row_length.
    - unfold drop_columns. cbn [rows]. rewrite length_map, flat_map_length_sum.
      f_equal. apply map_ext. intros l. apply join_row_length. }
  split; [exact Hlen|]. rewrite Hlen. apply list_sum_ge_length. intros x. lia.
Qed.

Lemma left_merge_row_count_witness :
  exists out,
    LeftMerger_merge ex_plain_left ex_right_dup (OnStr "k") None (Some "_r") = Some out /\
    length (rows out) = 3%nat.
Proof.
  eexists. split; [reflexivity|].
  exact (proj1 (left_merge_row_count ex_plain_left ex_right_dup (OnStr "k") None
                  (Some "_r") _ [0%nat] [0%nat] eq_refl eq_refl eq_refl)).
Defined.

Lemma NoDup_map_inj_in {A B : Type} (f : A -> B) (xs : list A) (a b : A) :
  NoDup (map f xs) -> In a xs -> In b xs -> f a = f b -> a = b.
Proof.
  induction xs as [|x xs IH]; simpl; intros Hnd Ha Hb Hf; [contradiction|].
  inversion Hnd as [|? ? Hnot Hnd']; subst.
  destruct Ha as [<-|Ha], Hb as [<-|Hb]; try reflexivity.
  - exfalso. apply Hnot. rewrite Hf. now apply in_map.
  - exfalso. apply Hnot. rewrite <- Hf. now apply in_map.
  - now apply IH.
Qed.

Lemma join_row_matched (li ri : list nat) (keep : list bool) (R : DataFrame)
    (l r : list value) :
  NoDup (map (key_at ri) (rows R)) ->
  In r (rows R) -> key_at li l = key_at ri r ->
  join_row li ri keep R l = [l ++ select keep r].
Proof.
  intros Hnd Hr Hk. unfold join_row.
  assert (Hin : In r (filter (fun r0 => key_eqb (key_at li l) (key_at ri r0)) (rows R))).
  { apply filter_In. split; [exact Hr|]. now apply key_eqb_eq. }
  destruct (filter_unique_key (key_at ri) (key_at li l) (rows R) Hnd) as [F|[r' F]];
    rewrite F in *; [contradiction|].
  destruct Hin as [->|[]]. reflexivity.
Qed.

Lemma flat_map_singletons_nth {A B : Type} (F : A -> list B) (g : A -> B)
    (xs : list A) (i : nat) (x : A) :
  (forall y, In y xs -> exists b, F y = [b]) ->
  nth_error xs i = Some x -> F x = [g x] ->
  nth_error (flat_map F xs) i = Some (g x).
Proof.
  revert i. induction xs as [|y xs IH]; intros i Hall Hx Hg; [now destruct i|].
  destruct i as [|i]; simpl in Hx.
  - injection Hx as ->. simpl. now rewrite Hg.
  - destruct (Hall y (or_introl eq_refl)) as [b Hb]. simpl. rewrite Hb. simpl.
    apply IH; try assumption. intros z Hz. apply Hall. now right.
Qed.

(** X3.  Lookup through [left.merge]: when no two right rows carry the same
    key and right row [r] carries the key of left row [i], output row [i] is
    that left row followed by the cells of [r] outside the keys shared by
    name (less, without a suffix, the cells under names matching [_y$]). *)
Theorem left_merge_matched_row :
  forall (left right : DataFrame) (left_on : on_arg) (right_on : option on_arg)
         (suffix : option string) (out : DataFrame) (li ri : list nat)
         (i : nat) (l r : list value),
    col_indices (on_keys left_on) (columns left) = Some li ->
    col_indices (on_keys (or_on right_on left_on)) (columns right) = Some ri ->
    NoDup (map (key_at ri) (rows right)) ->
    LeftMerger_merge left right left_on right_on suffix = Some out ->
    nth_error (rows left) i = Some l ->
    In r (rows right) ->
    key_at li l = key_at ri r ->
    let keys_l := on_keys left_on in
    let keys_r := on_keys (or_on right_on left_on) in
    let joined := l ++ select (right_keep keys_l keys_r right) r in
    nth_error (rows out) i
    = Some (match suffix with
            | Some _ => joined
            | None =>
                select (map (fun c => negb (regex_y c))
                            (merge_columns left right keys_l keys_r "_y"))
                       joined
            end).
Proof.
  intros L R lo ro suffix out li ri i l r Hli Hri Hnd Hm Hl Hr Hk keys_l keys_r joined.
  assert (Hne : rows L <> []).
  { intros He. rewrite He in Hl. now destruct i. }
  unfold LeftMerger_merge in Hm.
  destruct (pd_merge_left _ _ _ _ _) as [df|] eqn:E; [|discriminate].
  apply (pd_merge_left_inv _ _ _ _ _ _ Hne) in E.
  destruct E as [li' [ri' [Hli' [Hri' ->]]]].
  rewrite Hli in Hli'. rewrite Hri in Hri'.
  injection Hli' as <-. injection Hri' as <-.
  fold keys_l keys_r in Hm.
  set (keep := right_keep keys_l keys_r R) in *.
  assert (Hrow : nth_error (flat_map (join_row li ri keep R) (rows L)) i = Some joined).
  { apply (flat_map_singletons_nth (join_row li ri keep R)
             (fun _ => joined) (rows L) i l); try assumption.
    - intros y _. destruct (join_row_unique li ri keep R y Hnd) as [rp [Hj _]].
      now exists (y ++ rp).
    - now apply join_row_matched. }
  destruct suffix as [s|]; injection Hm as <-.
  - exact Hrow.
  - rewrite drop_columns_regex. cbn [rows columns or_suffix].
    rewrite nth_error_map, Hrow. reflexivity.
Qed.

Lemma left_merge_matched_row_witness :
  option_map (fun out => nth_error (rows out) 1)
    (LeftMerger_merge ex_plain_left ex_right_two_keys (OnStr "k") None (Some "_r"))
  = Some (Some [VInt 2; VInt 8; VInt 20; VStr "v"]).
Proof.
  destruct (LeftMerger_merge ex_plain_left ex_right_two_keys (OnStr "k") None (Some "_r"))
    as [out|] eqn:E; [|discriminate E].
  simpl. f_equal.
  refine (left_merge_matched_row ex_plain_left ex_right_two_keys (OnStr "k") None
            (Some "_r") out [0%nat] [0%nat] 1 [VInt 2; VInt 8]
            [VInt 2; VInt 20; VStr "v"] eq_refl eq_refl _ E eq_refl _ eq_refl).
  - repeat constructor; simpl; intuition discriminate.
  - left. reflexivity.
Defined.

Lemma col_index_None (c : string) (cs : list string) :
  ~ In c cs -> col_index c cs = None.
Proof.
  induction cs as [|c' cs IH]; simpl; intros H; [reflexivity|].
  destruct (String.eqb c c') eqn:E.
  - apply String.eqb_eq in E. exfalso. apply H. now left.
  - rewrite IH; [reflexivity|]. intros Hin. apply H. now right.
Qed.

Lemma col_indices_None (ks cs : list string) (k : string) :
  In k ks -> ~ In k cs -> col_indices ks cs = None.
Proof.
  induction ks as [|k' ks IH]; simpl; intros Hk Hn; [contradiction|].
  destruct Hk as [->|Hk].
  - now rewrite (col_index_None k cs Hn).
  - rewrite (IH Hk Hn). now destruct (col_index k' cs).
Qed.

(** X4.  [left.merge] raises, and returns no table, when a join key is not a
    column of its table (a left key missing from the left table or a right
    key missing from the right table, [right_on] defaulting to [left_on]) or
    when the two key lists differ in length. *)
Theorem left_merge_bad_keys :
  forall (left right : DataFrame) (left_on : on_arg) (right_on : option on_arg)
         (suffix : option string),
    let keys_l := on_keys left_on in
    let keys_r := on_keys (or_on right_on left_on) in
    (exists k, In k keys_l /\ ~ In k (columns left)) \/
    (exists k, In k keys_r /\ ~ In k (columns right)) \/
    length keys_l <> length keys_r ->
    LeftMerger_merge left right left_on right_on suffix = None.
Proof.
  intros L R lo ro suffix keys_l keys_r H.
  unfold LeftMerger_merge. fold keys_l keys_r.
  assert (E : pd_merge_left L R keys_l keys_r (or_suffix suffix) = None).
  { unfold pd_merge_left.
    destruct (Nat.eqb (length keys_l) 0 || negb (Nat.eqb (length keys_l) (length keys_r)))%bool
      eqn:Eg; [reflexivity|].
    apply orb_false_iff in Eg. destruct Eg as [_ Eg].
    apply negb_false_iff, Nat.eqb_eq in Eg.
    destruct H as [[k [Hk Hn]]|[[k [Hk Hn]]|Hlen]].
    - now rewrite (col_indices_None keys_l (columns L) k Hk Hn).
    - rewrite (col_indices_None keys_r (columns R) k Hk Hn).
      now destruct (col_indices keys_l (columns L)).
    - contradiction. }
  now rewrite E.
Qed.

Lemma left_merge_bad_keys_witness :
  LeftMerger_merge ex_plain_left ex_right (OnStr "b") None None = None /\
  LeftMerger_merge ex_plain_left ex_right (OnStr "k") (Some (OnStr "zip")) None = None /\
  LeftMerger_merge ex_plain_left ex_right (OnList ["k"; "x"]) (Some (OnStr "k")) None = None.
Proof.
  split; [|split].
  - apply left_merge_bad_keys. left. exists "b". split; [now left|].
    simpl. intuition discriminate.
  - apply left_merge_bad_keys. right. left. exists "zip". split; [now left|].
    simpl. intuition discriminate.
  - apply left_merge_bad_keys. right. right. simpl. discriminate.
Defined.

Lemma merge_columns_rename (L R : DataFrame) (lo ro : list string) (sfx : string) :
  merge_columns L R lo ro sfx
  = columns L ++
    map (fun c => if mem c (columns L) then String.append c sfx else c)
        (filter (fun c => negb (mem c (shared_keys lo ro))) (columns R)).
Proof.
  unfold merge_columns, right_keep. rewrite select_map_filter. f_equal.
  apply map_ext_in. intros c Hc. unfold add_rsuffix.
  assert (Hmem : mem c (filter (fun c0 => negb (mem c0 (shared_keys lo ro))) (columns R))
                 = true) by now apply mem_In.
  now rewrite Hmem, andb_true_r.
Qed.

(** X5.  An empty-string suffix is not "no suffix": [suffix or '_y'] turns
    it into [_y] while [suffix is None] is false, so on a left table with
    rows colliding right columns come out renamed with [_y] and nothing is
    dropped, not even columns whose own name ends in [_y]. *)
Theorem left_merge_empty_suffix :
  forall (left right : DataFrame) (left_on : on_arg) (right_on : option on_arg)
         (out : DataFrame),
    rows left <> [] ->
    LeftMerger_merge left right left_on right_on (Some EmptyString) = Some out ->
    let shared := shared_keys (on_keys left_on) (on_keys (or_on right_on left_on)) in
    columns out
    = columns left ++
      map (fun c => if mem c (columns left) then String.append c "_y" else c)
          (filter (fun c => negb (mem c shared)) (columns right)) /\
    (forall c, In c (columns left) -> In c (columns out)) /\
    (forall c, In c (columns right) -> In c (columns left) -> ~ In c shared ->
               In (String.append c "_y") (columns out)).
Proof.
  intros L R lo ro out Hrows Hm shared. unfold LeftMerger_merge in Hm.
  destruct (pd_merge_left _ _ _ _ _) as [df|] eqn:E; [|discriminate].
  apply (pd_merge_left_inv _ _ _ _ _ _ Hrows) in E.
  destruct E as [li [ri [_ [_ ->]]]].
  injection Hm as <-. cbn [columns or_suffix String.eqb].
  rewrite merge_columns_rename. fold shared.
  split; [reflexivity|]. split.
  - intros c Hc. apply in_or_app. now left.
  - intros c HcR HcL Hns. apply in_or_app. right. apply in_map_iff.
    exists c. split.
    + apply mem_In in HcL. now rewrite HcL.
    + apply filter_In. split; [exact HcR|]. apply negb_true_iff. now apply mem_false.
Qed.

Lemma left_merge_empty_suffix_witness :
  option_map columns
    (LeftMerger_merge ex_left ex_right (OnStr "k") None (Some EmptyString))
  = Some ["k"; "a_y"; "x"; "x_y"; "b"].
Proof.
  destruct (LeftMerger_merge ex_left ex_right (OnStr "k") None (Some EmptyString))
    as [out|] eqn:E; [|discriminate E].
  simpl. f_equal.
  refine (proj1 (left_merge_empty_suffix ex_left ex_right (OnStr "k") None out _ E)).
  discriminate.
Defined.

(* ================================================================== *)
(** ** Further properties of the date-derived features                 *)
(* ================================================================== *)

(** X14.  Cell 14 followed by the clamps: a row with no competition year on
    record gets the year 1900 and then [CompetitionDaysOpen = 0] and
    [CompetitionMonthsOpen = 0]; a row with no promo2 year gets 1900,
    [Promo2Days = 0] and [Promo2Weeks = 0]; a missing month or week becomes
    1; and a year, month or week that is on record (as an int32) is kept. *)
Theorem missing_since_fields_give_zero :
  forall (r : Joined) (out : Row),
    date_features r = Some out ->
    (raw_CompetitionOpenSinceYear r = None ->
     CompetitionOpenSinceYear out = 1900 /\
     CompetitionDaysOpen out = Some 0 /\ CompetitionMonthsOpen out = Some 0) /\
    (raw_Promo2SinceYear r = None ->
     Promo2SinceYear out = 1900 /\
     Promo2Days out = Some 0 /\ Promo2Weeks out = Some 0) /\
    (raw_CompetitionOpenSinceMonth r = None -> CompetitionOpenSinceMonth out = 1) /\
    (raw_Promo2SinceWeek r = None -> Promo2SinceWeek out = 1) /\
    (forall v, - 2 ^ 31 <= v < 2 ^ 31 ->
       (raw_CompetitionOpenSinceYear r = Some v -> CompetitionOpenSinceYear out = v) /\
       (raw_CompetitionOpenSinceMonth r = Some v -> CompetitionOpenSinceMonth out = v) /\
       (raw_Promo2SinceYear r = Some v -> Promo2SinceYear out = v) /\
       (raw_Promo2SinceWeek r = Some v -> Promo2SinceWeek out = v)).
Proof.
  intros r out H. apply date_features_spec in H. cbv zeta in H.
  destruct H as [cos [p2s [_ [_ [Hy [Hm [Hpy [Hpw [_ [Hcdo [Hcmo [_ [Hp2d Hp2w]]]]]]]]]]]]].
  rewrite Hcdo in Hcmo. rewrite Hp2d in Hp2w.
  rewrite Hy, Hm, Hpy, Hpw, Hcdo, Hcmo, Hp2d, Hp2w.
  split; [|split; [|split; [|split]]].
  - intros ->. cbn [fillna option_map]. repeat split; reflexivity.
  - intros ->. cbn [fillna option_map]. repeat split; reflexivity.
  - intros ->. reflexivity.
  - intros ->. reflexivity.
  - intros v Hv. repeat split; intros ->; cbn [fillna]; apply astype_int32_id; exact Hv.
Qed.

Lemma missing_since_fields_give_zero_witness :
  exists out,
    date_features ex_joined_missing = Some out /\
    CompetitionDaysOpen out = Some 0 /\ Promo2Weeks out = Some 0.
Proof.
  eexists. split; [vm_compute; reflexivity|].
  pose proof (missing_since_fields_give_zero ex_joined_missing _ eq_refl) as H.
  split; [apply H | apply H]; reflexivity.
Defined.

(** The timestamp cell 18 builds. *)
Lemma promo2_since_value (r : Joined) (out : Row) :
  date_features r = Some out ->
  exists jan1,
    to_datetime_year (Promo2SinceYear out) = Some jan1 /\
    valid_day (Date out) = true /\
    Promo2Since out
    = Some (int64 (int64 (jan1 * day_ns / 10 ^ 9
                          + int32 (7 * 24 * 3600 * Promo2SinceWeek out)) * 10 ^ 9)).
Proof.
  unfold date_features. intros H.
  destruct (valid_day (j_Date r)) eqn:Hd; simpl negb in H; cbv iota in H; [|discriminate].
  cbv zeta in H.
  destruct (to_datetime_ymd _ _ 15) as [cos|]; [|discriminate].
  destruct (subtract_days (Some (j_Date r * day_ns)) (Some (cos * day_ns)));
    [|discriminate].
  destruct (to_datetime_year _) as [jan1|] eqn:Hjan; [|discriminate].
  pose proof Hjan as Hjv. apply to_datetime_year_valid in Hjv.
  destruct Hjv as [_ [Hjv _]].
  pose proof (promo2_seconds_bound jan1
                (astype_int32 (fillna 1 (raw_Promo2SinceWeek r))) Hjv) as Hdt.
  cbv zeta in Hdt.
  set (dt := int64 (jan1 * day_ns / 10 ^ 9 + _)) in *.
  assert (Hns : to_datetime_ns (int64 (dt * 10 ^ 9)) = Some (int64 (dt * 10 ^ 9))).
  { unfold to_datetime_ns. destruct (_ =? iNaT) eqn:E; [|reflexivity].
    apply Z.eqb_eq in E. apply scaled_seconds_not_NaT in E; [contradiction|lia]. }
  rewrite Hns in H.
  destruct (subtract_days (Some (j_Date r * day_ns)) (Some (int64 (dt * 10 ^ 9))));
    [|discriminate].
  injection H as <-. cbn [Promo2SinceYear Promo2SinceWeek Promo2Since Date].
  exists jan1. split; [exact Hjan|]. split; [exact Hd|]. reflexivity.
Qed.

(** X15.  Cell 18 and 19 when nothing overflows: if [Promo2SinceWeek] times
    604800 seconds fits an int32 and the day [Promo2SinceWeek] whole weeks
    after the first of January of [Promo2SinceYear] is a valid timestamp,
    then [Promo2Since] is the midnight of that day, [Promo2Days] is the day
    difference [Date - Promo2Since] replaced by 0 when negative or when the
    year is below 1990, and [Promo2Weeks] is [Promo2Days // 7] capped at 25. *)
Theorem promo2_features :
  forall (r : Joined) (out : Row),
    date_features r = Some out ->
    let start := days_from_civil (Promo2SinceYear out) 1 1
                 + 7 * Promo2SinceWeek out in
    - 2 ^ 31 <= 604800 * Promo2SinceWeek out < 2 ^ 31 ->
    valid_day start = true ->
    Promo2Since out = Some (start * day_ns) /\
    Promo2Days out
      = Some (if (Date out - start <? 0) || (Promo2SinceYear out <? 1990)
              then 0 else Date out - start) /\
    exists d, Promo2Days out = Some d /\
              Promo2Weeks out = Some (if 25 <? d / 7 then 25 else d / 7).
Proof.
  intros r out H start Hw Hv.
  destruct (promo2_since_value r out H) as [jan1 [Hjan [Hd Hs]]].
  apply to_datetime_year_valid in Hjan. destruct Hjan as [Hj [Hjv _]].
  apply valid_day_bound in Hd, Hjv. pose proof (valid_day_bound _ Hv) as Hsb.
  fold start in Hsb.
  assert (E : int64 (int64 (jan1 * day_ns / 10 ^ 9
                            + int32 (7 * 24 * 3600 * Promo2SinceWeek out)) * 10 ^ 9)
              = start * day_ns).
  { rewrite (int32_id (7 * 24 * 3600 * Promo2SinceWeek out)) by lia.
    assert (Hq : jan1 * day_ns / 10 ^ 9 = jan1 * 86400).
    { unfold day_ns.
      replace (jan1 * (86400 * 10 ^ 9)) with (jan1 * 86400 * 10 ^ 9) by ring.
      apply Z.div_mul. lia. }
    rewrite Hq.
    assert (Hsum : jan1 * 86400 + 7 * 24 * 3600 * Promo2SinceWeek out = start * 86400)
      by (unfold start; rewrite <- Hj; ring).
    rewrite Hsum. unfold day_ns in *.
    rewrite (int64_id (start * 86400)) by lia.
    rewrite int64_id by lia. ring. }
  rewrite E in Hs.
  apply date_features_spec in H. cbv zeta in H.
  destruct H as [cos [p2s [_ [HD [_ [_ [Hpy [_ [_ [_ [_ [Hps [Hp2d Hp2w]]]]]]]]]]]]].
  rewrite Hs in Hps. injection Hps as <-.
  assert (Hdiv : (j_Date r * day_ns - start * day_ns) / day_ns = j_Date r - start).
  { replace (j_Date r * day_ns - start * day_ns) with ((j_Date r - start) * day_ns) by ring.
    apply Z.div_mul. unfold day_ns. lia. }
  rewrite Hdiv in Hp2d. rewrite <- HD, <- Hpy in Hp2d.
  split; [exact Hs|]. split.
  - rewrite Hp2d. f_equal.
    destruct (Promo2SinceYear out <? 1990), (Date out - start <? 0); reflexivity.
  - rewrite Hp2w, Hp2d. cbn [option_map]. eexists. split; [reflexivity|].
    f_equal. cbv zeta.
    set (d := if Promo2SinceYear out <? 1990 then 0
              else if Date out - start <? 0 then 0 else Date out - start).
    assert (Hd0 : 0 <= d).
    { unfold d. destruct (Promo2SinceYear out <? 1990); [lia|].
      destruct (Z.ltb_spec (Date out - start) 0); lia. }
    assert (Hq0 : 0 <= d / 7) by (apply Z.div_pos; lia).
    destruct (Z.ltb_spec (d / 7) 0); [lia|]. reflexivity.
Qed.

Lemma promo2_features_witness :
  exists out,
    date_features ex_joined_2 = Some out /\
    Promo2Since out = Some ((days_from_civil 2010 1 1 + 7 * 13) * day_ns) /\
    Promo2Days out = Some 1946.
Proof.
  eexists. split; [vm_compute; reflexivity|].
  pose proof (promo2_features ex_joined_2 _ eq_refl) as H. cbv zeta in H.
  split.
  - apply H; [simpl; lia | reflexivity].
  - reflexivity.
Defined.

(** X16.  On tables whose dates and years lie between 1900 and 2100, whose
    months are 1 to 12 and whose weeks are 0 to 53 (missing values allowed),
    cells 14 to 19 raise no exception and return one row per input row. *)
Theorem date_feature_stage_runs_on_modern_data :
  forall df : list Joined,
    Forall (fun r =>
              days_from_civil 1900 1 1 <= j_Date r <= days_from_civil 2100 12 31 /\
              1900 <= fillna 1900 (raw_CompetitionOpenSinceYear r) <= 2100 /\
              1 <= fillna 1 (raw_CompetitionOpenSinceMonth r) <= 12 /\
              1900 <= fillna 1900 (raw_Promo2SinceYear r) <= 2100 /\
              0 <= fillna 1 (raw_Promo2SinceWeek r) <= 53) df ->
    exists out, date_feature_stage df = Some out /\ length out = length df.
Proof.
  intros df H.
  assert (Hd : Forall (fun r => exists out, date_features r = Some out) df).
  { eapply Forall_impl; [|exact H]. intros r [H1 [H2 [H3 [H4 H5]]]].
    now apply date_features_defined. }
  destruct (date_feature_stage_defined df Hd) as [out Hout].
  exists out. split; [exact Hout|].
  symmetry. eapply Forall2_length. apply date_feature_stage_rows. exact Hout.
Qed.

Lemma date_feature_stage_runs_on_modern_data_witness :
  exists out,
    date_feature_stage [ex_joined_1; ex_joined_missing] = Some out /\
    length out = 2%nat.
Proof.
  apply (date_feature_stage_runs_on_modern_data [ex_joined_1; ex_joined_missing]).
  repeat constructor; vm_compute; discriminate.
Defined.

(** X17.  Where the two capped features saturate: [CompetitionMonthsOpen]
    is 24 exactly when [CompetitionDaysOpen] is at least 720 and is
    [CompetitionDaysOpen // 30] below that; [Promo2Weeks] is 25 exactly when
    [Promo2Days] is at least 175 and is [Promo2Days // 7] below that. *)
Theorem capped_features_saturate :
  forall (r : Joined) (out : Row),
    date_features r = Some out ->
    exists dc dp,
      CompetitionDaysOpen out = Some dc /\ Promo2Days out = Some dp /\
      CompetitionMonthsOpen out = Some (if 720 <=? dc then 24 else dc / 30) /\
      Promo2Weeks out = Some (if 175 <=? dp then 25 else dp / 7).
Proof.
  intros r out H. apply date_features_spec in H. cbv zeta in H.
  destruct H as [cos [p2s [_ [_ [_ [_ [_ [_ [_ [Hcdo [Hcmo [_ [Hp2d Hp2w]]]]]]]]]]]]].
  rewrite Hcdo in Hcmo. rewrite Hp2d in Hp2w. cbn [option_map] in Hcmo, Hp2w.
  cbv zeta in Hp2w, Hp2d.
  eexists. eexists. split; [exact Hcdo|]. split; [exact Hp2d|].
  rewrite Hcmo, Hp2w.
  set (by1 := astype_int32 (fillna 1900 (raw_CompetitionOpenSinceYear r)) <? 1990) in *.
  set (by2 := astype_int32 (fillna 1900 (raw_Promo2SinceYear r)) <? 1990) in *.
  set (dc := if by1 then 0 else if j_Date r - cos <? 0 then 0 else j_Date r - cos).
  set (dp := if by2 then 0 else _).
  assert (Hc0 : 0 <= dc).
  { unfold dc. destruct by1; [reflexivity|].
    destruct (Z.ltb_spec (j_Date r - cos) 0); [reflexivity|assumption]. }
  assert (Hp0 : 0 <= dp).
  { unfold dp. destruct by2; [reflexivity|].
    destruct (Z.ltb_spec ((j_Date r * day_ns - p2s) / day_ns) 0);
      [reflexivity|assumption]. }
  clearbody dc dp.
  split; f_equal.
  - destruct (Z.ltb_spec 24 (dc / 30)), (Z.leb_spec 720 dc); try reflexivity;
      Z.div_mod_to_equations; lia.
  - assert (0 <= dp / 7) by (apply Z.div_pos; lia).
    destruct (Z.ltb_spec (dp / 7) 0); [lia|].
    destruct (Z.ltb_spec 25 (dp / 7)), (Z.leb_spec 175 dp); try reflexivity;
      Z.div_mod_to_equations; lia.
Qed.

Lemma capped_features_saturate_witness :
  exists out,
    date_features ex_joined_2 = Some out /\
    CompetitionMonthsOpen out = Some 24 /\ Promo2Weeks out = Some 25.
Proof.
  eexists. split; [vm_compute; reflexivity|].
  destruct (capped_features_saturate ex_joined_2 _ eq_refl) as [dc [dp [H1 [H2 [H3 H4]]]]].
  split; reflexivity.
Defined.

Lemma days_from_civil_far (y m d : Z) :
  1 <= m <= 12 -> 1 <= d <= 31 ->
  (y <= 1676 -> days_from_civil y m d <= -107000) /\
  (2263 <= y -> 107000 <= days_from_civil y m d).
Proof.
  intros Hm Hd. pose proof (days_before_month_bound y m Hm) as Hb.
  unfold days_from_civil. change (days_before_year 1970) with 719162.
  unfold days_before_year. split; intros Hy; Z.div_mod_to_equations; lia.
Qed.

Lemma to_datetime_ymd_out_of_bounds (y m : Z) :
  1 <= m <= 12 -> 1000 <= y <= 1676 \/ 2263 <= y <= 9999 ->
  to_datetime_ymd y m 15 = None.
Proof.
  intros Hm Hy. rewrite to_datetime_ymd_civil by lia.
  destruct (days_from_civil_far y m 15 Hm ltac:(lia)) as [Hlo Hhi].
  assert (Hv : valid_day (days_from_civil y m 15) = false).
  { unfold valid_day, iNaT, day_ns. apply andb_false_iff.
    destruct Hy as [Hy|Hy];
      [left; specialize (Hlo ltac:(lia)) | right; specialize (Hhi ltac:(lia))];
      apply Z.ltb_ge; lia. }
  now rewrite Hv.
Qed.

Lemma to_datetime_year_out_of_bounds (y : Z) :
  y <= 1676 \/ 2263 <= y -> to_datetime_year y = None.
Proof.
  intros Hy. unfold to_datetime_year.
  destruct (Z.leb_spec 1000 y); cbn [andb]; [|reflexivity].
  destruct (Z.leb_spec y 9999); cbn [andb]; [|reflexivity].
  destruct (days_from_civil_far y 1 1 ltac:(lia) ltac:(lia)) as [Hlo Hhi].
  assert (Hv : valid_day (days_from_civil y 1 1) = false).
  { unfold valid_day, iNaT, day_ns. apply andb_false_iff.
    destruct Hy as [Hy|Hy]; [left; specialize (Hlo Hy) | right; specialize (Hhi Hy)];
      apply Z.ltb_ge; lia. }
  now rewrite Hv.
Qed.

(** X18.  A year of four digits that is far from the present aborts the
    run: when the competition year on record (1900 if missing, with a month
    from 1 to 12) lies between 1000 and 1676 or between 2263 and 9999, or
    when the promo2 year on record, an int32, is at most 1676 or at least
    2263, the date lies outside the range of nanosecond timestamps, or the
    year is not spelled with four digits, and cells 15 to 18 raise.  The
    sentinel 1900 of cell 14 is inside the range. *)
Theorem year_out_of_range_raises :
  forall r : Joined,
    let cosy := fillna 1900 (raw_CompetitionOpenSinceYear r) in
    let cosm := fillna 1 (raw_CompetitionOpenSinceMonth r) in
    let p2sy := fillna 1900 (raw_Promo2SinceYear r) in
    (1 <= cosm <= 12 /\ (1000 <= cosy <= 1676 \/ 2263 <= cosy <= 9999)) \/
    - 2 ^ 31 <= p2sy <= 1676 \/ 2263 <= p2sy < 2 ^ 31 ->
    date_features r = None.
Proof.
  intros r cosy cosm p2sy H. unfold date_features. fold cosy cosm p2sy.
  destruct (valid_day (j_Date r)); cbn [negb]; [|reflexivity]. cbv zeta.
  destruct (to_datetime_ymd _ _ 15) as [cos|] eqn:E1; [|reflexivity].
  destruct (subtract_days (Some (j_Date r * day_ns)) (Some (cos * day_ns)));
    [|reflexivity].
  destruct H as [[Hm H]|H].
  - rewrite (astype_int32_id cosy), (astype_int32_id cosm) in E1 by lia.
    rewrite to_datetime_ymd_out_of_bounds in E1 by assumption. discriminate.
  - rewrite (astype_int32_id p2sy) by lia.
    rewrite to_datetime_year_out_of_bounds by lia. reflexivity.
Qed.

Lemma year_out_of_range_raises_witness :
  date_features (mkJoined 1 0 None 0 false 0 (Some 1500) (Some 6) None None) = None /\
  date_features (mkJoined 1 0 None 0 false 0 None None (Some 2300) (Some 1)) = None /\
  to_datetime_ymd 1900 1 15 <> None.
Proof.
  split; [|split].
  - apply year_out_of_range_raises. left. vm_compute.
    split; [split|left; split]; discriminate.
  - apply year_out_of_range_raises. right. right. vm_compute.
    split; [discriminate|reflexivity].
  - vm_compute. discriminate.
Defined.

(* ================================================================== *)
(** ** Further properties of the event-proximity columns               *)
(* ================================================================== *)

(** Cell 21 on the rows of a single store. *)
Lemma proximity_one_store (f : event_field) (s : Z) (g : list Row) (i : nat) :
  (forall x, In x g -> Store x = s) ->
  (i < length g)%nat ->
  let date := fun n => nth n (map Date g) 0 in
  (exists j, (j <= i)%nat /\ carry_point f g j = true /\
             (forall k, (j < k <= i)%nat -> carry_point f g k = false) /\
             nth_error (After_of f g (mask_rec true g)) i
             = Some (Some (date i - date j))) /\
  (exists j, (i <= j < length g)%nat /\ carry_point f g j = true /\
             (forall k, (i <= k < j)%nat -> carry_point f g k = false) /\
             nth_error (Before_of f g (mask_rec true g)) i
             = Some (Some (date j - date i))).
Proof.
  intros Hstore Hi date.
  destruct (nth_error g i) as [r|] eqn:Hr; [|apply nth_error_None in Hr; lia].
  assert (Hdate : forall n x, nth_error g n = Some x -> date n = Date x).
  { intros n x Hx. unfold date. apply nth_error_nth. now apply map_nth_error. }
  set (T := tmp_col f g (mask_rec true g)) in *.
  assert (HT : forall n x, nth_error g n = Some x ->
                 nth_error T n = Some (if carry_point f g n then Some (Date x) else None))
    by (intros n x Hx; now apply (tmp_col_one_store f s)).
  assert (HlenT : length T = length g) by apply tmp_col_length.
  assert (Hget : forall n, (n < length g)%nat -> exists x, nth_error g n = Some x).
  { intros n Hn. destruct (nth_error g n) eqn:E; [eauto|].
    apply nth_error_None in E. lia. }
  split.
  - destruct (ffill_from_nearest None T i ltac:(lia))
      as [[j [v [Hj [Hv [Hnone He]]]]]|[Hnone _]].
    + destruct (Hget j ltac:(lia)) as [rj Hrj].
      pose proof (HT j rj Hrj) as Htj. rewrite Hv in Htj.
      destruct (carry_point f g j) eqn:Hc; [|discriminate].
      injection Htj as ->.
      exists j. split; [exact Hj|]. split; [exact Hc|]. split.
      * intros k Hk. destruct (Hget k ltac:(lia)) as [rk Hrk].
        pose proof (HT k rk Hrk) as Htk. rewrite (Hnone k Hk) in Htk.
        destruct (carry_point f g k); [discriminate|reflexivity].
      * unfold After_of. fold T.
        change (ffill_from None T) with (ffill T) in He.
        rewrite (nth_error_map _ i (combine g (ffill T))).
        rewrite (nth_error_combine _ _ i r (Some (Date rj)) Hr He).
        cbn [option_map fst snd]. now rewrite (Hdate i r Hr), (Hdate j rj Hrj).
    + exfalso. destruct (Hget 0%nat ltac:(lia)) as [r0 Hr0].
      pose proof (HT 0%nat r0 Hr0) as Ht0. rewrite (Hnone 0%nat ltac:(lia)) in Ht0.
      unfold carry_point in Ht0. cbn [Nat.eqb] in Ht0.
      rewrite orb_true_r in Ht0. discriminate.
  - destruct (bfill_nearest T i ltac:(lia))
      as [[j [v [Hj [Hv [Hnone He]]]]]|[Hnone _]].
    + assert (Hjlt : (j < length g)%nat).
      { rewrite <- HlenT. apply nth_error_Some. congruence. }
      destruct (Hget j Hjlt) as [rj Hrj].
      pose proof (HT j rj Hrj) as Htj. rewrite Hv in Htj.
      destruct (carry_point f g j) eqn:Hc; [|discriminate].
      injection Htj as ->.
      exists j. split; [lia|]. split; [exact Hc|]. split.
      * intros k Hk. destruct (Hget k ltac:(lia)) as [rk Hrk].
        pose proof (HT k rk Hrk) as Htk. rewrite (Hnone k Hk) in Htk.
        destruct (carry_point f g k); [discriminate|reflexivity].
      * unfold Before_of. fold T.
        rewrite (nth_error_map _ i (combine g (bfill T))).
        rewrite (nth_error_combine _ _ i r (Some (Date rj)) Hr He).
        cbn [option_map fst snd]. now rewrite (Hdate i r Hr), (Hdate j rj Hrj).
    + exfalso. set (n := (length g - 1)%nat).
      destruct (Hget n ltac:(lia)) as [rn Hrn].
      pose proof (HT n rn Hrn) as Htn.
      rewrite (Hnone n ltac:(lia)) in Htn.
      unfold carry_point in Htn.
      replace (Nat.eqb (S n) (length g)) with true in Htn
        by (symmetry; apply Nat.eqb_eq; lia).
      rewrite orb_true_r in Htn. discriminate.
Qed.

(** The columns of cell 21 restricted to store [s], as computed from the
    store's own rows. *)
Lemma proximity_restricted (f : event_field) (df : list Row) (s : Z)
    (after before : list (option Z)) :
  After f df = Some after -> Before f df = Some before ->
  let sorted := sort_values_Store_Date df in
  let g := filter (fun r => Store r =? s) sorted in
  after = After_of f sorted (mask_rec true sorted) /\
  before = Before_of f sorted (mask_rec true sorted) /\
  map snd (filter (fun p => Store (fst p) =? s) (combine sorted after))
    = After_of f g (mask_rec true g) /\
  map snd (filter (fun p => Store (fst p) =? s) (combine sorted before))
    = Before_of f g (mask_rec true g).
Proof.
  intros HA HB sorted g. unfold After in HA. unfold Before in HB.
  fold sorted in HA, HB.
  destruct (idx_mask sorted) as [mask|] eqn:Em; [|discriminate].
  apply idx_mask_Some in Em. destruct Em as [-> _].
  injection HA as <-. injection HB as <-.
  split; [reflexivity|]. split; [reflexivity|].
  apply proximity_per_store. apply sort_values_Store_Date_sorted.
Qed.

Lemma sorted_dates_nth (g : list Row) (j i : nat) :
  Sorted (fun a b => Date a <= Date b) g ->
  (j <= i < length g)%nat ->
  nth j (map Date g) 0 <= nth i (map Date g) 0.
Proof.
  intros Hs. apply Sorted_StronglySorted in Hs;
    [|intros a b c Hab Hbc; lia].
  revert j i. induction Hs as [|x g Hs IH Hx]; intros j i Hji; [simpl in Hji; lia|].
  destruct j as [|j], i as [|i]; simpl in *; try lia.
  - rewrite Forall_forall in Hx.
    assert (Hin : In (nth i (map Date g) 0) (map Date g))
      by (apply nth_In; rewrite length_map; lia).
    apply in_map_iff in Hin. destruct Hin as [y [<- Hy]]. now apply Hx.
  - apply IH. lia.
Qed.

Lemma in_combine_of_in_r {A B : Type} (xs : list A) (ys : list B) (y : B) :
  length xs = length ys -> In y ys -> exists x, In (x, y) (combine xs ys).
Proof.
  revert ys. induction xs as [|x xs IH]; intros [|y' ys] Hlen Hin; simpl in *;
    try discriminate; try contradiction.
  injection Hlen as Hlen. destruct Hin as [->|Hin].
  - exists x. now left.
  - destruct (IH ys Hlen Hin) as [x' Hx']. exists x'. now right.
Qed.

(** X10.  The [After] and [Before] columns of cell 21 have one entry per
    row of the table, none of them missing and none negative: within a store
    the rows are in date order and a date is only ever carried between rows
    of the same store. *)
Theorem proximity_never_negative :
  forall (f : event_field) (df : list Row) (after before : list (option Z)),
    After f df = Some after -> Before f df = Some before ->
    length after = length df /\ length before = length df /\
    Forall (fun v => exists d, v = Some d /\ 0 <= d) after /\
    Forall (fun v => exists d, v = Some d /\ 0 <= d) before.
Proof.
  intros f df after before HA HB.
  set (sorted := sort_values_Store_Date df).
  assert (Hlen : length sorted = length df) by apply sort_by_length.
  assert (Hla : length after = length df).
  { destruct (proximity_restricted f df 0 after before HA HB) as [-> _].
    fold sorted. now rewrite After_of_length. }
  assert (Hlb : length before = length df).
  { destruct (proximity_restricted f df 0 after before HA HB) as [_ [-> _]].
    fold sorted. now rewrite Before_of_length. }
  assert (Hstore : forall s x, In x (filter (fun r => Store r =? s) sorted) -> Store x = s).
  { intros s x Hx. apply filter_In in Hx. now apply Z.eqb_eq. }
  split; [exact Hla|]. split; [exact Hlb|]. split.
  - apply Forall_forall. intros v Hv.
    destruct (in_combine_of_in_r sorted after v ltac:(lia) Hv) as [r Hr].
    destruct (proximity_restricted f df (Store r) after before HA HB)
      as [_ [_ [EA _]]]. fold sorted in EA.
    set (g := filter (fun x => Store x =? Store r) sorted) in *.
    assert (Hin : In v (After_of f g (mask_rec true g))).
    { rewrite <- EA. apply in_map_iff. exists (r, v). split; [reflexivity|].
      apply filter_In. split; [exact Hr|]. apply Z.eqb_refl. }
    apply In_nth_error in Hin. destruct Hin as [i Hi].
    assert (Hlt : (i < length g)%nat).
    { rewrite <- (After_of_length f true g). apply nth_error_Some. congruence. }
    destruct (proximity_one_store f (Store r) g i (Hstore (Store r)) Hlt)
      as [[j [Hj [_ [_ He]]]] _].
    rewrite He in Hi. injection Hi as <-. eexists. split; [reflexivity|].
    assert (Hs : Sorted (fun a b => Date a <= Date b) g)
      by (apply store_rows_date_sorted, sort_values_Store_Date_sorted).
    pose proof (sorted_dates_nth g j i Hs ltac:(lia)). lia.
  - apply Forall_forall. intros v Hv.
    destruct (in_combine_of_in_r sorted before v ltac:(lia) Hv) as [r Hr].
    destruct (proximity_restricted f df (Store r) after before HA HB)
      as [_ [_ [_ EB]]]. fold sorted in EB.
    set (g := filter (fun x => Store x =? Store r) sorted) in *.
    assert (Hin : In v (Before_of f g (mask_rec true g))).
    { rewrite <- EB. apply in_map_iff. exists (r, v). split; [reflexivity|].
      apply filter_In. split; [exact Hr|]. apply Z.eqb_refl. }
    apply In_nth_error in Hin. destruct Hin as [i Hi].
    assert (Hlt : (i < length g)%nat).
    { rewrite <- (Before_of_length f true g). apply nth_error_Some. congruence. }
    destruct (proximity_one_store f (Store r) g i (Hstore (Store r)) Hlt)
      as [_ [j [Hj [_ [_ He]]]]].
    rewrite He in Hi. injection Hi as <-. eexists. split; [reflexivity|].
    assert (Hs : Sorted (fun a b => Date a <= Date b) g)
      by (apply store_rows_date_sorted, sort_values_Store_Date_sorted).
    pose proof (sorted_dates_nth g i j Hs ltac:(lia)). lia.
Qed.

Lemma proximity_never_negative_witness :
  exists after,
    After Promo_f ex_union = Some after /\
    Forall (fun v => exists d, v = Some d /\ 0 <= d) after.
Proof.
  eexists. split; [reflexivity|].
  exact (proj1 (proj2 (proj2
           (proximity_never_negative Promo_f ex_union _ _ eq_refl eq_refl)))).
Defined.

(** X11.  On every carry point of a store (a row whose event flag is set,
    and the store's first and last row whatever their flag) both [After]
    and [Before] are 0. *)
Theorem proximity_zero_on_carry_points :
  forall (f : event_field) (df : list Row) (after before : list (option Z))
         (s : Z) (i : nat),
    After f df = Some after -> Before f df = Some before ->
    let sorted := sort_values_Store_Date df in
    let g := filter (fun r => Store r =? s) sorted in
    let after_s :=
      map snd (filter (fun p => Store (fst p) =? s) (combine sorted after)) in
    let before_s :=
      map snd (filter (fun p => Store (fst p) =? s) (combine sorted before)) in
    (i < length g)%nat ->
    nth i (map (field_value f) g) 0 <> 0 \/ i = 0%nat \/ S i = length g ->
    nth_error after_s i = Some (Some 0) /\ nth_error before_s i = Some (Some 0).
Proof.
  intros f df after before s i HA HB sorted g after_s before_s Hi Hc.
  destruct (proximity_restricted f df s after before HA HB) as [_ [_ [EA EB]]].
  fold sorted g in EA, EB. fold after_s in EA. fold before_s in EB.
  assert (Hcarry : carry_point f g i = true).
  { unfold carry_point. destruct Hc as [Hc|[->|Hc]].
    - apply Z.eqb_neq in Hc. now rewrite Hc.
    - cbn [Nat.eqb]. now rewrite orb_true_r.
    - apply Nat.eqb_eq in Hc. rewrite Hc. now rewrite orb_true_r. }
  assert (Hstore : forall x, In x g -> Store x = s).
  { intros x Hx. apply filter_In in Hx. now apply Z.eqb_eq. }
  destruct (proximity_one_store f s g i Hstore Hi)
    as [[j [Hj [_ [Hn He]]]] [j' [Hj' [_ [Hn' He']]]]].
  rewrite EA, EB. split.
  - assert (j = i).
    { destruct (Nat.eq_dec j i) as [|Hne]; [assumption|].
      rewrite (Hn i ltac:(lia)) in Hcarry. discriminate. }
    subst j. rewrite He. now rewrite Z.sub_diag.
  - assert (j' = i).
    { destruct (Nat.eq_dec j' i) as [|Hne]; [assumption|].
      rewrite (Hn' i ltac:(lia)) in Hcarry. discriminate. }
    subst j'. rewrite He'. now rewrite Z.sub_diag.
Qed.

Lemma proximity_zero_on_carry_points_witness :
  exists after before,
    After SchoolHoliday_f ex_union = Some after /\
    Before SchoolHoliday_f ex_union = Some before /\
    nth_error (map snd (filter (fun p => Store (fst p) =? 1)
                 (combine (sort_values_Store_Date ex_union) after))) 1 = Some (Some 0).
Proof.
  eexists. eexists. split; [reflexivity|]. split; [reflexivity|].
  refine (proj1 (proximity_zero_on_carry_points SchoolHoliday_f ex_union _ _ 1 1
                   eq_refl eq_refl _ _)).
  - simpl. lia.
  - left. simpl. discriminate.
Defined.

(** X12.  A store on which the event never occurs still gets values: away
    from the store's last row [After] is the number of days since the
    store's first row, away from its first row [Before] is the number of
    days until its last row, and on the last (resp. first) row [After]
    (resp. [Before]) is 0. *)
Theorem proximity_without_events :
  forall (f : event_field) (df : list Row) (after before : list (option Z))
         (s : Z) (i : nat),
    After f df = Some after -> Before f df = Some before ->
    let sorted := sort_values_Store_Date df in
    let g := filter (fun r => Store r =? s) sorted in
    let after_s :=
      map snd (filter (fun p => Store (fst p) =? s) (combine sorted after)) in
    let before_s :=
      map snd (filter (fun p => Store (fst p) =? s) (combine sorted before)) in
    let date := fun n => nth n (map Date g) 0 in
    (forall r, In r g -> field_value f r = 0) ->
    (i < length g)%nat ->
    nth_error after_s i
      = Some (Some (if Nat.eqb (S i) (length g) then 0 else date i - date 0%nat)) /\
    nth_error before_s i
      = Some (Some (if Nat.eqb i 0 then 0 else date (length g - 1)%nat - date i)).
Proof.
  intros f df after before s i HA HB sorted g after_s before_s date Hzero Hi.
  destruct (proximity_restricted f df s after before HA HB) as [_ [_ [EA EB]]].
  fold sorted g in EA, EB. fold after_s in EA. fold before_s in EB.
  assert (Hstore : forall x, In x g -> Store x = s).
  { intros x Hx. apply filter_In in Hx. now apply Z.eqb_eq. }
  assert (Hcp : forall n, (n < length g)%nat ->
                  carry_point f g n = (Nat.eqb n 0 || Nat.eqb (S n) (length g))%bool).
  { intros n Hn. unfold carry_point.
    assert (Hv : nth n (map (field_value f) g) 0 = 0).
    { assert (Hin : In (nth n (map (field_value f) g) 0) (map (field_value f) g))
        by (apply nth_In; rewrite length_map; lia).
      apply in_map_iff in Hin. destruct Hin as [r [<- Hr]]. now apply Hzero. }
    rewrite Hv. reflexivity. }
  destruct (proximity_one_store f s g i Hstore Hi)
    as [[j [Hj [Hcj [Hn He]]]] [j' [Hj' [Hcj' [Hn' He']]]]].
  fold date in He, He'. rewrite EA, EB, He, He'. split; do 2 f_equal.
  - destruct (Nat.eqb_spec (S i) (length g)) as [Hlast|Hnl].
    + assert (j = i).
      { destruct (Nat.eq_dec j i) as [|Hne]; [assumption|].
        pose proof (Hn i ltac:(lia)) as Hf. rewrite (Hcp i Hi) in Hf.
        apply Nat.eqb_eq in Hlast. rewrite Hlast, orb_true_r in Hf. discriminate. }
      subst j. apply Z.sub_diag.
    + rewrite (Hcp j ltac:(lia)) in Hcj. apply orb_true_iff in Hcj.
      destruct Hcj as [Hcj|Hcj]; apply Nat.eqb_eq in Hcj; [now subst j | lia].
  - destruct (Nat.eqb_spec i 0) as [Hfirst|Hnf].
    + assert (j' = i).
      { destruct (Nat.eq_dec j' i) as [|Hne]; [assumption|].
        pose proof (Hn' i ltac:(lia)) as Hf. rewrite (Hcp i Hi) in Hf.
        subst i. discriminate. }
      subst j'. apply Z.sub_diag.
    + rewrite (Hcp j' ltac:(lia)) in Hcj'. apply orb_true_iff in Hcj'.
      destruct Hcj' as [Hcj'|Hcj']; apply Nat.eqb_eq in Hcj'; [lia|].
      replace (length g - 1)%nat with j' by lia. reflexivity.
Qed.

Lemma proximity_without_events_witness :
  exists after before,
    After StateHoliday_f ex_union = Some after /\
    Before StateHoliday_f ex_union = Some before /\
    nth_error (map snd (filter (fun p => Store (fst p) =? 1)
                 (combine (sort_values_Store_Date ex_union) after))) 3 = Some (Some 3).
Proof.
  eexists. eexists. split; [reflexivity|]. split; [reflexivity|].
  refine (proj1 (proximity_without_events StateHoliday_f ex_union _ _ 1 3
                   eq_refl eq_refl _ _)).
  - intros r Hr. simpl in Hr.
    repeat (destruct Hr as [<-|Hr]; [reflexivity|]). contradiction.
  - simpl. lia.
Defined.

(** X13.  Cell 21 raises on an empty table and on nothing else: giving
    [last_indices] the index of [first_indices] fails exactly when the table
    has no row (one label too many). *)
Theorem proximity_fails_only_on_empty_table :
  forall (f : event_field) (df : list Row),
    (After f df = None <-> df = []) /\ (Before f df = None <-> df = []).
Proof.
  intros f df. destruct df as [|r df].
  - split; split; reflexivity.
  - destruct (proximity_defined f (r :: df) ltac:(discriminate)) as [HA HB].
    rewrite HA, HB. split; split; discriminate.
Qed.

(* ================================================================== *)
(** ** Further properties of the split                                 *)
(* ================================================================== *)

Lemma sorted_app_parts {A : Type} (R : A -> A -> Prop) (l1 l2 : list A) :
  StronglySorted R (l1 ++ l2) -> StronglySorted R l1 /\ StronglySorted R l2.
Proof.
  induction l1 as [|x l1 IH]; simpl; intros H; [split; [constructor | exact H]|].
  inversion H as [|? ? Hs Hx]; subst. destruct (IH Hs) as [H1 H2].
  split; [|exact H2]. constructor; [exact H1|].
  rewrite Forall_forall in *. intros y Hy. apply Hx. apply in_or_app. now left.
Qed.

Lemma date_sorted_of_leb (l : list Row) :
  StronglySorted (le_of date_leb) l -> Sorted (fun a b => Date a <= Date b) l.
Proof.
  intros H. apply StronglySorted_Sorted.
  induction H as [|x l Hs IH Hx]; constructor; [exact IH|].
  eapply Forall_impl; [|exact Hx]. intros y Hy. now apply Z.leb_le.
Qed.

(** X6.  Whatever the fraction and the size of the table, cell 28 cuts the
    date-sorted table in two at one point: the training rows followed by the
    validation rows are the sorted table, so every row lands in exactly one
    of the two outputs, both outputs are in date order, and no training row
    is dated after a validation row. *)
Theorem split_partitions_sorted_table :
  forall (frac : Z * Z) (train_df : list Row),
    let train := fst (split_with frac train_df) in
    let valid := snd (split_with frac train_df) in
    train ++ valid = sort_values_Date train_df /\
    Permutation train_df (train ++ valid) /\
    (length train + length valid = length train_df)%nat /\
    Sorted (fun a b => Date a <= Date b) train /\
    Sorted (fun a b => Date a <= Date b) valid /\
    (forall a b, In a train -> In b valid -> Date a <= Date b).
Proof.
  intros frac train_df train valid.
  pose proof (split_with_app frac train_df) as Happ. fold train valid in Happ.
  assert (Hs : StronglySorted (le_of date_leb) (train ++ valid)).
  { rewrite Happ. apply sort_by_sorted; [apply date_leb_total | apply date_leb_trans]. }
  destruct (sorted_app_parts _ _ _ Hs) as [H1 H2].
  split; [exact Happ|]. split; [apply split_with_perm|].
  split.
  { rewrite <- length_app, Happ. apply sort_by_length. }
  split; [now apply date_sorted_of_leb|]. split; [now apply date_sorted_of_leb|].
  intros a b. apply split_with_ordered.
Qed.

(** X7.  The sizes cell 28 produces with [VALID_FRAC = 0.25] on [n] rows:
    from 4 rows on, the validation table has [n // 4] rows and the training
    table the other [n - n // 4]; below 4 rows the validation table has all
    [n] rows and the training table none. *)
Theorem split_sizes :
  forall train_df : list Row,
    let n := length train_df in
    length (snd (split train_df)) = (if Nat.ltb n 4 then n else Nat.div n 4) /\
    length (fst (split train_df)) = (if Nat.ltb n 4 then 0 else n - Nat.div n 4)%nat.
Proof.
  intros train_df n. unfold split, split_with. cbn [fst snd].
  unfold slice_from, slice_to, slice_bound, sort_values_Date.
  rewrite length_skipn, length_firstn, !sort_by_length. fold n.
  assert (Hq : int_frac_mul VALID_FRAC (Z.of_nat n) = Z.of_nat (Nat.div n 4)).
  { unfold int_frac_mul, VALID_FRAC. cbn [fst snd]. rewrite Z.mul_1_l.
    rewrite Z.quot_div_nonneg by lia. now rewrite Nat2Z.inj_div. }
  rewrite Hq.
  assert (Hd : (4 * Nat.div n 4 <= n)%nat) by (apply Nat.Div0.mul_div_le).
  destruct (Nat.ltb_spec n 4) as [Hlt|Hge].
  - rewrite (Nat.div_small n 4 Hlt). simpl. rewrite Z.min_l by lia. simpl. lia.
  - assert (Hpos : (1 <= Nat.div n 4)%nat).
    { apply Nat.div_le_lower_bound; lia. }
    destruct (Z.ltb_spec (- Z.of_nat (Nat.div n 4)) 0); [|lia].
    rewrite Z.max_r by lia. lia.
Qed.

(* ================================================================== *)
(** ** Further properties of the rolling sums                          *)
(* ================================================================== *)

Lemma sumZ_bounds (xs : list Z) :
  Forall (fun v => 0 <= v <= 1) xs -> 0 <= sumZ xs <= Z.of_nat (length xs).
Proof.
  induction 1 as [|x xs Hx _ IH]; unfold sumZ in *; simpl; lia.
Qed.

Lemma Forall_firstn {A : Type} (P : A -> Prop) (n : nat) (l : list A) :
  Forall P l -> Forall P (firstn n l).
Proof.
  intros H. rewrite <- (firstn_skipn n l) in H. now apply Forall_app in H.
Qed.

Lemma Forall_skipn {A : Type} (P : A -> Prop) (n : nat) (l : list A) :
  Forall P l -> Forall P (skipn n l).
Proof.
  intros H. rewrite <- (firstn_skipn n l) in H. now apply Forall_app in H.
Qed.

Lemma rolling_col_bounds (f : event_field) (g : list Row) (v : option Z) :
  (forall r, In r g -> 0 <= field_value f r <= 1) ->
  In v (rolling_col f g) -> exists s, v = Some s /\ 0 <= s <= 7.
Proof.
  intros Hflag Hv. apply In_nth_error in Hv. destruct Hv as [i Hi].
  assert (Hlt : (i < length g)%nat).
  { rewrite <- (rolling_col_length f g). apply nth_error_Some. congruence. }
  rewrite (rolling_col_nth f g i Hlt) in Hi. injection Hi as <-.
  eexists. split; [reflexivity|].
  set (w := skipn (i + 1 - 7) (firstn (i + 1) (map (field_value f) g))).
  assert (HF : Forall (fun v => 0 <= v <= 1) w).
  { apply Forall_skipn, Forall_firstn. apply Forall_forall. intros x Hx.
    apply in_map_iff in Hx. destruct Hx as [r [<- Hr]]. now apply Hflag. }
  pose proof (sumZ_bounds w HF) as Hb.
  assert (Hlen : (length w <= 7)%nat).
  { unfold w. rewrite length_skipn, length_firstn. lia. }
  lia.
Qed.

(** X8.  When an event flag only takes the values 0 and 1 in the table, each
    of its [bwd] and [fwd] rolling sums is a count between 0 and 7. *)
Theorem rolling_sums_count_at_most_seven :
  forall (df : list Row) (f : event_field) (x : RollRow),
    (forall r, In r df -> 0 <= field_value f r <= 1) ->
    In x (bwd df) \/ In x (fwd df) ->
    exists s, rolled f x = Some s /\ 0 <= s <= 7.
Proof.
  intros df f x Hflag Hx.
  assert (Hall : forall d, (forall r, In r d -> In r df) ->
                           In x (groupby_Store_rolling d) ->
                           exists s, rolled f x = Some s /\ 0 <= s <= 7).
  { intros d Hsub Hin.
    destruct (groupby_Store_rolling_store d (r_Store x) f) as [_ Hv].
    set (g := filter (fun r => Store r =? r_Store x) d) in *.
    apply (rolling_col_bounds f g).
    - intros r Hr. apply Hflag, Hsub. apply filter_In in Hr. tauto.
    - rewrite <- Hv. apply in_map. apply filter_In. split; [exact Hin|].
      apply Z.eqb_refl. }
  destruct Hx as [Hx|Hx].
  - apply (Hall (sort_index true df)); [|exact Hx].
    intros r Hr. eapply Permutation_in; [symmetry; apply sort_by_perm|exact Hr].
  - apply (Hall (sort_index false df)); [|exact Hx].
    intros r Hr. eapply Permutation_in; [symmetry; apply sort_by_perm|exact Hr].
Qed.

Lemma rolling_sums_count_at_most_seven_witness :
  Forall (fun x => exists s, r_Promo x = Some s /\ 0 <= s <= 7) (bwd ex_union).
Proof.
  apply Forall_forall. intros x Hx.
  apply (rolling_sums_count_at_most_seven ex_union Promo_f x).
  - intros r Hr. simpl in Hr.
    repeat (destruct Hr as [<-|Hr]; [simpl; lia|]). contradiction.
  - now left.
Defined.

Lemma zip_roll_keys (g : list Row) (a b c : list (option Z)) :
  length a = length g -> length b = length g -> length c = length g ->
  map (fun x => (r_Store x, r_Date x)) (zip_roll g a b c)
  = map (fun r => (Store r, Date r)) g.
Proof.
  revert a b c. induction g as [|r g IH]; intros [|x a] [|y b] [|z c] Ha Hb Hc;
    simpl in *; try discriminate; [reflexivity|].
  injection Ha as Ha. injection Hb as Hb. injection Hc as Hc.
  now rewrite IH.
Qed.

Lemma flat_map_ext_in {A B : Type} (F G : A -> list B) (xs : list A) :
  (forall x, In x xs -> F x = G x) -> flat_map F xs = flat_map G xs.
Proof.
  induction xs as [|x xs IH]; simpl; intros H; [reflexivity|].
  rewrite (H x (or_introl eq_refl)), IH; [reflexivity|].
  intros y Hy. apply H. now right.
Qed.

Lemma filter_split_perm {A : Type} (p : A -> bool) (l : list A) :
  Permutation l (filter p l ++ filter (fun x => negb (p x)) l).
Proof.
  induction l as [|x l IH]; simpl; [constructor|].
  destruct (p x); simpl.
  - now constructor.
  - etransitivity; [apply perm_skip, IH|]. apply Permutation_middle.
Qed.

(** Grouping by store rearranges the rows, it loses and repeats none. *)
Lemma groups_perm (keys : list Z) (d : list Row) :
  NoDup keys -> (forall r, In r d -> In (Store r) keys) ->
  Permutation (flat_map (fun s => filter (fun r => Store r =? s) d) keys) d.
Proof.
  intros Hnd. revert d. induction Hnd as [|k keys Hnot Hnd IH]; intros d Hin.
  - destruct d as [|r d]; [constructor|]. exfalso. apply (Hin r). now left.
  - simpl. set (d' := filter (fun r => negb (Store r =? k)) d).
    assert (E : flat_map (fun s => filter (fun r => Store r =? s) d) keys
                = flat_map (fun s => filter (fun r => Store r =? s) d') keys).
    { apply flat_map_ext_in. intros s Hs. unfold d'. rewrite filter_filter.
      apply filter_ext. intros r.
      destruct (Z.eqb_spec (Store r) s) as [->|Hne]; [|now rewrite andb_false_r].
      destruct (Z.eqb_spec s k) as [->|_]; [contradiction|reflexivity]. }
    rewrite E.
    eapply Permutation_trans;
      [|symmetry; apply (filter_split_perm (fun r => Store r =? k) d)].
    fold d'. apply Permutation_app_head. apply IH.
    intros r Hr. unfold d' in Hr. apply filter_In in Hr. destruct Hr as [Hr Hne].
    destruct (Hin r Hr) as [Hk|Hk]; [|exact Hk].
    apply negb_true_iff, Z.eqb_neq in Hne. congruence.
Qed.

Lemma strictly_sorted_NoDup (l : list Z) : StronglySorted Z.lt l -> NoDup l.
Proof.
  induction 1 as [|x l Hs IH Hx]; constructor; [|exact IH].
  intros Hin. rewrite Forall_forall in Hx. specialize (Hx x Hin). lia.
Qed.

Lemma groupby_Store_rolling_keys (d : list Row) :
  Permutation (map (fun x => (r_Store x, r_Date x)) (groupby_Store_rolling d))
              (map (fun r => (Store r, Date r)) d).
Proof.
  unfold groupby_Store_rolling.
  rewrite flat_map_concat_map, concat_map, map_map.
  rewrite (map_ext _ (fun s => map (fun r => (Store r, Date r))
                                   (filter (fun r => Store r =? s) d)))
    by (intros s; apply zip_roll_keys; apply rolling_col_length).
  rewrite <- map_map with (g := map (fun r => (Store r, Date r))).
  rewrite <- concat_map, <- flat_map_concat_map.
  apply Permutation_map. apply groups_perm.
  - apply strictly_sorted_NoDup, group_keys_sorted.
  - intros r Hr. apply group_keys_In. now exists r.
Qed.

(** X9.  [bwd] and [fwd] hold exactly one row for each row of the table
    they are computed from, under the same (Store, Date) key: no row is lost
    or repeated by the grouping, so both have as many rows as the table. *)
Theorem rolled_tables_keep_every_row :
  forall df : list Row,
    Permutation (map (fun x => (r_Store x, r_Date x)) (bwd df))
                (map (fun r => (Store r, Date r)) df) /\
    Permutation (map (fun x => (r_Store x, r_Date x)) (fwd df))
                (map (fun r => (Store r, Date r)) df) /\
    length (bwd df) = length df /\ length (fwd df) = length df.
Proof.
  intros df.
  assert (Hb : Permutation (map (fun x => (r_Store x, r_Date x)) (bwd df))
                           (map (fun r => (Store r, Date r)) df)).
  { unfold bwd. etransitivity; [apply groupby_Store_rolling_keys|].
    apply Permutation_map. symmetry. apply sort_by_perm. }
  assert (Hf : Permutation (map (fun x => (r_Store x, r_Date x)) (fwd df))
                           (map (fun r => (Store r, Date r)) df)).
  { unfold fwd. etransitivity; [apply groupby_Store_rolling_keys|].
    apply Permutation_map. symmetry. apply sort_by_perm. }
  split; [exact Hb|]. split; [exact Hf|]. split.
  - apply Permutation_length in Hb. now rewrite !length_map in Hb.
  - apply Permutation_length in Hf. now rewrite !length_map in Hf.
Qed.

(* ================================================================== *)
(** ** Calendar fields of a date                                      *)
(* ================================================================== *)

Lemma days_from_civil_jan1 (y : Z) :
  days_from_civil y 1 1 = days_before_year y - 719162.
Proof. unfold days_from_civil. change (days_before_month y 1) with 0.
  change (days_before_year 1970) with 719162. lia. Qed.

Lemma dt_year_spec (n : Z) :
  days_from_civil (dt_year n) 1 1 <= n < days_from_civil (dt_year n + 1) 1 1.
Proof.
  rewrite !days_from_civil_jan1. unfold dt_year.
  change (days_before_year 1970) with 719162.
  set (a := n + 719162). set (c := 400 * a / 146097 + 1).
  assert (Hc : 146097 * (c - 1) <= 400 * a < 146097 * c).
  { unfold c. Z.div_mod_to_equations. lia. }
  assert (Hlo : days_before_year (c - 1) <= a).
  { unfold days_before_year. Z.div_mod_to_equations. lia. }
  assert (Hhi : a < days_before_year (c + 2)).
  { unfold days_before_year. Z.div_mod_to_equations. lia. }
  clearbody c.
  destruct (Z.ltb_spec a (days_before_year c)).
  - replace (c - 1 + 1) with c by lia. lia.
  - destruct (Z.leb_spec (days_before_year (c + 1)) a).
    + replace (c + 1 + 1) with (c + 2) by lia. lia.
    + lia.
Qed.

Lemma days_before_year_mono (y1 y2 : Z) :
  y1 <= y2 -> days_before_year y1 <= days_before_year y2.
Proof. intros H. unfold days_before_year. Z.div_mod_to_equations. lia. Qed.

Lemma dt_year_unique (n y : Z) :
  days_from_civil y 1 1 <= n < days_from_civil (y + 1) 1 1 -> dt_year n = y.
Proof.
  intros H. pose proof (dt_year_spec n) as H'.
  rewrite !days_from_civil_jan1 in H, H'.
  destruct (Z.lt_trichotomy (dt_year n) y) as [Hlt|[Heq|Hgt]]; [|exact Heq|].
  - pose proof (days_before_year_mono (dt_year n + 1) y ltac:(lia)). lia.
  - pose proof (days_before_year_mono (y + 1) (dt_year n) ltac:(lia)). lia.
Qed.

Lemma year_length (y : Z) :
  days_from_civil (y + 1) 1 1
  = days_from_civil y 1 1 + 365 + (if is_leap y then 1 else 0).
Proof.
  rewrite !days_from_civil_jan1. unfold days_before_year, is_leap.
  replace (y + 1 - 1) with y by lia.
  destruct (Z.eqb_spec (y mod 4) 0); destruct (Z.eqb_spec (y mod 100) 0);
    destruct (Z.eqb_spec (y mod 400) 0); cbn [andb orb negb];
    Z.div_mod_to_equations; lia.
Qed.

Lemma days_before_month_leap (y m : Z) :
  days_before_month y m
  = fold_right Z.add 0
      (map (fun k => if k =? 2 then (if is_leap y then 29 else 28)
                     else if (k =? 4) || (k =? 6) || (k =? 9) || (k =? 11)
                          then 30 else 31)
         (map Z.of_nat (seq 1 (Z.to_nat (m - 1))))).
Proof. reflexivity. Qed.

Ltac month_cases Hm :=
  repeat (destruct Hm as [->|Hm]); try subst.

Lemma month_table (y m : Z) :
  1 <= m <= 12 ->
  days_before_month y m
  = (let l := if is_leap y then 1 else 0 in
     if m =? 1 then 0 else if m =? 2 then 31 else if m =? 3 then 59 + l
     else if m =? 4 then 90 + l else if m =? 5 then 120 + l
     else if m =? 6 then 151 + l else if m =? 7 then 181 + l
     else if m =? 8 then 212 + l else if m =? 9 then 243 + l
     else if m =? 10 then 273 + l else if m =? 11 then 304 + l
     else 334 + l) /\
  days_in_month y m
  = (if m =? 2 then (if is_leap y then 29 else 28)
     else if (m =? 4) || (m =? 6) || (m =? 9) || (m =? 11) then 30 else 31).
Proof.
  intros H.
  assert (Hm : m = 1 \/ m = 2 \/ m = 3 \/ m = 4 \/ m = 5 \/ m = 6 \/ m = 7 \/
               m = 8 \/ m = 9 \/ m = 10 \/ m = 11 \/ m = 12) by lia.
  split; [|reflexivity].
  rewrite days_before_month_leap.
  month_cases Hm; generalize (is_leap y); intros [|]; reflexivity.
Qed.

Lemma month_of_year_day_spec (y k : Z) :
  0 <= k < 365 + (if is_leap y then 1 else 0) ->
  let m := month_of_year_day (is_leap y) k in
  1 <= m <= 12 /\
  days_before_month y m <= k < days_before_month y m + days_in_month y m.
Proof.
  intros Hk m.
  assert (Hm : 1 <= m <= 12).
  { unfold m, month_of_year_day.
    repeat match goal with
           | |- context [?a <? ?b] => destruct (Z.ltb_spec a b); [lia|]
           end. lia. }
  split; [exact Hm|].
  destruct (month_table y m Hm) as [-> ->].
  unfold m, month_of_year_day. clear m Hm.
  destruct (is_leap y); cbv zeta;
  repeat match goal with
         | |- context [?a <? ?b] =>
             destruct (Z.ltb_spec a b); [cbn; lia|]
         end; cbn; lia.
Qed.

Lemma month_of_year_day_unique (y m k : Z) :
  1 <= m <= 12 ->
  days_before_month y m <= k < days_before_month y m + days_in_month y m ->
  month_of_year_day (is_leap y) k = m.
Proof.
  intros Hm. destruct (month_table y m Hm) as [-> ->].
  assert (Hc : m = 1 \/ m = 2 \/ m = 3 \/ m = 4 \/ m = 5 \/ m = 6 \/ m = 7 \/
               m = 8 \/ m = 9 \/ m = 10 \/ m = 11 \/ m = 12) by lia.
  unfold month_of_year_day.
  month_cases Hc; destruct (is_leap y); cbn; intros Hk;
  repeat match goal with
         | |- context [?a <? ?b] =>
             destruct (Z.ltb_spec a b); try lia
         end.
Qed.

Lemma month_end_in_year (y m : Z) :
  1 <= m <= 12 ->
  0 <= days_before_month y m /\
  days_before_month y m + days_in_month y m
  <= 365 + (if is_leap y then 1 else 0).
Proof.
  intros Hm. destruct (month_table y m Hm) as [-> ->].
  assert (Hc : m = 1 \/ m = 2 \/ m = 3 \/ m = 4 \/ m = 5 \/ m = 6 \/ m = 7 \/
               m = 8 \/ m = 9 \/ m = 10 \/ m = 11 \/ m = 12) by lia.
  month_cases Hc; destruct (is_leap y); cbn; lia.
Qed.

Lemma days_from_civil_in_year (y m d : Z) :
  days_from_civil y m d = days_from_civil y 1 1 + days_before_month y m + (d - 1).
Proof. rewrite days_from_civil_jan1. unfold days_from_civil.
  change (days_before_year 1970) with 719162. lia. Qed.

(** X24.  Year, Month and Day of a date name a day of the calendar, the one
    the date is; and they are the only fields that do: the date made of a
    year, a month and a day of that month has these as its fields. *)
Theorem date_parts_round_trip :
  forall n : Z,
    let p := add_date_parts n in
    (1 <= Month p <= 12 /\
     1 <= Day p <= days_in_month (Year p) (Month p) /\
     days_from_civil (Year p) (Month p) (Day p) = n) /\
    (forall y m d,
        1 <= m <= 12 -> 1 <= d <= days_in_month y m ->
        days_from_civil y m d = n ->
        (Year p, Month p, Day p) = (y, m, d)).
Proof.
  intros n p. unfold p, add_date_parts. cbn [Year Month Day]. split.
  - pose proof (dt_year_spec n) as Hy. rewrite year_length in Hy.
    unfold dt_day, dt_month.
    set (y := dt_year n) in *. set (k := n - days_from_civil y 1 1).
    assert (Hk : 0 <= k < 365 + (if is_leap y then 1 else 0)) by (unfold k; lia).
    destruct (month_of_year_day_spec y k Hk) as [Hm Hd].
    set (m := month_of_year_day (is_leap y) k) in *.
    rewrite !(days_from_civil_in_year y m). unfold k in *. lia.
  - intros y m d Hm Hd E.
    destruct (month_end_in_year y m Hm) as [H0 H1].
    rewrite days_from_civil_in_year in E.
    assert (Ey : dt_year n = y).
    { apply dt_year_unique. rewrite year_length. lia. }
    assert (Em : dt_month n = m).
    { unfold dt_month. rewrite Ey. apply month_of_year_day_unique; [exact Hm|lia]. }
    unfold dt_day. rewrite Em, Ey, days_from_civil_in_year.
    f_equal. lia.
Qed.

Lemma dt_dayofweek_range (n : Z) : 0 <= dt_dayofweek n <= 6.
Proof. unfold dt_dayofweek. Z.div_mod_to_equations. lia. Qed.

(** X25.  The Week of a date lies between 1 and 53, and the seven days from
    a Monday to the next Sunday have the same Week. *)
Theorem week_number_range :
  forall n : Z,
    1 <= Week (add_date_parts n) <= 53 /\
    (forall k, 0 <= k <= 6 ->
       Week (add_date_parts (n - dt_dayofweek n + k)) = Week (add_date_parts n)).
Proof.
  intros n. cbn [add_date_parts Week]. split.
  - unfold dt_week. set (th := n - dt_dayofweek n + 3).
    pose proof (dt_year_spec th) as Hy. rewrite year_length in Hy.
    assert (Hl : 0 <= (if is_leap (dt_year th) then 1 else 0) <= 1)
      by (destruct (is_leap (dt_year th)); lia).
    Z.div_mod_to_equations. lia.
  - intros k Hk. unfold dt_week.
    assert (E : dt_dayofweek (n - dt_dayofweek n + k) = k).
    { unfold dt_dayofweek. Z.div_mod_to_equations. lia. }
    rewrite E. replace (n - dt_dayofweek n + k - k + 3) with (n - dt_dayofweek n + 3) by lia.
    reflexivity.
Qed.

(** X26.  Year and Week together do not identify a week: when the 31st of
    December falls on a Monday, Tuesday or Wednesday it has Week 1 and its
    own Year, which are the Year and Week of the 4th of January of the same
    year, almost a year earlier. *)
Theorem year_week_repeats :
  forall y : Z,
    dt_dayofweek (days_from_civil y 12 31) <= 2 ->
    let dec31 := add_date_parts (days_from_civil y 12 31) in
    let jan4 := add_date_parts (days_from_civil y 1 4) in
    (Year dec31, Week dec31) = (y, 1) /\
    (Year jan4, Week jan4) = (y, 1) /\
    361 <= days_from_civil y 12 31 - days_from_civil y 1 4.
Proof.
  intros y Hw dec31 jan4. unfold dec31, jan4, add_date_parts.
  cbn [Year Week].
  pose proof (days_from_civil_next_year y) as Hn.
  pose proof (year_length y) as Hl.
  pose proof (year_length (y + 1)) as Hl1.
  assert (Hb : 0 <= (if is_leap y then 1 else 0) <= 1)
    by (destruct (is_leap y); lia).
  assert (Hb1 : 0 <= (if is_leap (y + 1) then 1 else 0) <= 1)
    by (destruct (is_leap (y + 1)); lia).
  pose proof (dt_dayofweek_range (days_from_civil y 12 31)) as Hr.
  pose proof (dt_dayofweek_range (days_from_civil y 1 4)) as Hr4.
  assert (E4 : days_from_civil y 1 4 = days_from_civil y 1 1 + 3).
  { rewrite (days_from_civil_in_year y 1 4).
    change (days_before_month y 1) with 0. lia. }
  split; [|split].
  - f_equal.
    + apply dt_year_unique. lia.
    + unfold dt_week.
      set (th := days_from_civil y 12 31 - dt_dayofweek (days_from_civil y 12 31) + 3).
      assert (Ey : dt_year th = y + 1).
      { apply dt_year_unique. unfold th. lia. }
      rewrite Ey. unfold th. Z.div_mod_to_equations. lia.
  - f_equal.
    + apply dt_year_unique. lia.
    + unfold dt_week.
      set (th := days_from_civil y 1 4 - dt_dayofweek (days_from_civil y 1 4) + 3).
      assert (Ey : dt_year th = y).
      { apply dt_year_unique. unfold th. lia. }
      rewrite Ey. unfold th. Z.div_mod_to_equations. lia.
  - lia.
Qed.

Lemma year_week_repeats_witness :
  (Year (add_date_parts (days_from_civil 2013 12 31)),
   Week (add_date_parts (days_from_civil 2013 12 31))) = (2013, 1).
Proof.
  apply (year_week_repeats 2013). vm_compute. discriminate.
Defined.

(* ================================================================== *)
(** ** The final-columns loop                                          *)
(* ================================================================== *)

Lemma list_remove_None (x : string) (l : list string) :
  list_remove x l = None <-> ~ In x l.
Proof.
  induction l as [|y l IH]; simpl; [tauto|].
  destruct (String.eqb_spec x y) as [->|Hne].
  - split; [discriminate | intros H; exfalso; apply H; now left].
  - destruct (list_remove x l) as [l'|]; simpl.
    + split; [discriminate|]. intros H.
      assert (Hn : ~ In x l) by (intros Hin; apply H; now right).
      apply IH in Hn. discriminate Hn.
    + split; [|reflexivity]. intros _ [H|H]; [congruence|]. now apply IH.
Qed.

Lemma list_remove_Some (x : string) (l l' : list string) :
  list_remove x l = Some l' ->
  filter (fun c => negb (String.eqb x c)) l' = filter (fun c => negb (String.eqb x c)) l /\
  count_occ string_dec l x = S (count_occ string_dec l' x).
Proof.
  revert l'. induction l as [|y l IH]; simpl; intros l' H; [discriminate|].
  destruct (String.eqb_spec x y) as [->|Hne].
  - injection H as <-. simpl. split; [reflexivity|].
    destruct (string_dec y y); [reflexivity|contradiction].
  - destruct (list_remove x l) as [l0|]; [|discriminate]. injection H as <-.
    destruct (IH l0 eq_refl) as [H1 H2]. simpl.
    destruct (String.eqb_spec x y); [contradiction|]. simpl. rewrite H1.
    split; [reflexivity|].
    destruct (string_dec y x); [congruence|exact H2].
Qed.

(** X19.  The loop that takes the label out of the final continuous columns
    ends after one more pass than the label has occurrences, and leaves the
    list without any occurrence of the label and with all other columns in
    their order. *)
Theorem remove_all_loop_result :
  forall (fuel : nat) (x : string) (l : list string),
    (count_occ string_dec l x < fuel)%nat ->
    remove_all_loop fuel x l = Some (filter (fun c => negb (String.eqb x c)) l) /\
    ~ In x (filter (fun c => negb (String.eqb x c)) l) /\
    remove_all_loop (count_occ string_dec l x) x l = None.
Proof.
  intros fuel x l Hf.
  assert (Hno : ~ In x (filter (fun c => negb (String.eqb x c)) l)).
  { intros Hin. apply filter_In in Hin. destruct Hin as [_ Hin].
    now rewrite String.eqb_refl in Hin. }
  split; [|split; [exact Hno|]].
  - clear Hno. revert l Hf. induction fuel as [|fuel IH]; intros l Hf; [lia|].
    simpl. destruct (list_remove x l) as [l'|] eqn:E.
    + destruct (list_remove_Some x l l' E) as [H1 H2].
      rewrite IH by lia. now rewrite H1.
    + f_equal. symmetry. apply filter_all. intros c Hc.
      apply negb_true_iff. apply String.eqb_neq. intros ->.
      now apply (proj1 (list_remove_None c l) E).
  - clear Hf Hno. remember (count_occ string_dec l x) as n eqn:Hn.
    revert l Hn. induction n as [|n IH]; intros l Hn; [reflexivity|].
    simpl. destruct (list_remove x l) as [l'|] eqn:E.
    + destruct (list_remove_Some x l l' E) as [_ H2]. apply IH. lia.
    + exfalso. apply (proj1 (list_remove_None x l)) in E.
      apply (count_occ_not_In string_dec) in E. lia.
Qed.

Lemma remove_all_loop_result_witness :
  remove_all_loop 3 "Sales" ["trend"; "Sales"; "Promo"; "Sales"]
  = Some ["trend"; "Promo"].
Proof.
  apply (remove_all_loop_result 3 "Sales" ["trend"; "Sales"; "Promo"; "Sales"]).
  simpl. lia.
Defined.

(* ================================================================== *)
(** ** Parsing the search-trend table                                  *)
(* ================================================================== *)

Lemma append_nil_r (s : string) : String.append s EmptyString = s.
Proof. induction s as [|c s IH]; simpl; [reflexivity|now rewrite IH]. Qed.

Lemma append_assoc (a b c : string) :
  String.append (String.append a b) c = String.append a (String.append b c).
Proof. induction a as [|x a IH]; simpl; [reflexivity|now rewrite IH]. Qed.

Lemma prefix_head_ne (c0 c : ascii) (sep' s' : string) :
  Ascii.eqb c0 c = false ->
  String.prefix (String c0 sep') (String c s') = false.
Proof.
  intros H. simpl. destruct (Ascii.ascii_dec c0 c) as [->|Hne]; [|reflexivity].
  now rewrite Ascii.eqb_refl in H.
Qed.

Lemma prefix_append (p s : string) : String.prefix p (String.append p s) = true.
Proof.
  induction p as [|c p IH]; simpl; [now destruct s|].
  destruct (Ascii.ascii_dec c c); [exact IH|contradiction].
Qed.

Lemma split_go_plain (c0 : ascii) (sep' a rest cur : string) :
  has_char c0 a = false ->
  split_go (String c0 sep') 0 cur (String.append a rest)
  = split_go (String c0 sep') 0 (String.append cur a) rest.
Proof.
  revert cur. induction a as [|c a IH]; intros cur H.
  - now rewrite append_nil_r.
  - simpl in H. apply orb_false_iff in H. destruct H as [H1 H2].
    change (String.append (String c a) rest) with (String c (String.append a rest)).
    cbn [split_go]. rewrite (prefix_head_ne _ _ _ _ H1).
    rewrite (IH _ H2). now rewrite append_assoc.
Qed.

Lemma split_go_plain_end (c0 : ascii) (sep' a cur : string) :
  has_char c0 a = false ->
  split_go (String c0 sep') 0 cur a = [String.append cur a].
Proof.
  intros H. rewrite <- (append_nil_r a) at 1.
  now rewrite (split_go_plain _ _ _ _ _ H).
Qed.

Lemma split_go_skip (sep p rest cur : string) :
  split_go sep (String.length p) cur (String.append p rest)
  = split_go sep 0 cur rest.
Proof.
  induction p as [|c p IH]; simpl.
  - now destruct rest.
  - exact IH.
Qed.

Lemma split_go_sep (c0 : ascii) (sep' rest cur : string) :
  split_go (String c0 sep') 0 cur (String.append (String c0 sep') rest)
  = cur :: split_go (String c0 sep') 0 EmptyString rest.
Proof.
  change (String.append (String c0 sep') rest)
    with (String c0 (String.append sep' rest)).
  cbn [split_go].
  change (String c0 (String.append sep' rest))
    with (String.append (String c0 sep') rest).
  rewrite prefix_append. cbn [String.length]. rewrite Nat.sub_1_r. cbn [Nat.pred].
  now rewrite split_go_skip.
Qed.

Lemma split_go_head (sep s cur : string) :
  exists p rest,
    split_go sep 0 cur s = String.append cur p :: rest /\
    String.prefix p s = true.
Proof.
  revert cur. induction s as [|c s IH]; intros cur.
  - exists EmptyString, []. simpl. now rewrite append_nil_r.
  - cbn [split_go]. destruct (String.prefix sep (String c s)).
    + exists EmptyString. eexists. rewrite append_nil_r. split; reflexivity.
    + destruct (IH (String.append cur (String c EmptyString))) as (p & rest & H1 & H2).
      exists (String c p), rest. split.
      * rewrite H1, append_assoc. reflexivity.
      * simpl. destruct (Ascii.ascii_dec c c); [exact H2|contradiction].
Qed.

Lemma str_split_three (c0 : ascii) (sep' a b c tail : string) :
  has_char c0 a = false -> has_char c0 b = false -> has_char c0 c = false ->
  tail = EmptyString \/ (exists t, tail = String.append (String c0 sep') t) ->
  let sep := String c0 sep' in
  nth_error
    (str_split sep
       (String.append a (String.append sep
          (String.append b (String.append sep (String.append c tail)))))) 2
  = Some c.
Proof.
  intros Ha Hb Hc Ht sep. unfold str_split, sep.
  rewrite (split_go_plain _ _ _ _ _ Ha), split_go_sep.
  rewrite (split_go_plain _ _ _ _ _ Hb), split_go_sep.
  destruct Ht as [->|[t ->]].
  - rewrite append_nil_r, (split_go_plain_end _ _ _ _ Hc). reflexivity.
  - rewrite (split_go_plain _ _ _ _ _ Hc), split_go_sep. reflexivity.
Qed.

Lemma str_split_two (c0 : ascii) (sep' a b : string) :
  has_char c0 a = false -> has_char c0 b = false ->
  str_split (String c0 sep') (String.append a (String.append (String c0 sep') b))
  = [a; b].
Proof.
  intros Ha Hb. unfold str_split.
  rewrite (split_go_plain _ _ _ _ _ Ha), split_go_sep.
  now rewrite (split_go_plain_end _ _ _ _ Hb).
Qed.

Lemma str_split_one (c0 : ascii) (sep' a : string) :
  has_char c0 a = false -> str_split (String c0 sep') a = [a].
Proof. intros Ha. unfold str_split. now rewrite (split_go_plain_end _ _ _ _ Ha). Qed.

Lemma remap_NI_never_NI (st : option string) : remap_NI st <> Some "NI".
Proof.
  destruct st as [s|]; simpl; [|discriminate].
  destruct (String.eqb_spec s "NI") as [->|Hne]; [discriminate|congruence].
Qed.

Lemma expand_column_Some (k : nat) (pieces : list (list string)) col :
  expand_column k pieces = Some col ->
  col = map (fun p => nth_error p k) pieces.
Proof.
  unfold expand_column.
  destruct (Nat.ltb _ _); [intros H; now injection H as <-|discriminate].
Qed.

Lemma zip_trend_nth (g : list Trend) (fd fs : Trend -> option string) :
  forall i r,
    nth_error g i = Some r ->
    nth_error (zip_trend g (map fd g) (map fs g)) i
    = Some (mkTrendRow (file r) (week r) (trend r) (fd r) (remap_NI (fs r))).
Proof.
  induction g as [|x g IH]; intros [|i] r H; simpl in *; try discriminate.
  - now injection H as ->.
  - now apply IH.
Qed.

Lemma zip_trend_length (g : list Trend) (fd fs : Trend -> option string) :
  length (zip_trend g (map fd g) (map fs g)) = length g.
Proof. induction g as [|x g IH]; simpl; [reflexivity|now rewrite IH]. Qed.

Lemma zip_trend_filter (g : list Trend) (fd fs : Trend -> option string) :
  filter (fun o => String.eqb (t_file o) "Rossmann_DE")
    (zip_trend g (map fd g) (map fs g))
  = map (fun r => mkTrendRow (file r) (week r) (trend r) (fd r) (remap_NI (fs r)))
      (filter (fun r => String.eqb (file r) "Rossmann_DE") g).
Proof.
  induction g as [|x g IH]; simpl; [reflexivity|].
  destruct (String.eqb (file x) "Rossmann_DE"); simpl; now rewrite IH.
Qed.

Lemma parse_googletrend_rows (g : list Trend) gt de :
  parse_googletrend g = Some (gt, de) ->
  gt = zip_trend g
         (map (fun r => nth_error (str_split " - " (week r)) 0) g)
         (map (fun r => nth_error (str_split "_" (file r)) 2) g) /\
  de = filter (fun o => String.eqb (t_file o) "Rossmann_DE") gt.
Proof.
  unfold parse_googletrend.
  destruct (expand_column 0 _) as [dates|] eqn:Ed; [|discriminate].
  destruct (expand_column 2 _) as [states|] eqn:Es; [|discriminate].
  intros H. injection H as <- <-.
  apply expand_column_Some in Ed. apply expand_column_Some in Es.
  rewrite map_map in Ed, Es. subst dates states. split; reflexivity.
Qed.

Lemma parse_googletrend_nth (g : list Trend) gt de i r o :
  parse_googletrend g = Some (gt, de) ->
  nth_error g i = Some r ->
  nth_error gt i = Some o ->
  o = mkTrendRow (file r) (week r) (trend r)
        (nth_error (str_split " - " (week r)) 0)
        (remap_NI (nth_error (str_split "_" (file r)) 2)).
Proof.
  intros H Hr Ho. apply parse_googletrend_rows in H. destruct H as [-> _].
  rewrite (zip_trend_nth g _ _ i r Hr) in Ho. now injection Ho as <-.
Qed.

Lemma max_len_lt (k : nat) (pieces : list (list string)) :
  (0 < k)%nat ->
  (fold_right Nat.max 0%nat (map (@length string) pieces) < k)%nat <->
  Forall (fun p => (length p < k)%nat) pieces.
Proof.
  intros Hk. induction pieces as [|p ps IH]; simpl.
  - split; [constructor|lia].
  - split.
    + intros H. constructor; [lia|]. apply IH. lia.
    + intros H. inversion H as [|? ? H1 H2]; subst. apply IH in H2. lia.
Qed.

Lemma str_split_nonempty (sep s : string) : (0 < length (str_split sep s))%nat.
Proof.
  unfold str_split. destruct (split_go_head sep s EmptyString) as (p & rest & H & _).
  rewrite H. simpl. lia.
Qed.

(** X20.  The State of a search-trend row is the third underscore-separated
    piece of its file name, with NI replaced by HB,NI; it is missing when the
    name has fewer than three pieces, and it is never NI. *)
Theorem googletrend_state :
  forall (g : list Trend) gt de (i : nat) (r : Trend) (o : TrendRow),
    parse_googletrend g = Some (gt, de) ->
    nth_error g i = Some r ->
    nth_error gt i = Some o ->
    (forall a b c tail,
        file r = String.append a (String.append "_"
                   (String.append b (String.append "_" (String.append c tail)))) ->
        has_char "_" a = false -> has_char "_" b = false ->
        has_char "_" c = false ->
        tail = EmptyString \/ (exists t, tail = String.append "_" t) ->
        t_State o = Some (if String.eqb c "NI" then "HB,NI" else c)) /\
    (forall a b,
        file r = String.append a (String.append "_" b) ->
        has_char "_" a = false -> has_char "_" b = false ->
        t_State o = None) /\
    (has_char "_" (file r) = false -> t_State o = None) /\
    t_State o <> Some "NI".
Proof.
  intros g gt de i r o H Hr Ho.
  rewrite (parse_googletrend_nth g gt de i r o H Hr Ho). cbn [t_State].
  split; [|split; [|split]].
  - intros a b c tail Hf Ha Hb Hc Ht. rewrite Hf.
    rewrite (str_split_three "_" EmptyString a b c tail Ha Hb Hc Ht).
    simpl. now destruct (String.eqb c "NI").
  - intros a b Hf Ha Hb. rewrite Hf.
    now rewrite (str_split_two "_" EmptyString a b Ha Hb).
  - intros Hf. now rewrite (str_split_one "_" EmptyString _ Hf).
  - apply remap_NI_never_NI.
Qed.

Lemma googletrend_state_witness :
  exists gt de o,
    parse_googletrend ex_trend = Some (gt, de) /\
    nth_error gt 2 = Some o /\
    t_State o = Some "HB,NI".
Proof.
  destruct (parse_googletrend ex_trend) as [[gt de]|] eqn:E; [|discriminate E].
  destruct (nth_error gt 2) as [o|] eqn:Eo;
    [|vm_compute in E; injection E as <- <-; discriminate Eo].
  exists gt, de, o. split; [reflexivity|]. split; [exact Eo|].
  refine (proj1 (googletrend_state ex_trend gt de 2
                   (mkTrend "Rossmann_DE_NI" "2012-12-09 - 2012-12-15" 76) o
                   E eq_refl Eo)
            "Rossmann" "DE" "NI" EmptyString eq_refl eq_refl eq_refl eq_refl
            (or_introl eq_refl)).
Defined.

(** X21.  The Date of a search-trend row is the text of [week] in front of
    the first [" - "]: the whole of it when there is no space in it, and
    always a beginning of [week]. *)
Theorem googletrend_date :
  forall (g : list Trend) gt de (i : nat) (r : Trend) (o : TrendRow),
    parse_googletrend g = Some (gt, de) ->
    nth_error g i = Some r ->
    nth_error gt i = Some o ->
    (forall a b,
        week r = String.append a (String.append " - " b) ->
        has_char " " a = false ->
        t_Date o = Some a) /\
    (has_char " " (week r) = false -> t_Date o = Some (week r)) /\
    (exists d, t_Date o = Some d /\ String.prefix d (week r) = true).
Proof.
  intros g gt de i r o H Hr Ho.
  rewrite (parse_googletrend_nth g gt de i r o H Hr Ho). cbn [t_Date].
  split; [|split].
  - intros a b Hw Ha. rewrite Hw. unfold str_split.
    rewrite (split_go_plain " " "- " a _ _ Ha).
    change (String " " "- ") with " - ". now rewrite split_go_sep.
  - intros Hw. now rewrite (str_split_one " " "- " _ Hw).
  - unfold str_split.
    destruct (split_go_head " - " (week r) EmptyString) as (p & rest & H1 & H2).
    rewrite H1. exists p. split; [reflexivity|exact H2].
Qed.

Lemma googletrend_date_witness :
  exists gt de o,
    parse_googletrend ex_trend = Some (gt, de) /\
    nth_error gt 0 = Some o /\
    t_Date o = Some "2012-12-02".
Proof.
  destruct (parse_googletrend ex_trend) as [[gt de]|] eqn:E; [|discriminate E].
  destruct (nth_error gt 0) as [o|] eqn:Eo;
    [|vm_compute in E; injection E as <- <-; discriminate Eo].
  exists gt, de, o. split; [reflexivity|]. split; [exact Eo|].
  refine (proj1 (googletrend_date ex_trend gt de 0
                   (mkTrend "Rossmann_DE_SN" "2012-12-02 - 2012-12-08" 96) o
                   E eq_refl Eo)
            "2012-12-02" "2012-12-08" eq_refl eq_refl).
Defined.

(** X22.  [trend_de] holds the rows of the file Rossmann_DE, in their order
    and with their week and trend, and none of them has a State. *)
Theorem trend_de_rows :
  forall (g : list Trend) gt de,
    parse_googletrend g = Some (gt, de) ->
    map (fun o => (t_week o, t_trend o)) de
    = map (fun r => (week r, trend r))
        (filter (fun r => String.eqb (file r) "Rossmann_DE") g) /\
    Forall (fun o => t_file o = "Rossmann_DE" /\ t_State o = None) de.
Proof.
  intros g gt de H. apply parse_googletrend_rows in H. destruct H as [-> ->].
  rewrite zip_trend_filter. split.
  - rewrite map_map. reflexivity.
  - apply Forall_forall. intros o Ho. apply in_map_iff in Ho.
    destruct Ho as (r & <- & Hr). apply filter_In in Hr. destruct Hr as [_ Hr].
    apply String.eqb_eq in Hr. cbn [t_file t_State]. rewrite Hr.
    split; reflexivity.
Qed.

Lemma trend_de_rows_witness :
  exists gt de,
    parse_googletrend ex_trend = Some (gt, de) /\
    map (fun o => (t_week o, t_trend o)) de = [("2012-12-02 - 2012-12-08", 77)].
Proof.
  destruct (parse_googletrend ex_trend) as [[gt de]|] eqn:E; [|discriminate E].
  exists gt, de. split; [reflexivity|].
  exact (proj1 (trend_de_rows ex_trend gt de E)).
Defined.

(** X23.  Cell 6 fails exactly when no file name of the table has three
    underscore-separated pieces (in particular on an empty table): the
    expanded split has no column 2 then. *)
Theorem parse_googletrend_fails :
  forall g : list Trend,
    parse_googletrend g = None <->
    Forall (fun r => (length (str_split "_" (file r)) < 3)%nat) g.
Proof.
  intros g. unfold parse_googletrend, expand_column.
  destruct g as [|r g].
  - simpl. split; [constructor|reflexivity].
  - destruct (Nat.ltb_spec 0
      (fold_right Nat.max 0%nat
         (map (@length string)
            (map (fun r0 => str_split " - " (week r0)) (r :: g))))) as [_|H0].
    + destruct (Nat.ltb_spec 2
        (fold_right Nat.max 0%nat
           (map (@length string)
              (map (fun r0 => str_split "_" (file r0)) (r :: g))))) as [H2|H2].
      * split; [discriminate|]. intros HF. exfalso.
        assert (H3 : Forall (fun p : list string => (length p < 3)%nat)
                       (map (fun r0 => str_split "_" (file r0)) (r :: g))).
        { apply Forall_map. exact HF. }
        apply max_len_lt in H3; lia.
      * split; [|reflexivity]. intros _.
        assert (H3 : Forall (fun p : list string => (length p < 3)%nat)
                       (map (fun r0 => str_split "_" (file r0)) (r :: g))).
        { apply max_len_lt; lia. }
        apply Forall_map in H3. exact H3.
    + exfalso. simpl in H0.
      pose proof (str_split_nonempty " - " (week r)). lia.
Qed.
